(** * The GDB remote-serial-protocol stub of xenia (src/xenia/debug/gdb/gdbstub.cc)

    A shallow embedding of the stub: the packet codec ([ParsePacket],
    [SendPacket], [ProcessIncomingData]), the register encoder
    ([ReadRegister], [ReadRegisters]), the session cache ([UpdateCache] and
    the Processor callbacks), the breakpoint registry
    ([CreateCodeBreakpoint], [DeleteCodeBreakpoint]) and the command
    dispatcher ([HandleGDBCommand]).

    Conventions.
    - [std::string] is [string] and [char] is [ascii] (an 8-bit byte); a
      string may hold the byte 0.
    - Fixed-width unsigned integers are [Z] with the wrap-around written out
      ([to_uint8], [to_uint32], [to_uint64]).
    - A computation whose C++ behaviour is undefined (null dereference,
      indexing an empty vector, reading an indeterminate value) or that
      leaves through an exception returns [None]. *)

From Stdlib Require Import ZArith Lia List Bool Ascii String.
From stdpp Require Import base option list strings gmap.
Import ListNotations.

Local Open Scope string_scope.
Local Open Scope Z_scope.

(** ** Bytes and fixed-width integers *)

Definition to_uint8 (z : Z) : Z := z mod 256.
Definition to_uint32 (z : Z) : Z := z mod 2 ^ 32.
Definition to_uint64 (z : Z) : Z := z mod 2 ^ 64.

(** The value of a [char] seen as [uint8_t]. *)
Definition byte_of (c : ascii) : Z := Z.of_N (N_of_ascii c).

(** The [char] holding the low eight bits of an integer. *)
Definition char_of (z : Z) : ascii := ascii_of_N (Z.to_N (to_uint8 z)).

Definition str1 (c : ascii) : string := String c EmptyString.

(** [enum class GdbStubControl : char] *)
Module GdbStubControl.
Definition Ack : ascii := "+"%char.
Definition Nack : ascii := "-"%char.
Definition PacketStart : ascii := "$"%char.
Definition PacketEnd : ascii := "#"%char.
Definition Interrupt : ascii := "003"%char.
End GdbStubControl.

Definition NUL : ascii := "000"%char.

Definition kGdbReplyOK : string := "OK".
Definition kGdbReplyError : string := "E01".
Definition kSignalSigtrap : Z := 5.

(** ** Number formatting ([fmt::format], [std::to_string], iostream [hex]) *)

Definition digit_char (d : Z) : ascii :=
  if d <? 10 then char_of (byte_of "0"%char + d)
  else char_of (byte_of "a"%char + d - 10).

(** Digits of [n] in [base], most significant first; a zero prints as one
    digit.  [fuel] bounds the number of digits produced. *)
Fixpoint digits_aux (fuel : nat) (base n : Z) (acc : string) : string :=
  match fuel with
  | O => acc
  | S k =>
      let acc' := String (digit_char (n mod base)) acc in
      if n / base =? 0 then acc' else digits_aux k base (n / base) acc'
  end.

(** A non-negative [n] below [2 ^ 64] has at most 64 digits in any base
    from 2 on, so 64 steps never run out. *)
Definition digits (base n : Z) : string := digits_aux 64 base n "".

Fixpoint replicate_char (n : nat) (c : ascii) : string :=
  match n with
  | O => ""
  | S k => String c (replicate_char k c)
  end.

(** Right-align [s] in a field of [width] characters filled with [fill];
    a longer [s] is left as it is. *)
Definition pad_left (width : nat) (fill : ascii) (s : string) : string :=
  replicate_char (width - String.length s) fill +:+ s.

(** [fmt::format("{:016x}", value)] for a [uint64_t]. *)
Definition u64_to_padded_hex (value : Z) : string :=
  pad_left 16 "0" (digits 16 (to_uint64 value)).

(** [fmt::format("{:08x}", value)] for a [uint32_t]. *)
Definition u32_to_padded_hex (value : Z) : string :=
  pad_left 8 "0" (digits 16 (to_uint32 value)).

(** [fmt::format("{:02x}", v)] and [ss << hex << setw(2) << setfill('0')]. *)
Definition hex02 (value : Z) : string := pad_left 2 "0" (digits 16 value).

(** [fmt::format("{:x}", v)] *)
Definition hex_plain (value : Z) : string := digits 16 value.

(** [std::to_string] of an unsigned value. *)
Definition to_string (value : Z) : string := digits 10 value.

(** [to_hexbyte] *)
Definition to_hexbyte (i : Z) : string :=
  let i1 := Z.land i 15 in
  let i2 := Z.shiftr i 4 in
  String (if 9 <? i2 then char_of (byte_of "a"%char + i2 - 10)
          else char_of (byte_of "0"%char + i2))
    (String (if 9 <? i1 then char_of (byte_of "a"%char + i1 - 10)
             else char_of (byte_of "0"%char + i1)) "").

(** [from_hexchar]: a hex char (0-9, a-f, A-F) to its value, anything else
    to 0. *)
Definition from_hexchar (c : ascii) : Z :=
  let v := byte_of c in
  if (byte_of "0"%char <=? v) && (v <=? byte_of "9"%char) then v - byte_of "0"%char
  else if (byte_of "a"%char <=? v) && (v <=? byte_of "f"%char) then v - byte_of "a"%char + 10
  else if (byte_of "A"%char <=? v) && (v <=? byte_of "F"%char) then v - byte_of "A"%char + 10
  else 0.

Definition is_hexchar (c : ascii) : bool :=
  let v := byte_of c in
  ((byte_of "0"%char <=? v) && (v <=? byte_of "9"%char))
  || ((byte_of "a"%char <=? v) && (v <=? byte_of "f"%char))
  || ((byte_of "A"%char <=? v) && (v <=? byte_of "F"%char)).

(** ** The packet parser *)

(** Modelled from the spec: [struct GDBCommand] is declared in the header
    gdbstub.h, which is not among the sources; it has the fields [cmd],
    [data] and [checksum] of the Command of the data model, [checksum]
    being one unsigned byte. *)
Record GDBCommand : Type := mkGDBCommand {
  cmd : string;
  data : string;
  checksum : Z
}.

Definition empty_command : GDBCommand := mkGDBCommand "" "" 0.

(** [ReadCharFromBuffer]: the unread part of the packet stands for
    [buffer_index]; at the end it yields the byte 0 and does not move. *)
Definition ReadCharFromBuffer (rest : string) : ascii * string :=
  match rest with
  | EmptyString => (NUL, EmptyString)
  | String c rest' => (c, rest')
  end.

(** [ReadHexByteFromBuffer]: two hex digits, or 0 when fewer than two
    bytes are left. *)
Definition ReadHexByteFromBuffer (rest : string) : Z * string :=
  match rest with
  | String high (String low rest') =>
      (to_uint8 (Z.lor (Z.shiftl (from_hexchar high) 4) (from_hexchar low)), rest')
  | _ => (0, rest)
  end.

Definition is_splitter (c : ascii) : bool :=
  Ascii.eqb c ":" || Ascii.eqb c "." || Ascii.eqb c ";".

(** The loop variables of [ParsePacket]. *)
Record ParseState : Type := mkParseState {
  ps_cmd : string;
  ps_data : string;
  ps_cmd_part : bool;
  ps_checksum : Z
}.

(** One pass of the body of [while (true)] after the escape has been
    resolved: [c] is the logical byte. *)
Definition parse_store (c : ascii) (st : ParseState) : ParseState :=
  let cmd_part :=
    if ps_cmd_part st && is_splitter c then false else ps_cmd_part st in
  if cmd_part then
    let cmd' := ps_cmd st +:+ str1 c in
    let cmd_part' :=
      if (String.length cmd' =? 1)%nat && negb (Ascii.eqb c "q") && negb (Ascii.eqb c "v")
      then false else cmd_part in
    mkParseState cmd' (ps_data st) cmd_part' (ps_checksum st)
  else
    mkParseState (ps_cmd st) (ps_data st +:+ str1 c) cmd_part (ps_checksum st).

Definition add_checksum (c : ascii) (st : ParseState) : ParseState :=
  mkParseState (ps_cmd st) (ps_data st) (ps_cmd_part st)
    ((ps_checksum st + byte_of c) mod 256).

(** The [while (true)] loop: returns the loop variables and the unread
    rest of the packet at the [break]. *)
Fixpoint parse_loop (rest : string) (st : ParseState) : ParseState * string :=
  match rest with
  | EmptyString => (st, EmptyString)
  | String c rest1 =>
      if Ascii.eqb c NUL || Ascii.eqb c GdbStubControl.PacketEnd then (st, rest1)
      else
        let st1 := add_checksum c st in
        if Ascii.eqb c "}" then
          match rest1 with
          | EmptyString =>
              let c' := char_of (Z.lxor (byte_of NUL) 32) in
              parse_loop rest1 (parse_store c' (add_checksum c' st1))
          | String d rest2 =>
              let c' := char_of (Z.lxor (byte_of d) 32) in
              parse_loop rest2 (parse_store c' (add_checksum c' st1))
          end
        else parse_loop rest1 (parse_store c st1)
  end.

Definition interrupt_command : GDBCommand :=
  mkGDBCommand (str1 GdbStubControl.Interrupt) "" 0.

(** [GDBStub::ParsePacket]: the returned flag and the final [out_cmd]. *)
Definition ParsePacket (packet : string) (out_cmd : GDBCommand) : bool * GDBCommand :=
  let '(c, rest) := ReadCharFromBuffer packet in
  let after_start (rest : string) : bool * GDBCommand :=
    let '(st, rest') := parse_loop rest (mkParseState "" "" true 0) in
    let '(sum, _) := ReadHexByteFromBuffer rest' in
    (sum =? ps_checksum st, mkGDBCommand (ps_cmd st) (ps_data st) sum) in
  if Ascii.eqb c GdbStubControl.PacketStart then after_start rest
  else
    let '(c, rest) :=
      if Ascii.eqb c GdbStubControl.Ack then ReadCharFromBuffer rest else (c, rest) in
    let '(c, rest) :=
      if Ascii.eqb c GdbStubControl.Ack then ReadCharFromBuffer rest else (c, rest) in
    if Ascii.eqb c GdbStubControl.Interrupt then (true, interrupt_command)
    else if negb (Ascii.eqb c GdbStubControl.PacketStart) then (false, out_cmd)
    else after_start rest.

(** [GDBStub::SendPacket]: the bytes put on the wire. *)
Definition sum_bytes (s : string) : Z :=
  fold_left (fun acc c => to_uint8 (acc + byte_of c)) (list_ascii_of_string s) 0.

Definition SendPacket (data : string) : string :=
  str1 GdbStubControl.PacketStart +:+ data +:+ str1 GdbStubControl.PacketEnd
    +:+ hex02 (Z.land (sum_bytes data) 255).

(** ** Threads, the Processor and the session cache *)

(** Modelled from the spec: [cpu::StackFrame] (stack_walker.h is not among
    the sources), a call frame with its guest PC. *)
Record StackFrame : Type := mkStackFrame { guest_pc : Z }.

(** Modelled from the spec: the PPC register context of a thread snapshot
    (its header is not among the sources), with r[0..31], f[0..31], lr, ctr
    and cr.  [f] holds the 64-bit pattern of each double and [cr] is the
    value returned by [cr()]. *)
Record PPCContext : Type := mkPPCContext {
  r : Z -> Z;
  f : Z -> Z;
  lr : Z;
  ctr : Z;
  cr : Z
}.

(** Modelled from the spec: [cpu::ThreadDebugInfo] (declared outside the
    sources), a thread snapshot with its id, name, register context and
    call frames. *)
Record ThreadDebugInfo : Type := mkThreadDebugInfo {
  thread_id : Z;
  thread_name : string;
  guest_context : PPCContext;
  frames : list StackFrame
}.

(** Modelled from the spec: [cpu::ExecutionState], the answer of
    [execution_state()]. *)
Inductive ExecutionState : Type := kRunning | kPaused | kEnded.

Definition ExecutionState_eqb (a b : ExecutionState) : bool :=
  match a, b with
  | kRunning, kRunning | kPaused, kPaused | kEnded, kEnded => true
  | _, _ => false
  end.

(** Modelled from the spec: [memory()] of the Processor collaborator (its
    classes are not among the sources): heap lookup by address, protection
    query and address translation.  [LookupHeap] yields a heap or null,
    [QueryProtect] fails or yields the protection bits, [TranslateVirtual]
    maps a guest address to a host pointer, [host_byte] reads through a
    host pointer (or faults), and [kMemoryProtectRead] is the constant of
    that name. *)
Record Memory : Type := mkMemory {
  LookupHeap : Z -> option nat;
  QueryProtect : nat -> Z -> option Z;
  TranslateVirtual : Z -> Z;
  host_byte : Z -> option Z;
  kMemoryProtectRead : Z
}.

(** Modelled from the spec: what the Processor and kernel collaborators
    (declared outside the sources) answer when the stub asks:
    [execution_state()], [QueryThreadDebugInfos()], the loaded modules, and
    the host addresses [ForEachHostAddress] enumerates for a breakpoint
    built at a guest address. *)
Record Processor : Type := mkProcessor {
  execution_state : ExecutionState;
  QueryThreadDebugInfos : list ThreadDebugInfo;
  GetModules : list string;
  ForEachHostAddress : Z -> list Z;
  memory : Memory
}.

(** Calls the stub makes on [processor_]. *)
Inductive ProcCall : Type :=
  | CallPause
  | CallContinue
  | CallStepGuestInstruction (tid : Z)
  | CallAddBreakpoint (handle : nat)
  | CallRemoveBreakpoint (handle : nat).

(** Modelled from the spec: [cpu::Breakpoint] (breakpoint.h is not among
    the sources) has a guest address, the set of host addresses the
    Processor patches for it, and an opaque handle.  [bp_handle] is the
    identity of the object (its pointer), [address] the 64-bit address it
    was built with; the host addresses are those enumerated when it was
    built. *)
Record Breakpoint : Type := mkBreakpoint {
  bp_handle : nat;
  address : Z;
  host_addresses : list Z
}.

(** Modelled from the spec: [Breakpoint::guest_address()], the 32-bit
    address in the emulated address space. *)
Definition guest_address (bp : Breakpoint) : Z := to_uint32 (address bp).

(** Modelled from the spec: [Breakpoint::ContainsHostAddress], membership
    in the set of host addresses of the breakpoint. *)
Definition ContainsHostAddress (bp : Breakpoint) (search_address : Z) : bool :=
  existsb (Z.eqb search_address) (host_addresses bp).

(** [cache_.breakpoints]: the owning vector and the map from guest address
    to the (non-owning) pointer. *)
Record BreakpointState : Type := mkBreakpointState {
  all_breakpoints : list Breakpoint;
  code_breakpoints_by_guest_address : gmap Z nat
}.

(** The value [-1] stored in an unsigned field. *)
Definition absent32 : Z := 2 ^ 32 - 1.
Definition absent64 : Z := 2 ^ 64 - 1.

(** Modelled from the spec: the struct of [cache_] is declared in the
    header gdbstub.h, which is not among the sources; it has the fields of
    the SessionCache of the data model.  Thread ids are 32-bit and the
    breakpoint address is 64-bit (both unsigned), [-1] meaning absent. *)
Record EmulatorStateCache : Type := mkCache {
  cur_thread_id : Z;
  last_bp_thread_id : Z;
  notify_bp_guest_address : Z;
  notify_bp_thread_id : Z;
  notify_stopped : bool;
  is_stopped : bool;
  modules : list string;
  thread_debug_infos : list ThreadDebugInfo;
  breakpoints : BreakpointState
}.

Definition set_cur_thread_id (v : Z) (c : EmulatorStateCache) :=
  mkCache v (last_bp_thread_id c) (notify_bp_guest_address c) (notify_bp_thread_id c)
    (notify_stopped c) (is_stopped c) (modules c) (thread_debug_infos c) (breakpoints c).
Definition set_last_bp_thread_id (v : Z) (c : EmulatorStateCache) :=
  mkCache (cur_thread_id c) v (notify_bp_guest_address c) (notify_bp_thread_id c)
    (notify_stopped c) (is_stopped c) (modules c) (thread_debug_infos c) (breakpoints c).
Definition set_notify_bp_guest_address (v : Z) (c : EmulatorStateCache) :=
  mkCache (cur_thread_id c) (last_bp_thread_id c) v (notify_bp_thread_id c)
    (notify_stopped c) (is_stopped c) (modules c) (thread_debug_infos c) (breakpoints c).
Definition set_notify_bp_thread_id (v : Z) (c : EmulatorStateCache) :=
  mkCache (cur_thread_id c) (last_bp_thread_id c) (notify_bp_guest_address c) v
    (notify_stopped c) (is_stopped c) (modules c) (thread_debug_infos c) (breakpoints c).
Definition set_notify_stopped (v : bool) (c : EmulatorStateCache) :=
  mkCache (cur_thread_id c) (last_bp_thread_id c) (notify_bp_guest_address c)
    (notify_bp_thread_id c) v (is_stopped c) (modules c) (thread_debug_infos c) (breakpoints c).
Definition set_is_stopped (v : bool) (c : EmulatorStateCache) :=
  mkCache (cur_thread_id c) (last_bp_thread_id c) (notify_bp_guest_address c)
    (notify_bp_thread_id c) (notify_stopped c) v (modules c) (thread_debug_infos c) (breakpoints c).
Definition set_modules (v : list string) (c : EmulatorStateCache) :=
  mkCache (cur_thread_id c) (last_bp_thread_id c) (notify_bp_guest_address c)
    (notify_bp_thread_id c) (notify_stopped c) (is_stopped c) v (thread_debug_infos c) (breakpoints c).
Definition set_thread_debug_infos (v : list ThreadDebugInfo) (c : EmulatorStateCache) :=
  mkCache (cur_thread_id c) (last_bp_thread_id c) (notify_bp_guest_address c)
    (notify_bp_thread_id c) (notify_stopped c) (is_stopped c) (modules c) v (breakpoints c).
Definition set_breakpoints (v : BreakpointState) (c : EmulatorStateCache) :=
  mkCache (cur_thread_id c) (last_bp_thread_id c) (notify_bp_guest_address c)
    (notify_bp_thread_id c) (notify_stopped c) (is_stopped c) (modules c) (thread_debug_infos c) v.

(** Modelled from the spec: [cache_.thread_info(id)] of the header, the
    snapshot of the thread with that id, or null when it is unknown. *)
Definition thread_info (c : EmulatorStateCache) (id : Z) : option ThreadDebugInfo :=
  find (fun t => thread_id t =? to_uint32 id) (thread_debug_infos c).

(** Modelled from the spec: [cache_.cur_thread_info()] of the header, the
    snapshot of the thread the client is focused on. *)
Definition cur_thread_info (c : EmulatorStateCache) : option ThreadDebugInfo :=
  thread_info c (cur_thread_id c).

(** The stub: its cache, the allocator of breakpoint objects, and what it
    has done to the outside so far (oldest first). *)
Record GDBStub : Type := mkGDBStub {
  cache_ : EmulatorStateCache;
  next_handle : nat;
  proc_calls : list ProcCall;
  sent : list string
}.

Definition set_cache (c : EmulatorStateCache) (g : GDBStub) : GDBStub :=
  mkGDBStub c (next_handle g) (proc_calls g) (sent g).
Definition call_processor (pc : ProcCall) (g : GDBStub) : GDBStub :=
  mkGDBStub (cache_ g) (next_handle g) (proc_calls g ++ [pc]) (sent g).
Definition Send (bytes : string) (g : GDBStub) : GDBStub :=
  mkGDBStub (cache_ g) (next_handle g) (proc_calls g) (sent g ++ [bytes]).

(** The cache of a fresh stub: nothing is known, no breakpoint is set. *)
Definition initial_cache : EmulatorStateCache :=
  mkCache absent32 absent32 absent64 absent32 false false [] []
    (mkBreakpointState [] ∅).

Definition initial_stub : GDBStub := mkGDBStub initial_cache 0 [] [].

(** ** Register reads *)

(** The guest PC of the first frame that has one, else zero. *)
Fixpoint first_guest_pc (fs : list StackFrame) : Z :=
  match fs with
  | [] => 0
  | fr :: fs' => if negb (guest_pc fr =? 0) then guest_pc fr else first_guest_pc fs'
  end.

(** [GDBStub::ReadRegister(thread, rid)]: the encoding and the cache after
    the call.  [thread] is [None] for a null pointer; dereferencing it is
    undefined. *)
Definition ReadRegister (thread : option ThreadDebugInfo) (rid : Z)
    (c : EmulatorStateCache) : option (string * EmulatorStateCache) :=
  if rid =? 64 then
    if negb (notify_bp_guest_address c =? absent64) then
      let ret := u32_to_padded_hex (notify_bp_guest_address c) in
      Some (ret, set_notify_bp_guest_address absent64 c)
    else
      t ← thread;
      Some (u32_to_padded_hex (first_guest_pc (frames t)), c)
  else if rid =? 65 then Some (replicate_char 8 "x", c)
  else if rid =? 66 then t ← thread; Some (u32_to_padded_hex (cr (guest_context t)), c)
  else if rid =? 67 then t ← thread; Some (u32_to_padded_hex (lr (guest_context t)), c)
  else if rid =? 68 then t ← thread; Some (u32_to_padded_hex (ctr (guest_context t)), c)
  else if rid =? 69 then Some (replicate_char 8 "x", c)
  else if rid =? 70 then Some (replicate_char 8 "x", c)
  else if 70 <? rid then Some ("", c)
  else if 31 <? rid then
    t ← thread; Some (u64_to_padded_hex (f (guest_context t) (rid - 32)), c)
  else
    t ← thread; Some (u32_to_padded_hex (r (guest_context t) rid), c).

(** The loop of [GDBStub::ReadRegisters]: registers [i], [i+1], ... for
    [n] rounds, appended to [result]. *)
Fixpoint ReadRegisters_loop (n : nat) (i : Z) (result : string)
    (c : EmulatorStateCache) : option (string * EmulatorStateCache) :=
  match n with
  | O => Some (result, c)
  | S n' =>
      '(s, c') ← ReadRegister (cur_thread_info c) i c;
      ReadRegisters_loop n' (i + 1) (result +:+ s) c'
  end.

(** [GDBStub::ReadRegisters()] *)
Definition ReadRegisters (c : EmulatorStateCache) : option (string * EmulatorStateCache) :=
  ReadRegisters_loop 71 0 "" c.

(** [std::from_chars] in base 16 into a [bits]-wide unsigned: the value of
    the longest prefix of hex digits.  With no digit, or a value that does
    not fit, the result is left indeterminate ([None]). *)
Fixpoint take_hex (s : string) : string :=
  match s with
  | String c s' => if is_hexchar c then String c (take_hex s') else ""
  | EmptyString => ""
  end.

Definition hex_value (s : string) : Z :=
  fold_left (fun acc c => acc * 16 + from_hexchar c) (list_ascii_of_string s) 0.

Definition hex_to (bits : Z) (val : string) : option Z :=
  let ds := take_hex val in
  if (String.length ds =? 0)%nat then None
  else if hex_value ds <? 2 ^ bits then Some (hex_value ds) else None.

Definition hex_to_u8 := hex_to 8.
Definition hex_to_u32 := hex_to 32.
Definition hex_to_u64 := hex_to 64.

(** [GDBStub::ReadRegister(data)], the [p] command. *)
Definition ReadRegister_cmd (data : string) (c : EmulatorStateCache)
    : option (string * EmulatorStateCache) :=
  rid ← hex_to_u32 data;
  '(result, c') ← ReadRegister (cur_thread_info c) rid c;
  if (String.length result =? 0)%nat then Some (kGdbReplyError, c')
  else Some (result, c').

(** ** Cache refresh and Processor events *)

(** [GDBStub::UpdateCache()]; indexing the empty vector is undefined. *)
Definition UpdateCache (p : Processor) (c : EmulatorStateCache)
    : option EmulatorStateCache :=
  let c := set_is_stopped (negb (ExecutionState_eqb (execution_state p) kRunning)) c in
  let c := set_notify_stopped (is_stopped c) c in
  if negb (is_stopped c) then Some c
  else
    let c := set_modules (GetModules p) c in
    let c := set_thread_debug_infos (QueryThreadDebugInfos p) c in
    t0 ← head (thread_debug_infos c);
    Some (set_cur_thread_id (thread_id t0) c).

Definition OnExecutionPaused := UpdateCache.
Definition OnExecutionContinued := UpdateCache.
Definition OnExecutionEnded := UpdateCache.

(** [GDBStub::OnStepCompleted(thread_info)] *)
Definition OnStepCompleted (p : Processor) (thread : ThreadDebugInfo)
    (c : EmulatorStateCache) : option EmulatorStateCache :=
  let c := set_notify_bp_thread_id (thread_id thread) c in
  let c := set_last_bp_thread_id (thread_id thread) c in
  UpdateCache p c.

(** [GDBStub::OnBreakpointHit(breakpoint, thread_info)] *)
Definition OnBreakpointHit (p : Processor) (breakpoint : Breakpoint)
    (thread : ThreadDebugInfo) (c : EmulatorStateCache) : option EmulatorStateCache :=
  let c := set_notify_bp_guest_address (to_uint64 (address breakpoint)) c in
  let c := set_notify_bp_thread_id (thread_id thread) c in
  let c := set_last_bp_thread_id (thread_id thread) c in
  UpdateCache p c.

(** [GDBStub::GetThreadStateReply(thread_id, signal)] *)
Definition GetThreadStateReply (c : EmulatorStateCache) (tid : Z) (signal : Z) : string :=
  let PC_REGISTER := 64 in
  let LR_REGISTER := 67 in
  match thread_info c tid with
  | Some thread =>
      if negb (to_uint32 tid =? absent32) then
        let pc_value := first_guest_pc (frames thread) in
        let pc_value :=
          if negb (notify_bp_guest_address c =? absent64)
          then notify_bp_guest_address c else pc_value in
        "T" +:+ hex02 signal +:+ hex02 PC_REGISTER +:+ ":" +:+ u32_to_padded_hex pc_value
          +:+ ";" +:+ hex02 LR_REGISTER +:+ ":"
          +:+ u32_to_padded_hex (lr (guest_context thread))
          +:+ ";thread:" +:+ hex_plain (to_uint32 tid) +:+ ";"
      else "S05"
  | None => "S05"
  end.

(** The notification block at the end of one round of the loop of
    [GDBStub::Listen]. *)
Definition Listen_notify (g : GDBStub) : GDBStub :=
  let c := cache_ g in
  if notify_stopped c then
    let c :=
      if negb (notify_bp_thread_id c =? absent32)
      then set_cur_thread_id (notify_bp_thread_id c) c else c in
    let g := Send (SendPacket (GetThreadStateReply c (notify_bp_thread_id c) kSignalSigtrap)) g in
    let c := set_notify_bp_thread_id absent32 c in
    let c := set_notify_stopped false c in
    set_cache c g
  else g.

(** ** The breakpoint registry *)

Definition set_registry (s : BreakpointState) (g : GDBStub) : GDBStub :=
  set_cache (set_breakpoints s (cache_ g)) g.

(** Following a breakpoint pointer: the live object with that identity; a
    pointer to no live object must not be followed. *)
Definition deref (all : list Breakpoint) (h : nat) : option Breakpoint :=
  find (fun b => (bp_handle b =? h)%nat) all.

(** The [for (auto& kvp : map)] loop of [CreateCodeBreakpoint]:
    [Some true] stands for one of its two [return false]. *)
Fixpoint scan_collision (all : list Breakpoint) (breakpoint : Breakpoint)
    (kvps : list (Z * nat)) : option bool :=
  match kvps with
  | [] => Some false
  | (k, h) :: rest =>
      if k =? guest_address breakpoint then Some true
      else
        other ← deref all h;
        if existsb (ContainsHostAddress other) (host_addresses breakpoint) then Some true
        else scan_collision all breakpoint rest
  end.

(** [GDBStub::CreateCodeBreakpoint(address)].  [hosts] is what
    [ForEachHostAddress] enumerates for the new breakpoint. *)
Definition CreateCodeBreakpoint (address : Z) (hosts : list Z) (g : GDBStub)
    : option (bool * GDBStub) :=
  let state := breakpoints (cache_ g) in
  let breakpoint := mkBreakpoint (next_handle g) (to_uint64 address) hosts in
  let g := mkGDBStub (cache_ g) (S (next_handle g)) (proc_calls g) (sent g) in
  let map := code_breakpoints_by_guest_address state in
  hit ← scan_collision (all_breakpoints state) breakpoint (map_to_list map);
  if hit : bool then Some (false, g)
  else
    let map :=
      match map !! guest_address breakpoint with
      | Some _ => map
      | None => <[guest_address breakpoint := bp_handle breakpoint]> map
      end in
    let g := call_processor (CallAddBreakpoint (bp_handle breakpoint)) g in
    Some (true, set_registry (mkBreakpointState (all_breakpoints state ++ [breakpoint]) map) g).

(** [GDBStub::LookupBreakpointAtAddress(address)] *)
Definition LookupBreakpointAtAddress (address : Z) (g : GDBStub) : option nat :=
  code_breakpoints_by_guest_address (breakpoints (cache_ g)) !! to_uint32 address.

(** [GDBStub::DeleteCodeBreakpoint] on a pointer to the breakpoint. *)
Definition DeleteCodeBreakpoint_ptr (breakpoint : nat) (g : GDBStub) : GDBStub :=
  let state := breakpoints (cache_ g) in
  match list_find (fun b => bp_handle b = breakpoint) (all_breakpoints state) with
  | None => g
  | Some (i, bp) =>
      let g := call_processor (CallRemoveBreakpoint breakpoint) g in
      let map := delete (guest_address bp) (code_breakpoints_by_guest_address state) in
      set_registry (mkBreakpointState (delete i (all_breakpoints state)) map) g
  end.

(** [GDBStub::DeleteCodeBreakpoint(address)] *)
Definition DeleteCodeBreakpoint (address : Z) (g : GDBStub) : GDBStub :=
  match LookupBreakpointAtAddress address g with
  | None => g
  | Some breakpoint => DeleteCodeBreakpoint_ptr breakpoint g
  end.

(** [GDBStub::ExecutionPause], [ExecutionContinue], [ExecutionStep] *)
Definition ExecutionPause (g : GDBStub) : string * GDBStub :=
  (kGdbReplyOK, call_processor CallPause g).

Definition ExecutionContinue (g : GDBStub) : string * GDBStub :=
  (kGdbReplyOK, call_processor CallContinue g).

Definition ExecutionStep (g : GDBStub) : string * GDBStub :=
  let tid := last_bp_thread_id (cache_ g) in
  (kGdbReplyOK,
   if negb (tid =? absent32) then call_processor (CallStepGuestInstruction tid) g else g).

(** [GDBStub::DebuggerDetached()] *)
Definition DebuggerDetached (p : Processor) (g : GDBStub) : string * GDBStub :=
  let state := breakpoints (cache_ g) in
  let g :=
    fold_left (fun g b => call_processor (CallRemoveBreakpoint (bp_handle b)) g)
      (all_breakpoints state) g in
  let g := set_registry (mkBreakpointState [] ∅) g in
  let g :=
    if ExecutionState_eqb (execution_state p) kPaused then snd (ExecutionContinue g) else g in
  (kGdbReplyOK, g).

(** The [while (!all_breakpoints.empty())] loop of [OnDetached]; [fuel]
    bounds the number of rounds. *)
Fixpoint OnDetached_loop (fuel : nat) (g : GDBStub) : GDBStub :=
  match fuel with
  | O => g
  | S k =>
      match all_breakpoints (breakpoints (cache_ g)) with
      | [] => g
      | front :: _ => OnDetached_loop k (DeleteCodeBreakpoint_ptr (bp_handle front) g)
      end
  end.

(** [GDBStub::OnDetached()]: every round removes the front breakpoint, so
    as many rounds as there are breakpoints empty the vector. *)
Definition OnDetached (p : Processor) (g : GDBStub) : option GDBStub :=
  c ← UpdateCache p (cache_ g);
  let g := set_cache c g in
  Some (OnDetached_loop (length (all_breakpoints (breakpoints (cache_ g)))) g).

(** ** Library string functions used by the handlers *)

Fixpoint find_char (c : ascii) (s : string) : option nat :=
  match s with
  | EmptyString => None
  | String d s' => if Ascii.eqb d c then Some O else S <$> find_char c s'
  end.

Fixpoint drop_str (n : nat) (s : string) : string :=
  match n, s with
  | S n', String _ s' => drop_str n' s'
  | _, _ => s
  end.

Fixpoint take_str (n : nat) (s : string) : string :=
  match n, s with
  | S n', String c s' => String c (take_str n' s')
  | _, _ => EmptyString
  end.

(** [s.substr(pos)]: throws when [pos] is beyond the end. *)
Definition substr_from (pos : nat) (s : string) : option string :=
  if (pos <=? String.length s)%nat then Some (drop_str pos s) else None.

(** [s.substr(0, n)] where [n] is the result of a [find] ([None] for
    [npos]). *)
Definition substr_to (n : option nat) (s : string) : string :=
  match n with
  | None => s
  | Some k => take_str k s
  end.

(** [s.substr(n + 1)] where [n] is the result of a [find]; [npos + 1]
    wraps to 0. *)
Definition substr_after (n : option nat) (s : string) : string :=
  match n with
  | None => s
  | Some k => drop_str (S k) s
  end.

Definition is_space (c : ascii) : bool :=
  let v := byte_of c in (v =? 32) || ((9 <=? v) && (v <=? 13)).

Fixpoint skip_spaces (s : string) : string :=
  match s with
  | String c s' => if is_space c then skip_spaces s' else s
  | EmptyString => s
  end.

(** The scan shared by [strtol] and [strtoull] in base 16: blanks, a
    sign, an optional [0x], digits.  [None] when no digit is found (the
    [std::sto*] functions then throw). *)
Definition strto_scan (s : string) : option (bool * Z) :=
  let s := skip_spaces s in
  let '(neg, s) :=
    match s with
    | String c s' =>
        if Ascii.eqb c "-" then (true, s')
        else if Ascii.eqb c "+" then (false, s') else (false, s)
    | EmptyString => (false, s)
    end in
  let s :=
    match s with
    | String c0 (String x (String d s')) =>
        if Ascii.eqb c0 "0" && (Ascii.eqb x "x" || Ascii.eqb x "X") && is_hexchar d
        then String d s' else s
    | _ => s
    end in
  let ds := take_hex s in
  if (String.length ds =? 0)%nat then None else Some (neg, hex_value ds).

(** [std::stoull(s, nullptr, 16)] *)
Definition stoull16 (s : string) : option Z :=
  '(neg, v) ← strto_scan s;
  if v <? 2 ^ 64 then Some (to_uint64 (if neg : bool then - v else v)) else None.

(** Width of [long]: 32 bits on the Windows target of the emulator. *)
Definition long_bits : Z := 32.

(** [std::stol(s, 0, 16)] *)
Definition stol16 (s : string) : option Z :=
  '(neg, v) ← strto_scan s;
  let x := if neg : bool then - v else v in
  if (- 2 ^ (long_bits - 1) <=? x) && (x <? 2 ^ (long_bits - 1)) then Some x else None.

(** ** Replies built by the handlers *)

(** [GDBStub::ReadMemory(data)] *)
Fixpoint ReadMemory_loop (m : Memory) (len : nat) (mem : Z) (result : string)
    : option string :=
  match len with
  | O => Some result
  | S len' =>
      b ← host_byte m mem;
      ReadMemory_loop m len' (mem + 1) (result +:+ to_hexbyte (to_uint8 b))
  end.

Definition ReadMemory (p : Processor) (data : string) : option string :=
  let s := find_char "," data in
  addr ← hex_to_u32 (substr_to s data);
  len ← hex_to_u32 (substr_after s data);
  match LookupHeap (memory p) addr with
  | None => Some kGdbReplyError
  | Some heap =>
      match QueryProtect (memory p) heap addr with
      | None => Some kGdbReplyError
      | Some protect =>
          if negb (Z.land protect (kMemoryProtectRead (memory p))
                   =? kMemoryProtectRead (memory p))
          then Some kGdbReplyError
          else
            let mem := TranslateVirtual (memory p) addr in
            result ← ReadMemory_loop (memory p) (Z.to_nat len) mem "";
            if negb (len =? 0) && (String.length result =? 0)%nat
            then Some kGdbReplyError
            else Some result
      end
  end.

Definition dq : string := str1 "034"%char.
Definition nl : string := str1 "010"%char.

Definition xml_attr (a : string * string) : string :=
  " " +:+ fst a +:+ "=" +:+ dq +:+ snd a +:+ dq.

Definition xml_reg (attrs : list (string * string)) : string :=
  "  <reg" +:+ String.concat "" (map xml_attr attrs) +:+ "/>" +:+ nl.

Definition xml_gpr (i : nat) : string :=
  xml_reg [("name", "r" +:+ to_string (Z.of_nat i)); ("bitsize", "32"); ("type", "uint32")].

Definition xml_fpr (i : nat) : string :=
  xml_reg ([("name", "f" +:+ to_string (Z.of_nat i)); ("bitsize", "64");
            ("type", "ieee_double")]
           ++ (if (i =? 0)%nat then [("regnum", "32")] else [])).

(** [target_xml] *)
Definition target_xml : string :=
  "l<?xml version=" +:+ dq +:+ "1.0" +:+ dq +:+ "?>" +:+ nl
  +:+ "<!DOCTYPE target SYSTEM " +:+ dq +:+ "gdb-target.dtd" +:+ dq +:+ ">" +:+ nl
  +:+ "<target version=" +:+ dq +:+ "1.0" +:+ dq +:+ ">" +:+ nl
  +:+ "<feature name=" +:+ dq +:+ "org.gnu.gdb.power.core" +:+ dq +:+ ">" +:+ nl
  +:+ String.concat "" (map xml_gpr (seq 0 32))
  +:+ nl
  +:+ xml_reg [("name", "pc"); ("bitsize", "32"); ("type", "code_ptr"); ("regnum", "64")]
  +:+ xml_reg [("name", "msr"); ("bitsize", "32"); ("type", "uint32")]
  +:+ xml_reg [("name", "cr"); ("bitsize", "32"); ("type", "uint32")]
  +:+ xml_reg [("name", "lr"); ("bitsize", "32"); ("type", "code_ptr")]
  +:+ xml_reg [("name", "ctr"); ("bitsize", "32"); ("type", "uint32")]
  +:+ xml_reg [("name", "xer"); ("bitsize", "32"); ("type", "uint32")]
  +:+ "</feature>" +:+ nl
  +:+ "<feature name=" +:+ dq +:+ "org.gnu.gdb.power.fpu" +:+ dq +:+ ">" +:+ nl
  +:+ String.concat "" (map xml_fpr (seq 0 32))
  +:+ nl
  +:+ xml_reg [("name", "fpscr"); ("bitsize", "32"); ("group", "float"); ("regnum", "70")]
  +:+ "</feature>" +:+ nl
  +:+ "</target>" +:+ nl.

Definition BuildTargetXml : string := target_xml.

(** [GDBStub::BuildThreadList()] *)
Definition BuildThreadList (c : EmulatorStateCache) : string :=
  fold_left
    (fun buffer thread =>
       buffer +:+ "<thread id=" +:+ dq +:+ hex_plain (thread_id thread) +:+ dq
         +:+ " name=" +:+ dq +:+ thread_name thread +:+ dq +:+ "></thread>")
    (thread_debug_infos c)
    ("l<?xml version=" +:+ dq +:+ "1.0" +:+ dq +:+ "?>" +:+ "<threads>")
  +:+ "</threads>".

(** ** The command dispatcher *)

(** The [qfThreadInfo] handler. *)
Definition thread_id_list (c : EmulatorStateCache) : string :=
  fold_left
    (fun result thread =>
       (if negb (String.length result =? 0)%nat then result +:+ "," else result)
         +:+ to_string (thread_id thread))
    (thread_debug_infos c) "".

(** The [H] handler. *)
Definition SetThreadId (data : string) (c : EmulatorStateCache) : option EmulatorStateCache :=
  let c :=
    set_cur_thread_id
      (match thread_debug_infos c with
       | t0 :: _ => thread_id t0
       | [] => absent32
       end) c in
  arg ← substr_from 1 data;
  threadId ← stol16 arg;
  if existsb (fun t => thread_id t =? to_uint32 threadId) (thread_debug_infos c)
  then Some (set_cur_thread_id (to_uint32 threadId) c)
  else Some c.

(** The address argument of [Z] and [z]. *)
Definition breakpoint_address (data : string) : option Z :=
  hex_addr ← substr_from 2 data;
  stoull16 (substr_to (find_char "," hex_addr) hex_addr).

(** The [qXfer] handler. *)
Definition Xfer (data : string) (c : EmulatorStateCache) : string :=
  let param :=
    match data with
    | String c0 rest => if Ascii.eqb c0 ":" then rest else data
    | EmptyString => data
    end in
  let sub_cmd := substr_to (find_char ":" param) param in
  if String.eqb sub_cmd "features" then BuildTargetXml
  else if String.eqb sub_cmd "threads" then BuildThreadList c
  else kGdbReplyError.

Definition with_cache (g : GDBStub) (rc : option (string * EmulatorStateCache))
    : option (string * GDBStub) :=
  '(reply, c) ← rc; Some (reply, set_cache c g).

(** [GDBStub::HandleGDBCommand(command)]: the reply and the stub after the
    handler has run. *)
Definition HandleGDBCommand (p : Processor) (command : GDBCommand) (g : GDBStub)
    : option (string * GDBStub) :=
  let name := cmd command in
  let c := cache_ g in
  if String.eqb name "?" then Some ("S05", g)
  else if String.eqb name "D" then Some (DebuggerDetached p g)
  else if String.eqb name "!" then Some (kGdbReplyOK, g)
  else if String.eqb name "C" then Some (ExecutionContinue g)
  else if String.eqb name "c" then Some (ExecutionContinue g)
  else if String.eqb name "s" then Some (ExecutionStep g)
  else if String.eqb name (str1 GdbStubControl.Interrupt) then Some (ExecutionPause g)
  else if String.eqb name "m" then reply ← ReadMemory p (data command); Some (reply, g)
  else if String.eqb name "p" then with_cache g (ReadRegister_cmd (data command) c)
  else if String.eqb name "P" then Some (kGdbReplyOK, g)
  else if String.eqb name "g" then with_cache g (ReadRegisters c)
  else if String.eqb name "vAttach" then Some ("S05", g)
  else if String.eqb name "qC" then
    t ← cur_thread_info c; Some ("QC" +:+ to_string (thread_id t), g)
  else if String.eqb name "H" then
    c' ← SetThreadId (data command) c; Some (kGdbReplyOK, set_cache c' g)
  else if String.eqb name "Z" then
    addr ← breakpoint_address (data command);
    '(ok, g') ← CreateCodeBreakpoint addr (ForEachHostAddress p (to_uint32 addr)) g;
    Some (if ok : bool then kGdbReplyOK else kGdbReplyError, g')
  else if String.eqb name "z" then
    addr ← breakpoint_address (data command);
    Some (kGdbReplyOK, DeleteCodeBreakpoint addr g)
  else if String.eqb name "qXfer" then Some (Xfer (data command) c, g)
  else if String.eqb name "qSupported" then
    Some ("PacketSize=1024;qXfer:features:read+;qXfer:threads:read+", g)
  else if String.eqb name "qfThreadInfo" then Some ("m" +:+ thread_id_list c, g)
  else Some ("", g).

(** ** The receiver *)

(** How a computation ends: with a result, in undefined behaviour or an
    escaping exception, or (for the model of a loop) out of fuel. *)
Inductive Outcome (A : Type) : Type :=
  | Returns (a : A)
  | Undefined
  | OutOfFuel.
Arguments Returns {A} a.
Arguments Undefined {A}.
Arguments OutOfFuel {A}.

(** What [client->Receive] hands back. *)
Inductive RecvResult : Type :=
  | RecvError
  | RecvBytes (buffer : string).

(** What one call of [ProcessIncomingData] leaves behind: the packets it
    handed to [ParsePacket] (in order; kept for the statements below, the
    code does not store them), the receive buffer, and the stub. *)
Record Incoming : Type := mkIncoming {
  extracted : list string;
  unread : string;
  stub : GDBStub
}.

(** What the receiver does with a packet that parsed: acknowledge, run
    the handler, send the reply.  Returns the reply body as well. *)
Definition dispatch (p : Processor) (command : GDBCommand) (g : GDBStub)
    : option (string * GDBStub) :=
  let g := Send (str1 GdbStubControl.Ack) g in
  '(response, g) ← HandleGDBCommand p command g;
  Some (response, Send (SendPacket response) g).

(** The [while] loop of [ProcessIncomingData]. *)
Fixpoint ProcessIncomingData_loop (fuel : nat) (p : Processor) (isInterrupt : bool)
    (st : Incoming) : Outcome Incoming :=
  match fuel with
  | O => OutOfFuel
  | S fuel' =>
      let buf := unread st in
      let packet_end := find_char GdbStubControl.PacketEnd buf in
      if isInterrupt || bool_decide (is_Some packet_end) then
        if isInterrupt
           || match packet_end with
              | Some e => (e + 2 <? String.length buf)%nat
              | None => false
              end
        then
          let '(current_packet, buf') :=
            if isInterrupt then (str1 GdbStubControl.Interrupt, "")
            else (take_str (default O packet_end + 3) buf,
                  drop_str (default O packet_end + 3) buf) in
          let '(ok, command) := ParsePacket current_packet empty_command in
          let next (g : GDBStub) :=
            ProcessIncomingData_loop fuel' p false
              (mkIncoming (extracted st ++ [current_packet]) buf' g) in
          if ok then
            match dispatch p command (stub st) with
            | Some (_, g) => next g
            | None => Undefined
            end
          else next (Send (str1 GdbStubControl.Nack) (stub st))
        else Returns st
      else Returns st
  end.

(** [GDBStub::ProcessIncomingData(client, receive_buffer)]: the returned
    flag and what is left behind.  Every round but an interrupt round
    takes at least three bytes off the buffer, so the fuel given here is
    never used up. *)
Definition ProcessIncomingData (p : Processor) (received : RecvResult)
    (receive_buffer : string) (g : GDBStub) : Outcome (bool * Incoming) :=
  match received with
  | RecvError | RecvBytes EmptyString => Returns (false, mkIncoming [] receive_buffer g)
  | RecvBytes (String b0 _ as buffer) =>
      let receive_buffer := receive_buffer +:+ buffer in
      let isInterrupt :=
        Ascii.eqb b0 GdbStubControl.Interrupt && (String.length buffer =? 1)%nat in
      match ProcessIncomingData_loop (S (S (String.length receive_buffer))) p isInterrupt
              (mkIncoming [] receive_buffer g) with
      | Returns st => Returns (true, st)
      | Undefined => Undefined
      | OutOfFuel => OutOfFuel
      end
  end.

(** One round of the [while (!stop_thread_)] loop of [GDBStub::Listen] on
    a connected client. *)
Definition Listen_round (p : Processor) (received : RecvResult)
    (receive_buffer : string) (g : GDBStub) : Outcome (string * GDBStub) :=
  match ProcessIncomingData p received receive_buffer g with
  | Returns (_, st) => Returns (unread st, Listen_notify (stub st))
  | Undefined => Undefined
  | OutOfFuel => OutOfFuel
  end.

(** * Notions used in the statements *)

(** The width of the encoding of register [rid]. *)
Definition reg_width (rid : Z) : nat :=
  if (32 <=? rid) && (rid <=? 63) then 16%nat
  else if rid <=? 70 then 8%nat else 0%nat.

Fixpoint sum_widths (n : nat) (i : Z) : nat :=
  match n with
  | O => O
  | S n' => (reg_width i + sum_widths n' (i + 1))%nat
  end.

(** The keys of [command_map]. *)
Definition command_names : list string :=
  ["?"; "D"; "!"; "C"; "c"; "s"; str1 GdbStubControl.Interrupt; "m"; "p"; "P"; "g";
   "vAttach"; "qC"; "H"; "Z"; "z"; "qXfer"; "qSupported"; "qfThreadInfo"].

(** The logical bytes a wire body stands for: [}] followed by [d] is the
    byte [d xor 0x20]. *)
Fixpoint unescape (body : string) : string :=
  match body with
  | EmptyString => EmptyString
  | String c rest =>
      if Ascii.eqb c "}" then
        match rest with
        | EmptyString => EmptyString
        | String d rest' => String (char_of (Z.lxor (byte_of d) 32)) (unescape rest')
        end
      else String c (unescape rest)
  end.

Definition ends_body (c : ascii) : bool :=
  Ascii.eqb c NUL || Ascii.eqb c GdbStubControl.PacketEnd.

(** A wire body the loop walks to its end: no byte 0, no [#], and no [}]
    as its last byte. *)
Fixpoint wire_body_ok (body : string) : bool :=
  match body with
  | EmptyString => true
  | String c rest =>
      negb (ends_body c)
      && if Ascii.eqb c "}" then
           match rest with
           | EmptyString => false
           | String d rest' => negb (ends_body d) && wire_body_ok rest'
           end
         else wire_body_ok rest
  end.

(** The checksum the loop accumulates over a wire body, starting from
    [acc]: a plain byte adds itself, an escape pair adds [}] and then the
    byte after the xor. *)
Fixpoint receiver_sum (body : string) (acc : Z) : Z :=
  match body with
  | EmptyString => acc
  | String c rest =>
      if Ascii.eqb c "}" then
        match rest with
        | EmptyString => acc
        | String d rest' =>
            receiver_sum rest'
              ((((acc + byte_of c) mod 256)
                + byte_of (char_of (Z.lxor (byte_of d) 32))) mod 256)
        end
      else receiver_sum rest ((acc + byte_of c) mod 256)
  end.

Definition with_checksum (v : Z) (st : ParseState) : ParseState :=
  mkParseState (ps_cmd st) (ps_data st) (ps_cmd_part st) v.

Definition store_all (logical : string) (st : ParseState) : ParseState :=
  fold_left (fun st c => parse_store c st) (list_ascii_of_string logical) st.

(** The part of the logical body before its first splitter, and the part
    from that splitter on. *)
Fixpoint before_splitter (s : string) : string :=
  match s with
  | EmptyString => EmptyString
  | String c rest => if is_splitter c then EmptyString else String c (before_splitter rest)
  end.

Fixpoint from_splitter (s : string) : string :=
  match s with
  | EmptyString => EmptyString
  | String c rest => if is_splitter c then s else from_splitter rest
  end.

Definition parse_start : ParseState := mkParseState "" "" true 0.

Fixpoint no_splitter (s : string) : bool :=
  match s with
  | EmptyString => true
  | String c rest => negb (is_splitter c) && no_splitter rest
  end.

(** The sender's side of the escape round trip.  The stub never escapes
    what it sends, so this follows the protocol description: a reserved
    byte ([$], [#] or [}]) goes on the wire as [}] followed by the byte
    xor 0x20, and the checksum is the sum of the bytes on the wire. *)
Definition is_reserved (c : ascii) : bool :=
  Ascii.eqb c "$" || Ascii.eqb c "#" || Ascii.eqb c "}".

Fixpoint spec_escape_encode (body : string) : string :=
  match body with
  | EmptyString => EmptyString
  | String c rest =>
      if is_reserved c
      then String "}" (String (char_of (Z.lxor (byte_of c) 32)) (spec_escape_encode rest))
      else String c (spec_escape_encode rest)
  end.

Definition spec_sender_packet (body : string) : string :=
  String GdbStubControl.PacketStart
    (spec_escape_encode body
       +:+ String GdbStubControl.PacketEnd (hex02 (sum_bytes (spec_escape_encode body)))).

Fixpoint count_reserved (body : string) : Z :=
  match body with
  | EmptyString => 0
  | String c rest => (if is_reserved c then 1 else 0) + count_reserved rest
  end.

Fixpoint no_nul (s : string) : bool :=
  match s with
  | EmptyString => true
  | String c rest => negb (Ascii.eqb c NUL) && no_nul rest
  end.

(** The sum of the bytes of a string, not reduced. *)
Fixpoint plain_sum (s : string) : Z :=
  match s with
  | EmptyString => 0
  | String c rest => byte_of c + plain_sum rest
  end.

(** The two hex digits that follow the first [#] of a packet, as a byte,
    and the bytes between the leading [$] and that [#]. *)
Definition transmitted_checksum (packet : string) : Z :=
  fst (ReadHexByteFromBuffer (substr_after (find_char GdbStubControl.PacketEnd packet) packet)).

Definition packet_body (packet : string) : string :=
  drop_str 1 (substr_to (find_char GdbStubControl.PacketEnd packet) packet).

(** The bytes of a list of packets, in order. *)
Definition join (packets : list string) : string :=
  fold_right String.append "" packets.

(** The stub after the interrupt command has been acknowledged, run and
    answered. *)
Definition after_interrupt (g : GDBStub) : GDBStub :=
  Send (SendPacket kGdbReplyOK)
    (call_processor CallPause (Send (str1 GdbStubControl.Ack) g)).

(** The operations on the registry: Insert, Remove, and the two ways all
    breakpoints are removed ([DebuggerDetached] for the [D] command and
    the loop of [OnDetached]). *)
Inductive RegistryOp : Type :=
  | OpInsert (address : Z) (hosts : list Z)
  | OpRemove (address : Z)
  | OpRemoveAll (p : Processor)
  | OpDetach.

Definition run_op (op : RegistryOp) (g : GDBStub) : option GDBStub :=
  match op with
  | OpInsert a hosts => snd <$> CreateCodeBreakpoint a hosts g
  | OpRemove a => Some (DeleteCodeBreakpoint a g)
  | OpRemoveAll p => Some (snd (DebuggerDetached p g))
  | OpDetach =>
      Some (OnDetached_loop (length (all_breakpoints (breakpoints (cache_ g)))) g)
  end.

Fixpoint run_ops (ops : list RegistryOp) (g : GDBStub) : option GDBStub :=
  match ops with
  | [] => Some g
  | op :: ops' => g' ← run_op op g; run_ops ops' g'
  end.

Definition registry (g : GDBStub) : BreakpointState := breakpoints (cache_ g).

(** Two breakpoints share a host address. *)
Definition hosts_overlap (b1 b2 : Breakpoint) : Prop :=
  exists a, In a (host_addresses b1) /\ In a (host_addresses b2).

(** P1: two different entries of the registry differ in their guest
    address and share no host address. *)
Definition entries_distinct (s : BreakpointState) : Prop :=
  forall i j b1 b2,
    all_breakpoints s !! i = Some b1 -> all_breakpoints s !! j = Some b2 -> i <> j ->
    guest_address b1 <> guest_address b2 /\ ~ hosts_overlap b1 b2.

(** The map holds exactly the registered breakpoints, under their guest
    addresses. *)
Definition map_matches (s : BreakpointState) : Prop :=
  forall k h,
    code_breakpoints_by_guest_address s !! k = Some h
    <-> exists b, In b (all_breakpoints s) /\ bp_handle b = h /\ guest_address b = k.

(** A breakpoint built for [address] with host addresses [hosts] would
    collide with a registered one. *)
Definition collides (s : BreakpointState) (address : Z) (hosts : list Z) : Prop :=
  exists b,
    In b (all_breakpoints s)
    /\ (guest_address b = to_uint32 (to_uint64 address)
        \/ exists a, In a hosts /\ In a (host_addresses b)).

(** What the proofs carry along: live objects are distinct and older than
    the next one, and the two properties above. *)
Definition registry_ok (g : GDBStub) : Prop :=
  NoDup (map bp_handle (all_breakpoints (registry g)))
  /\ (forall b, In b (all_breakpoints (registry g)) -> (bp_handle b < next_handle g)%nat)
  /\ map_matches (registry g)
  /\ (forall b1 b2,
        In b1 (all_breakpoints (registry g)) -> In b2 (all_breakpoints (registry g)) ->
        bp_handle b1 <> bp_handle b2 ->
        guest_address b1 <> guest_address b2 /\ ~ hosts_overlap b1 b2).

(** What the session does between two Processor events: a pass through
    the notification block of [Listen], or a command it dispatches (with
    what the Processor answers at that moment). *)
Inductive Activity : Type :=
  | ListenNotify
  | Command (p : Processor) (command : GDBCommand).

Definition step (a : Activity) (g : GDBStub) : option GDBStub :=
  match a with
  | ListenNotify => Some (Listen_notify g)
  | Command p command => snd <$> dispatch p command g
  end.

Fixpoint run_session (acts : list Activity) (g : GDBStub) : option GDBStub :=
  match acts with
  | [] => Some g
  | a :: acts' => g' ← step a g; run_session acts' g'
  end.



(** The commands that read register 64: [g], and [p] with the register
    number 64 (written [40]). *)
Definition is_pc_read (command : GDBCommand) : bool :=
  String.eqb (cmd command) "g"
  || (String.eqb (cmd command) "p"
      && match hex_to_u32 (data command) with
         | Some rid => rid =? 64
         | None => false
         end).


(** Where the reply to a read of register 64 carries the PC: all of the
    reply to [p], the eight characters behind the 32 GPRs and 32 FPRs in
    the reply to [g]. *)
Definition pc_of_reply (command : GDBCommand) (reply : string) : string :=
  if String.eqb (cmd command) "g" then take_str 8 (drop_str (32 * 8 + 32 * 16) reply)
  else reply.



(** * Sample values *)

Definition test_thread : ThreadDebugInfo :=
  mkThreadDebugInfo 7 "main"
    (mkPPCContext (fun i => i) (fun i => i) 2181038080 0 0)
    [mkStackFrame 0; mkStackFrame 8192].

Definition test_memory : Memory :=
  mkMemory (fun a => if a <? 65536 then Some O else None) (fun _ _ => Some 1)
    (fun a => a) (fun _ => Some 171) 1.

Definition test_processor : Processor :=
  mkProcessor kPaused [test_thread] [] (fun a => [a + 1000]) test_memory.

Definition test_stub : GDBStub :=
  set_cache (set_cur_thread_id 7 (set_thread_debug_infos [test_thread] initial_cache))
    initial_stub.

Definition thread_numbered (id : Z) : ThreadDebugInfo :=
  mkThreadDebugInfo id "worker" (mkPPCContext (fun _ => 0) (fun _ => 0) 0 0 0) [].

Definition two_thread_processor : Processor :=
  mkProcessor kPaused [thread_numbered 1; thread_numbered 2] []
    (fun _ => []) test_memory.

(** A packet with a byte 0 in its body: [$?], the byte 0, [3f#00]. *)
Definition nul_packet : string := "$?" +:+ String NUL "3f#00".

(** A breakpoint at the guest address 0x1000, and one whose 64-bit
    address is the value the cache keeps for "absent". *)
Definition test_breakpoint : Breakpoint := mkBreakpoint 0 4096 [140000].
Definition sentinel_breakpoint : Breakpoint := mkBreakpoint 0 absent64 [].

Definition read_pc_command : GDBCommand := mkGDBCommand "p" "40" 212.

(** The stub right after [OnBreakpointHit] for [test_breakpoint] on
    [test_thread], starting from [test_stub]. *)
Definition stub_after_hit : GDBStub :=
  match OnBreakpointHit test_processor test_breakpoint test_thread (cache_ test_stub) with
  | Some c1 => set_cache c1 test_stub
  | None => test_stub
  end.

(** * Tactics *)

(** Case analysis on the integer comparisons of the goal. *)
Ltac case_Zb :=
  repeat match goal with
  | |- context [?a =? ?b] => destruct (Z.eqb_spec a b)
  | |- context [?a <? ?b] => destruct (Z.ltb_spec a b)
  | |- context [?a <=? ?b] => destruct (Z.leb_spec a b)
  | |- _ => progress cbn [negb andb orb]
  | |- _ => progress cbv beta iota
  end.

(** * Further notions *)

(** Every character of the string is a hex digit. *)
Fixpoint all_hex (s : string) : bool :=
  match s with
  | EmptyString => true
  | String c rest => is_hexchar c && all_hex rest
  end.

(** A body that needs no escape and holds no byte 0. *)
Fixpoint plain_body (s : string) : bool :=
  match s with
  | EmptyString => true
  | String c rest =>
      negb (Ascii.eqb c NUL) && negb (Ascii.eqb c "#") && negb (Ascii.eqb c "}")
      && plain_body rest
  end.

(** The receive buffer holds a whole packet: a [#] with at least two bytes
    behind it (the test of the loop of [ProcessIncomingData]). *)
Definition has_packet (buf : string) : bool :=
  match find_char GdbStubControl.PacketEnd buf with
  | Some e => (e + 2 <? String.length buf)%nat
  | None => false
  end.

(** What the receiver does with one extracted packet, and with a list of
    them in order. *)
Definition react (p : Processor) (packet : string) (g : GDBStub) : option GDBStub :=
  if fst (ParsePacket packet empty_command)
  then snd <$> dispatch p (snd (ParsePacket packet empty_command)) g
  else Some (Send (str1 GdbStubControl.Nack) g).

Fixpoint react_all (p : Processor) (packets : list string) (g : GDBStub) : option GDBStub :=
  match packets with
  | [] => Some g
  | packet :: rest => g' ← react p packet g; react_all p rest g'
  end.

(** The hex text of [n] bytes of host memory from [mem] on, [bytes]
    giving the byte behind each host pointer. *)
Fixpoint hexdump (bytes : Z -> Z) (n : nat) (mem : Z) : string :=
  match n with
  | O => ""
  | S k => to_hexbyte (to_uint8 (bytes mem)) +:+ hexdump bytes k (mem + 1)
  end.

(** The breakpoints installed with the Processor after the calls made so
    far: [AddBreakpoint] installs one, [RemoveBreakpoint] takes it out. *)
Definition installed_after (handles : list nat) (call : ProcCall) : list nat :=
  match call with
  | CallAddBreakpoint h => handles ++ [h]
  | CallRemoveBreakpoint h => List.filter (fun x => negb (x =? h)%nat) handles
  | _ => handles
  end.

Definition installed (calls : list ProcCall) : list nat :=
  fold_left installed_after calls [].

(** A fresh stub after one breakpoint has been inserted at 0x82000000. *)
Definition stub_with_breakpoint : GDBStub :=
  match run_ops [OpInsert 2181038080 [140000]] initial_stub with
  | Some g => g
  | None => initial_stub
  end.

(** The body of a stop reply [T05] for a thread: register 64 (PC) and
    register 67 (LR) as eight hex digits each, and the thread id. *)
Definition stop_reply (pc_value lr_value tid : Z) : string :=
  "T0540:" +:+ u32_to_padded_hex pc_value +:+ ";43:" +:+ u32_to_padded_hex lr_value
    +:+ ";thread:" +:+ hex_plain tid +:+ ";".

(** The start of [GDBStub::Listen] for a client that has just connected:
    [ExecutionPause] and [UpdateCache], before the first round.  [p] is what
    the Processor answers after the call of [Pause]. *)
Definition Listen_start (p : Processor) (g : GDBStub) : option GDBStub :=
  let g := snd (ExecutionPause g) in
  c ← UpdateCache p (cache_ g);
  Some (set_cache c g).

(** Items separated by commas. *)
Fixpoint comma_join (items : list string) : string :=
  match items with
  | [] => ""
  | s :: rest =>
      match rest with
      | [] => s
      | _ :: _ => s +:+ "," +:+ comma_join rest
      end
  end.


(** * Properties *)

(** ** Worked packets *)

Example SendPacket_OK : SendPacket "OK" = "$OK#9a".
Proof. reflexivity. Qed.

Example SendPacket_E01 : SendPacket "E01" = "$E01#a6".
Proof. reflexivity. Qed.

Example ParsePacket_qSupported :
  ParsePacket "+$qSupported:xyz#dc" empty_command
  = (true, mkGDBCommand "qSupported" ":xyz" 220).
Proof. vm_compute. reflexivity. Qed.

(** ** Strings *)

Lemma str_length_app (a b : string) :
  String.length (a +:+ b) = (String.length a + String.length b)%nat.
Proof. induction a as [|c a IH]; simpl; [reflexivity | now rewrite IH]. Qed.

Lemma str_app_cons (x : ascii) (a b : string) : String x a +:+ b = String x (a +:+ b).
Proof. reflexivity. Qed.

Lemma str_app_nil_l (a : string) : "" +:+ a = a.
Proof. reflexivity. Qed.

Lemma str_app_assoc (a b c : string) : (a +:+ b) +:+ c = a +:+ (b +:+ c).
Proof.
  induction a as [|x a IH]; [reflexivity|].
  rewrite !str_app_cons. f_equal. exact IH.
Qed.

Lemma str_app_nil_r (a : string) : a +:+ "" = a.
Proof.
  induction a as [|x a IH]; [reflexivity|].
  rewrite str_app_cons. f_equal. exact IH.
Qed.

Lemma replicate_char_length (n : nat) (c : ascii) :
  String.length (replicate_char n c) = n.
Proof. induction n; simpl; [reflexivity | now rewrite IHn]. Qed.

Lemma take_drop_str (n : nat) (s : string) : take_str n s +:+ drop_str n s = s.
Proof.
  revert s; induction n as [|n IH]; intros [|c s]; simpl; try reflexivity.
  rewrite str_app_cons. f_equal. apply IH.
Qed.

Lemma take_str_length (n : nat) (s : string) :
  (n <= String.length s)%nat -> String.length (take_str n s) = n.
Proof.
  revert s; induction n as [|n IH]; intros [|c s]; simpl; intros H; try lia.
  rewrite IH; lia.
Qed.

Lemma drop_str_length (n : nat) (s : string) :
  String.length (drop_str n s) = (String.length s - n)%nat.
Proof.
  revert s; induction n as [|n IH]; intros [|c s]; simpl; try lia.
  apply IH.
Qed.

(** ** Width of the register encodings *)

Lemma digits_aux_length (fuel : nat) :
  forall (k : nat) (n : Z) (acc : string),
    (1 <= k)%nat -> 0 <= n < 16 ^ Z.of_nat k ->
    (String.length (digits_aux fuel 16 n acc) <= k + String.length acc)%nat.
Proof.
  induction fuel as [|fuel IH]; intros k n acc Hk Hn; simpl; [lia|].
  destruct (n / 16 =? 0) eqn:Hq; simpl; [lia|].
  apply Z.eqb_neq in Hq.
  destruct k as [|[|k]]; [lia | |].
  - exfalso. apply Hq. apply Z.div_small. simpl in Hn. lia.
  - specialize (IH (S k) (n / 16) (String (digit_char (n mod 16)) acc)).
    simpl String.length in IH.
    assert (0 <= n / 16 < 16 ^ Z.of_nat (S k)); [|lia].
    split; [apply Z.div_pos; lia|].
    apply Z.div_lt_upper_bound; [lia|].
    replace (Z.of_nat (S (S k))) with (Z.of_nat (S k) + 1) in Hn by lia.
    rewrite Z.pow_add_r in Hn by lia. lia.
Qed.

Lemma pad_left_length (w : nat) (c : ascii) (s : string) :
  (String.length s <= w)%nat -> String.length (pad_left w c s) = w.
Proof.
  intros H. unfold pad_left. rewrite str_length_app, replicate_char_length. lia.
Qed.

Lemma u32_to_padded_hex_length (v : Z) : String.length (u32_to_padded_hex v) = 8%nat.
Proof.
  unfold u32_to_padded_hex. apply pad_left_length.
  pose proof (digits_aux_length 64 8 (to_uint32 v) "" ltac:(lia)) as H.
  change (String.length "") with 0%nat in H.
  unfold digits. rewrite Nat.add_0_r in H. apply H.
  unfold to_uint32. change (16 ^ Z.of_nat 8) with (2 ^ 32).
  apply Z.mod_pos_bound. lia.
Qed.

Lemma u64_to_padded_hex_length (v : Z) : String.length (u64_to_padded_hex v) = 16%nat.
Proof.
  unfold u64_to_padded_hex. apply pad_left_length.
  pose proof (digits_aux_length 64 16 (to_uint64 v) "" ltac:(lia)) as H.
  change (String.length "") with 0%nat in H.
  unfold digits. rewrite Nat.add_0_r in H. apply H.
  unfold to_uint64. change (16 ^ Z.of_nat 16) with (2 ^ 64).
  apply Z.mod_pos_bound. lia.
Qed.

Lemma reg_width_cases (rid : Z) :
  (32 <= rid <= 63 /\ reg_width rid = 16%nat)
  \/ ((rid < 32 \/ 64 <= rid <= 70) /\ reg_width rid = 8%nat)
  \/ (70 < rid /\ reg_width rid = 0%nat).
Proof. unfold reg_width. case_Zb; lia. Qed.

Lemma ReadRegister_width (t : ThreadDebugInfo) (rid : Z) (c : EmulatorStateCache) :
  0 <= rid ->
  exists s c',
    ReadRegister (Some t) rid c = Some (s, c')
    /\ String.length s = reg_width rid
    /\ thread_debug_infos c' = thread_debug_infos c
    /\ cur_thread_id c' = cur_thread_id c.
Proof.
  intros Hrid.
  destruct (reg_width_cases rid) as [[Hr ->]|[[Hr ->]|[Hr ->]]];
    unfold ReadRegister; case_Zb; try lia;
    (eexists; eexists; split; [reflexivity|]);
    (split; [|split; reflexivity]);
    lazymatch goal with
    | |- String.length (u32_to_padded_hex _) = _ => apply u32_to_padded_hex_length
    | |- String.length (u64_to_padded_hex _) = _ => apply u64_to_padded_hex_length
    | |- String.length (replicate_char _ _) = _ => apply replicate_char_length
    | |- _ => reflexivity
    end.
Qed.

Lemma ReadRegisters_loop_length (t : ThreadDebugInfo) (n : nat) :
  forall (i : Z) (result : string) (c : EmulatorStateCache),
    0 <= i -> cur_thread_info c = Some t ->
    exists s c',
      ReadRegisters_loop n i result c = Some (s, c')
      /\ String.length s = (String.length result + sum_widths n i)%nat.
Proof.
  induction n as [|n IH]; intros i result c Hi Ht; simpl.
  - exists result, c. split; [reflexivity | lia].
  - rewrite Ht.
    destruct (ReadRegister_width t i c Hi) as (s & c' & Hr & Hl & Hth & Hcur).
    rewrite Hr. simpl.
    destruct (IH (i + 1) (result +:+ s) c') as (s' & c'' & Hloop & Hlen).
    + lia.
    + unfold cur_thread_info, thread_info in *. now rewrite Hth, Hcur.
    + exists s', c''. split; [exact Hloop|].
      rewrite Hlen, str_length_app, Hl. lia.
Qed.

(** C7. A [g] command run on a valid current thread replies with exactly
    32*8 + 32*16 + 7*8 = 824 characters: registers 0 to 70, each at its
    fixed width. *)
Theorem ReadRegisters_reply_length (p : Processor) (command : GDBCommand)
    (g : GDBStub) (t : ThreadDebugInfo) :
  cmd command = "g" ->
  cur_thread_info (cache_ g) = Some t ->
  exists reply g',
    HandleGDBCommand p command g = Some (reply, g')
    /\ String.length reply = (32 * 8 + 32 * 16 + 7 * 8)%nat
    /\ String.length reply = 824%nat.
Proof.
  intros Hcmd Ht.
  destruct (ReadRegisters_loop_length t 71 0 "" (cache_ g) ltac:(lia) Ht)
    as (s & c' & Hloop & Hlen).
  exists s, (set_cache c' g).
  unfold HandleGDBCommand. rewrite Hcmd. simpl.
  unfold ReadRegisters. rewrite Hloop. simpl.
  split; [reflexivity|]. rewrite Hlen. split; reflexivity.
Qed.

Lemma ReadRegisters_reply_length_witness :
  exists reply g',
    HandleGDBCommand test_processor (mkGDBCommand "g" "" 103) test_stub = Some (reply, g')
    /\ String.length reply = (32 * 8 + 32 * 16 + 7 * 8)%nat
    /\ String.length reply = 824%nat.
Proof.
  apply (ReadRegisters_reply_length test_processor (mkGDBCommand "g" "" 103)
           test_stub test_thread); reflexivity.
Defined.

(** ** The cache refresh *)

Lemma UpdateCache_running (p : Processor) (c : EmulatorStateCache) :
  execution_state p = kRunning ->
  UpdateCache p c = Some (set_notify_stopped false (set_is_stopped false c)).
Proof. intros H. unfold UpdateCache. rewrite H. reflexivity. Qed.

Lemma UpdateCache_stopped (p : Processor) (c : EmulatorStateCache) :
  execution_state p <> kRunning ->
  UpdateCache p c
  = (t0 ← head (QueryThreadDebugInfos p);
     Some (set_cur_thread_id (thread_id t0)
             (set_thread_debug_infos (QueryThreadDebugInfos p)
                (set_modules (GetModules p)
                   (set_notify_stopped true (set_is_stopped true c)))))).
Proof.
  intros H. unfold UpdateCache.
  destruct (execution_state p); [congruence | reflexivity | reflexivity].
Qed.

(** C10. A refresh that sees the Processor not running indexes element 0
    of the thread list it has just queried, whatever the cache held: it is
    defined exactly when that list is non-empty, and then the access is in
    bounds and yields the first thread. *)
Theorem UpdateCache_indexes_first_thread (p : Processor) (c : EmulatorStateCache) :
  execution_state p <> kRunning ->
  (UpdateCache p c = None <-> QueryThreadDebugInfos p = [])
  /\ (forall t0 rest,
        QueryThreadDebugInfos p = t0 :: rest ->
        exists c',
          UpdateCache p c = Some c'
          /\ thread_debug_infos c' = t0 :: rest
          /\ cur_thread_id c' = thread_id t0).
Proof.
  intros H. rewrite (UpdateCache_stopped p c H). split.
  - destruct (QueryThreadDebugInfos p) as [|t0 rest]; simpl; split; congruence.
  - intros t0 rest ->. simpl. eexists. split; [reflexivity|]. split; reflexivity.
Qed.

Lemma UpdateCache_indexes_first_thread_witness :
  execution_state test_processor <> kRunning
  /\ (UpdateCache test_processor initial_cache = None
      <-> QueryThreadDebugInfos test_processor = [])
  /\ (forall t0 rest,
        QueryThreadDebugInfos test_processor = t0 :: rest ->
        exists c',
          UpdateCache test_processor initial_cache = Some c'
          /\ thread_debug_infos c' = t0 :: rest
          /\ cur_thread_id c' = thread_id t0).
Proof.
  assert (H : execution_state test_processor <> kRunning) by (simpl; congruence).
  split; [exact H|].
  exact (UpdateCache_indexes_first_thread test_processor initial_cache H).
Defined.

(** C8, as stated, fails: the focus is on thread 2, thread 2 is in the
    reloaded listing, and the refresh moves the focus to thread 1. *)
Lemma UpdateCache_moves_valid_focus :
  ~ (forall (p : Processor) (c c' : EmulatorStateCache),
       execution_state p = kPaused ->
       UpdateCache p c = Some c' ->
       (exists t, In t (thread_debug_infos c') /\ thread_id t = cur_thread_id c) ->
       cur_thread_id c' = cur_thread_id c).
Proof.
  intros H.
  specialize (H two_thread_processor (set_cur_thread_id 2 initial_cache)
                (set_cur_thread_id 1
                   (set_thread_debug_infos [thread_numbered 1; thread_numbered 2]
                      (set_notify_stopped true
                         (set_is_stopped true (set_cur_thread_id 2 initial_cache)))))
                eq_refl eq_refl).
  assert (Hin : exists t,
             In t [thread_numbered 1; thread_numbered 2] /\ thread_id t = 2).
  { exists (thread_numbered 2). split; [right; left; reflexivity | reflexivity]. }
  specialize (H Hin). discriminate H.
Qed.

(** C8, amended. A refresh made while the Processor is paused sets
    [cur_thread_id] to the first thread of the reloaded listing whether or
    not the old value names a thread of that listing; a refresh made while
    the Processor runs leaves [cur_thread_id] and the listing alone. *)
Theorem UpdateCache_focus (p : Processor) (c : EmulatorStateCache) :
  (execution_state p = kPaused ->
   forall t0 rest,
     QueryThreadDebugInfos p = t0 :: rest ->
     exists c',
       UpdateCache p c = Some c' /\ cur_thread_id c' = thread_id t0)
  /\ (execution_state p = kRunning ->
      exists c',
        UpdateCache p c = Some c'
        /\ cur_thread_id c' = cur_thread_id c
        /\ thread_debug_infos c' = thread_debug_infos c).
Proof.
  split.
  - intros Hp t0 rest Hq.
    rewrite UpdateCache_stopped by congruence. rewrite Hq. simpl.
    eexists. split; reflexivity.
  - intros Hr. rewrite (UpdateCache_running p c Hr).
    eexists. split; [reflexivity|]. split; reflexivity.
Qed.

Lemma UpdateCache_focus_witness :
  execution_state two_thread_processor = kPaused
  /\ QueryThreadDebugInfos two_thread_processor = [thread_numbered 1; thread_numbered 2]
  /\ exists c',
       UpdateCache two_thread_processor (set_cur_thread_id 2 initial_cache) = Some c'
       /\ cur_thread_id c' = thread_id (thread_numbered 1).
Proof.
  split; [reflexivity|]. split; [reflexivity|].
  exact (proj1 (UpdateCache_focus two_thread_processor (set_cur_thread_id 2 initial_cache))
           eq_refl (thread_numbered 1) [thread_numbered 2] eq_refl).
Defined.

(** ** Memory reads of length zero *)

Lemma HandleGDBCommand_unknown (p : Processor) (command : GDBCommand) (g : GDBStub) :
  ~ In (cmd command) command_names ->
  HandleGDBCommand p command g = Some ("", g).
Proof.
  intros Hnot. unfold HandleGDBCommand.
  repeat match goal with
  | |- context [String.eqb (cmd command) ?k] =>
      destruct (String.eqb_spec (cmd command) k) as [Heq|_];
      [exfalso; apply Hnot; rewrite Heq; unfold command_names; simpl; tauto|]
  end.
  reflexivity.
Qed.

(** C9. An [m addr,len] command with [len] = 0 on an address in a mapped,
    readable heap replies with the empty string; wrapped for the wire it
    is the same bytes as the reply to a command the dispatcher does not
    know. *)
Theorem ReadMemory_zero_length_is_empty_packet (p : Processor) (command unknown : GDBCommand)
    (g : GDBStub) (addr : Z) (heap : nat) (protect : Z) :
  cmd command = "m" ->
  hex_to_u32 (substr_to (find_char "," (data command)) (data command)) = Some addr ->
  hex_to_u32 (substr_after (find_char "," (data command)) (data command)) = Some 0 ->
  LookupHeap (memory p) addr = Some heap ->
  QueryProtect (memory p) heap addr = Some protect ->
  Z.land protect (kMemoryProtectRead (memory p)) = kMemoryProtectRead (memory p) ->
  ~ In (cmd unknown) command_names ->
  exists reply reply',
    HandleGDBCommand p command g = Some (reply, g)
    /\ HandleGDBCommand p unknown g = Some (reply', g)
    /\ reply = ""
    /\ SendPacket reply = SendPacket reply'
    /\ SendPacket reply = "$#00".
Proof.
  intros Hcmd Haddr Hlen Hheap Hprot Hread Hunk.
  exists "", "". split; [|split; [|repeat split]].
  - unfold HandleGDBCommand. rewrite Hcmd. simpl.
    unfold ReadMemory. rewrite Haddr, Hlen. simpl.
    rewrite Hheap, Hprot, Hread, Z.eqb_refl. reflexivity.
  - apply HandleGDBCommand_unknown, Hunk.
Qed.

Lemma ReadMemory_zero_length_is_empty_packet_witness :
  exists reply reply',
    HandleGDBCommand test_processor (mkGDBCommand "m" "1000,0" 0) test_stub
    = Some (reply, test_stub)
    /\ HandleGDBCommand test_processor (mkGDBCommand "X" "1000,0:" 0) test_stub
       = Some (reply', test_stub)
    /\ reply = ""
    /\ SendPacket reply = SendPacket reply'
    /\ SendPacket reply = "$#00".
Proof.
  apply (ReadMemory_zero_length_is_empty_packet test_processor
           (mkGDBCommand "m" "1000,0" 0) (mkGDBCommand "X" "1000,0:" 0)
           test_stub 4096 O 1); try reflexivity.
  unfold command_names. simpl. intros H.
  repeat (destruct H as [H|H]; [discriminate H|]). exact H.
Defined.

(** ** The parser on a well-framed packet *)

Lemma parse_store_with_checksum (c : ascii) (v : Z) (st : ParseState) :
  parse_store c (with_checksum v st) = with_checksum v (parse_store c st).
Proof.
  unfold parse_store, with_checksum; simpl.
  destruct (ps_cmd_part st && is_splitter c); simpl; [reflexivity|].
  destruct (ps_cmd_part st); reflexivity.
Qed.

Lemma store_all_with_checksum (l : string) (v : Z) (st : ParseState) :
  store_all l (with_checksum v st) = with_checksum v (store_all l st).
Proof.
  unfold store_all. revert st.
  induction l as [|c l IH]; intros st; simpl; [reflexivity|].
  rewrite parse_store_with_checksum. apply IH.
Qed.

Lemma add_checksum_eq (c : ascii) (st : ParseState) :
  add_checksum c st = with_checksum ((ps_checksum st + byte_of c) mod 256) st.
Proof. reflexivity. Qed.

Lemma with_checksum_twice (v w : Z) (st : ParseState) :
  with_checksum v (with_checksum w st) = with_checksum v st.
Proof. reflexivity. Qed.

Lemma parse_store_checksum (c : ascii) (st : ParseState) :
  ps_checksum (parse_store c st) = ps_checksum st.
Proof.
  unfold parse_store.
  destruct (if ps_cmd_part st && is_splitter c then false else ps_cmd_part st);
    reflexivity.
Qed.

Lemma parse_loop_cons (c : ascii) (rest : string) (st : ParseState) :
  parse_loop (String c rest) st
  = if ends_body c then (st, rest)
    else if Ascii.eqb c "}" then
      match rest with
      | EmptyString =>
          parse_loop rest
            (parse_store (char_of (Z.lxor (byte_of NUL) 32))
               (add_checksum (char_of (Z.lxor (byte_of NUL) 32)) (add_checksum c st)))
      | String d rest2 =>
          parse_loop rest2
            (parse_store (char_of (Z.lxor (byte_of d) 32))
               (add_checksum (char_of (Z.lxor (byte_of d) 32)) (add_checksum c st)))
      end
    else parse_loop rest (parse_store c (add_checksum c st)).
Proof. reflexivity. Qed.

Lemma parse_loop_framed (n : nat) :
  forall (body tail : string) (st : ParseState),
    (String.length body <= n)%nat ->
    wire_body_ok body = true ->
    parse_loop (body +:+ String GdbStubControl.PacketEnd tail) st
    = (with_checksum (receiver_sum body (ps_checksum st)) (store_all (unescape body) st),
       tail).
Proof.
  induction n as [|n IH]; intros body tail st Hlen Hok.
  - destruct body; [|simpl in Hlen; lia]. destruct st; reflexivity.
  - destruct body as [|c body]; [destruct st; reflexivity|].
    rewrite str_app_cons, parse_loop_cons. simpl in Hok |- *.
    destruct (ends_body c); [discriminate Hok|]. simpl in Hok.
    destruct (Ascii.eqb c "}") eqn:Hc.
    + destruct body as [|d body]; [discriminate Hok|].
      rewrite str_app_cons.
      destruct (ends_body d); [discriminate Hok|]. simpl in Hok.
      rewrite IH by (simpl in Hlen |- *; (lia || exact Hok)).
      rewrite !add_checksum_eq, with_checksum_twice, parse_store_with_checksum.
      rewrite store_all_with_checksum, with_checksum_twice. reflexivity.
    + rewrite IH by (simpl in Hlen |- *; (lia || exact Hok)).
      rewrite !add_checksum_eq, parse_store_with_checksum.
      rewrite store_all_with_checksum, with_checksum_twice. reflexivity.
Qed.

Lemma before_from_splitter (s : string) : before_splitter s +:+ from_splitter s = s.
Proof.
  induction s as [|c s IH]; simpl; [reflexivity|].
  destruct (is_splitter c); [reflexivity|].
  rewrite str_app_cons. f_equal. exact IH.
Qed.

Lemma store_all_data (l : string) :
  forall st, ps_cmd_part st = false ->
    store_all l st = mkParseState (ps_cmd st) (ps_data st +:+ l) false (ps_checksum st).
Proof.
  unfold store_all.
  induction l as [|c l IH]; intros [cm da cp ck] Hcp; simpl in *; subst cp.
  - now rewrite str_app_nil_r.
  - rewrite IH by reflexivity. simpl.
    rewrite str_app_assoc. reflexivity.
Qed.

Lemma store_all_cmd (l : string) :
  forall st, ps_cmd_part st = true -> (1 <= String.length (ps_cmd st))%nat ->
    ps_cmd (store_all l st) = ps_cmd st +:+ before_splitter l
    /\ ps_data (store_all l st) = ps_data st +:+ from_splitter l.
Proof.
  unfold store_all.
  induction l as [|c l IH]; intros [cm da cp ck] Hcp Hlen; simpl in *; subst cp.
  - now rewrite !str_app_nil_r.
  - unfold parse_store at 2 4. simpl.
    destruct (is_splitter c) eqn:Hs; simpl.
    + pose proof (store_all_data l (mkParseState cm (da +:+ str1 c) false ck) eq_refl) as H.
      unfold store_all in H. rewrite H. simpl.
      rewrite str_app_nil_r, str_app_assoc. split; reflexivity.
    + replace (String.length (cm +:+ str1 c) =? 1)%nat with false.
      2:{ symmetry. apply Nat.eqb_neq. rewrite str_length_app. simpl. lia. }
      simpl.
      destruct (IH (mkParseState (cm +:+ str1 c) da true ck) eq_refl) as [H1 H2].
      { simpl. rewrite str_length_app. simpl. lia. }
      simpl in H1, H2. rewrite H1, H2, str_app_assoc. split; reflexivity.
Qed.

Lemma store_all_cons (c : ascii) (l : string) (st : ParseState) :
  store_all (String c l) st = store_all l (parse_store c st).
Proof. reflexivity. Qed.

(** The split of a logical body that starts with [q] or [v]. *)
Lemma store_all_q_v (c : ascii) (l : string) (ck : Z) :
  Ascii.eqb c "q" || Ascii.eqb c "v" = true ->
  ps_cmd (store_all (String c l) (mkParseState "" "" true ck))
  = before_splitter (String c l)
  /\ ps_data (store_all (String c l) (mkParseState "" "" true ck))
     = from_splitter (String c l).
Proof.
  intros Hqv.
  assert (Hs : is_splitter c = false).
  { unfold is_splitter.
    destruct (Ascii.eqb_spec c "q") as [->|]; [reflexivity|].
    destruct (Ascii.eqb_spec c "v") as [->|]; [reflexivity | discriminate Hqv]. }
  assert (Hst : parse_store c (mkParseState "" "" true ck)
                = mkParseState (str1 c) "" true ck).
  { unfold parse_store. simpl. rewrite Hs. simpl.
    destruct (Ascii.eqb c "q"); [reflexivity|].
    destruct (Ascii.eqb c "v"); [reflexivity | discriminate Hqv]. }
  rewrite store_all_cons, Hst. simpl before_splitter. simpl from_splitter. rewrite Hs.
  destruct (store_all_cmd l (mkParseState (str1 c) "" true ck) eq_refl) as [H1 H2];
    [simpl; lia|].
  rewrite H1, H2. split; reflexivity.
Qed.

Lemma ParsePacket_framed (body tail : string) (out_cmd : GDBCommand) :
  wire_body_ok body = true ->
  ParsePacket (String GdbStubControl.PacketStart (body +:+ String GdbStubControl.PacketEnd tail))
    out_cmd
  = (fst (ReadHexByteFromBuffer tail) =? receiver_sum body 0,
     mkGDBCommand (ps_cmd (store_all (unescape body) parse_start))
       (ps_data (store_all (unescape body) parse_start))
       (fst (ReadHexByteFromBuffer tail))).
Proof.
  intros Hok. unfold ParsePacket. simpl ReadCharFromBuffer. cbv beta iota.
  change (Ascii.eqb GdbStubControl.PacketStart GdbStubControl.PacketStart) with true.
  cbv beta iota.
  rewrite (parse_loop_framed (String.length body) body tail _ (le_n _) Hok).
  destruct (ReadHexByteFromBuffer tail) as [sum rest]. reflexivity.
Qed.

Lemma split_at_first_splitter (pre post : string) (d : ascii) :
  no_splitter pre = true -> is_splitter d = true ->
  before_splitter (pre +:+ String d post) = pre
  /\ from_splitter (pre +:+ String d post) = String d post.
Proof.
  intros Hpre Hd. induction pre as [|c pre IH].
  - simpl. rewrite Hd. split; reflexivity.
  - simpl in Hpre. apply andb_prop in Hpre as [Hc Hpre].
    apply negb_true_iff in Hc. rewrite str_app_cons. simpl. rewrite Hc.
    destruct (IH Hpre) as [-> ->]. split; reflexivity.
Qed.

Lemma no_splitter_whole (s : string) :
  no_splitter s = true -> before_splitter s = s /\ from_splitter s = "".
Proof.
  induction s as [|c s IH]; simpl; intros H; [split; reflexivity|].
  apply andb_prop in H as [Hc Hs]. apply negb_true_iff in Hc. rewrite Hc.
  destruct (IH Hs) as [-> ->]. split; reflexivity.
Qed.

(** C5, as stated, fails: in [qSupported:xyz] the [:] is not dropped, it
    is the first byte of [data]. *)
Lemma ParsePacket_keeps_splitter_in_data :
  ~ (forall (pre post : string) (d : ascii) (tail : string) (out_cmd : GDBCommand),
       no_splitter pre = true -> is_splitter d = true ->
       (exists rest, pre = String "q" rest \/ pre = String "v" rest) ->
       wire_body_ok (pre +:+ String d post) = true ->
       let command :=
         snd (ParsePacket
                (String GdbStubControl.PacketStart
                   ((pre +:+ String d post) +:+ String GdbStubControl.PacketEnd tail))
                out_cmd) in
       cmd command = pre /\ data command = post).
Proof.
  intros H.
  specialize (H "qSupported" "xyz" ":"%char "dc" empty_command eq_refl eq_refl).
  destruct H as [_ H]; [exists "Supported"; left; reflexivity | reflexivity |].
  vm_compute in H. discriminate H.
Qed.

(** C5, amended. For a framed packet whose body holds no byte 0 and no
    [#] and does not end in [}], and whose body, after unescaping, starts
    with [q] or [v]: [cmd] is the bytes before the first [:], [.] or [;]
    and [data] is the rest of the body from that delimiter on.  The
    delimiter is kept as the first byte of [data] (the [qXfer] handler
    strips it itself).  With no delimiter the whole body is [cmd] and
    [data] is empty. *)
Theorem ParsePacket_q_v_split (body tail : string) (out_cmd : GDBCommand)
    (c : ascii) (l : string) :
  wire_body_ok body = true ->
  unescape body = String c l ->
  Ascii.eqb c "q" || Ascii.eqb c "v" = true ->
  let command :=
    snd (ParsePacket
           (String GdbStubControl.PacketStart (body +:+ String GdbStubControl.PacketEnd tail))
           out_cmd) in
  cmd command +:+ data command = unescape body
  /\ (forall pre d post,
        unescape body = pre +:+ String d post ->
        no_splitter pre = true -> is_splitter d = true ->
        cmd command = pre /\ data command = String d post)
  /\ (no_splitter (unescape body) = true ->
      cmd command = unescape body /\ data command = "").
Proof.
  intros Hok Hbody Hqv command.
  assert (Hsplit : cmd command = before_splitter (unescape body)
                   /\ data command = from_splitter (unescape body)).
  { subst command. rewrite (ParsePacket_framed body tail out_cmd Hok). simpl.
    rewrite Hbody. apply store_all_q_v, Hqv. }
  destruct Hsplit as [Hc Hd]. rewrite Hc, Hd. split; [|split].
  - apply before_from_splitter.
  - intros pre d post Heq Hpre Hdel. rewrite Heq.
    apply split_at_first_splitter; assumption.
  - apply no_splitter_whole.
Qed.

Lemma ParsePacket_q_v_split_witness :
  let command := snd (ParsePacket "$qXfer:features:read:target.xml:0,1000#00" empty_command) in
  cmd command +:+ data command = unescape "qXfer:features:read:target.xml:0,1000"
  /\ (forall pre d post,
        unescape "qXfer:features:read:target.xml:0,1000" = pre +:+ String d post ->
        no_splitter pre = true -> is_splitter d = true ->
        cmd command = pre /\ data command = String d post)
  /\ (no_splitter (unescape "qXfer:features:read:target.xml:0,1000") = true ->
      cmd command = unescape "qXfer:features:read:target.xml:0,1000" /\ data command = "").
Proof.
  apply (ParsePacket_q_v_split "qXfer:features:read:target.xml:0,1000" "00"
           empty_command "q"%char "Xfer:features:read:target.xml:0,1000");
    reflexivity.
Defined.

(** The [qXfer] handler skips the [:] that the split leaves in front. *)
Example Xfer_features :
  HandleGDBCommand test_processor
    (snd (ParsePacket "$qXfer:features:read:target.xml:0,1000#00" empty_command)) test_stub
  = Some (target_xml, test_stub).
Proof. vm_compute. reflexivity. Qed.

(** ** Checksums *)

Lemma sum_bytes_fold (s : string) :
  forall acc, 0 <= acc < 256 ->
    fold_left (fun acc c => to_uint8 (acc + byte_of c)) (list_ascii_of_string s) acc
    = (acc + plain_sum s) mod 256.
Proof.
  induction s as [|c s IH]; intros acc Hacc; simpl.
  - rewrite Z.add_0_r, Z.mod_small; [reflexivity | exact Hacc].
  - rewrite IH by (unfold to_uint8; apply Z.mod_pos_bound; lia).
    unfold to_uint8. rewrite Z.add_mod_idemp_l by lia. f_equal. lia.
Qed.

Lemma sum_bytes_plain (s : string) : sum_bytes s = plain_sum s mod 256.
Proof. unfold sum_bytes. rewrite sum_bytes_fold by lia. reflexivity. Qed.

(** Two hex digits written by the sender read back as the same byte. *)
Lemma ReadHexByteFromBuffer_hex02 (v : Z) :
  0 <= v < 256 -> ReadHexByteFromBuffer (hex02 v) = (v, "").
Proof.
  intros Hv.
  assert (Hin : In (Z.to_nat v) (seq 0 256)) by (apply in_seq; lia).
  assert (Hall : forallb
            (fun n => let v := Z.of_nat n in
               (fst (ReadHexByteFromBuffer (hex02 v)) =? v)
               && String.eqb (snd (ReadHexByteFromBuffer (hex02 v))) "")
            (seq 0 256) = true) by (vm_compute; reflexivity).
  rewrite forallb_forall in Hall.
  apply Hall in Hin. cbv zeta in Hin.
  rewrite Z2Nat.id in Hin by lia.
  destruct (ReadHexByteFromBuffer (hex02 v)) as [a b].
  apply andb_prop in Hin as [H1 H2].
  apply Z.eqb_eq in H1. apply String.eqb_eq in H2. simpl in H1, H2. now subst.
Qed.

(** ** The escape round trip *)

Lemma reserved_escape (c : ascii) :
  is_reserved c = true ->
  ends_body (char_of (Z.lxor (byte_of c) 32)) = false
  /\ char_of (Z.lxor (byte_of (char_of (Z.lxor (byte_of c) 32))) 32) = c
  /\ byte_of c = byte_of (char_of (Z.lxor (byte_of c) 32)) + 32
  /\ ends_body c || Ascii.eqb c NUL = Ascii.eqb c "#".
Proof.
  unfold is_reserved. intros H.
  destruct (Ascii.eqb_spec c "$") as [e|_]; [subst c; vm_compute; repeat split|].
  destruct (Ascii.eqb_spec c "#") as [e|_]; [subst c; vm_compute; repeat split|].
  destruct (Ascii.eqb_spec c "}") as [e|_]; [subst c; vm_compute; repeat split|].
  discriminate H.
Qed.

Lemma unreserved_plain (c : ascii) :
  is_reserved c = false ->
  Ascii.eqb c "}" = false /\ ends_body c = Ascii.eqb c NUL.
Proof.
  unfold is_reserved, ends_body, GdbStubControl.PacketEnd. intros H.
  apply orb_false_iff in H as [H H3]. apply orb_false_iff in H as [H1 H2].
  rewrite H2, H3, orb_false_r. split; reflexivity.
Qed.

Lemma unescape_encode (body : string) : unescape (spec_escape_encode body) = body.
Proof.
  induction body as [|c body IH]; simpl; [reflexivity|].
  destruct (is_reserved c) eqn:Hr.
  - destruct (reserved_escape c Hr) as (_ & Hback & _ & _).
    simpl. rewrite Hback, IH. reflexivity.
  - destruct (unreserved_plain c Hr) as [Hc _].
    simpl. rewrite Hc, IH. reflexivity.
Qed.

Lemma wire_body_ok_encode (body : string) :
  no_nul body = true -> wire_body_ok (spec_escape_encode body) = true.
Proof.
  induction body as [|c body IH]; simpl; intros Hn; [reflexivity|].
  apply andb_prop in Hn as [Hc Hn]. apply negb_true_iff in Hc.
  destruct (is_reserved c) eqn:Hr.
  - destruct (reserved_escape c Hr) as (He & _ & _ & _).
    simpl. rewrite He, (IH Hn). reflexivity.
  - destruct (unreserved_plain c Hr) as [Hb He].
    simpl. rewrite He, Hc, Hb. simpl. exact (IH Hn).
Qed.

(** What the receiver adds up over an encoded body: the sum of the bytes
    on the wire plus 0x20 for every escaped byte. *)
Lemma receiver_sum_encode (body : string) :
  forall acc, 0 <= acc < 256 ->
    receiver_sum (spec_escape_encode body) acc
    = (acc + plain_sum (spec_escape_encode body) + 32 * count_reserved body) mod 256.
Proof.
  induction body as [|c body IH]; intros acc Hacc.
  - simpl. rewrite !Z.add_0_r, Z.mod_small; [reflexivity | exact Hacc].
  - simpl spec_escape_encode. simpl count_reserved.
    destruct (is_reserved c) eqn:Hr.
    + destruct (reserved_escape c Hr) as (_ & Hback & Hbyte & _).
      simpl receiver_sum. rewrite Hback.
      rewrite IH by (apply Z.mod_pos_bound; lia).
      simpl plain_sum. clear IH Hback.
      Z.to_euclidean_division_equations. lia.
    + destruct (unreserved_plain c Hr) as [Hb _].
      simpl receiver_sum. rewrite Hb.
      rewrite IH by (apply Z.mod_pos_bound; lia).
      simpl plain_sum. clear IH.
      Z.to_euclidean_division_equations. lia.
Qed.

Lemma count_reserved_nonneg (body : string) : 0 <= count_reserved body.
Proof.
  induction body as [|c body IH]; simpl; [lia|].
  destruct (is_reserved c); lia.
Qed.

(** The receiver accepts an escaped packet of the sender exactly when the
    number of escaped bytes is a multiple of eight, and then (and also
    when it rejects) its [cmd] and [data] are the split of the original
    body. *)
Lemma ParsePacket_spec_sender_packet (body : string) (out_cmd : GDBCommand) :
  no_nul body = true ->
  fst (ParsePacket (spec_sender_packet body) out_cmd)
  = (count_reserved body mod 8 =? 0)
  /\ cmd (snd (ParsePacket (spec_sender_packet body) out_cmd))
     = ps_cmd (store_all body parse_start)
  /\ data (snd (ParsePacket (spec_sender_packet body) out_cmd))
     = ps_data (store_all body parse_start).
Proof.
  intros Hn. unfold spec_sender_packet.
  rewrite ParsePacket_framed by (apply wire_body_ok_encode, Hn).
  rewrite unescape_encode. simpl. split; [|split; reflexivity].
  rewrite ReadHexByteFromBuffer_hex02
    by (rewrite sum_bytes_plain; apply Z.mod_pos_bound; lia).
  simpl. rewrite sum_bytes_plain, receiver_sum_encode by lia.
  pose proof (count_reserved_nonneg body) as Hk.
  set (P := plain_sum (spec_escape_encode body)).
  set (K := count_reserved body) in *.
  destruct (Z.eqb_spec (K mod 8) 0) as [H8|H8].
  - apply Z.eqb_eq.
    assert (K = 8 * (K / 8)) by (pose proof (Z.div_mod K 8 ltac:(lia)); lia).
    replace (0 + P + 32 * K) with (P + (K / 8) * 256) by lia.
    rewrite Z.mod_add by lia. reflexivity.
  - apply Z.eqb_neq. intros Heq. apply H8.
    pose proof (Z.div_mod P 256 ltac:(lia)) as HP.
    pose proof (Z.div_mod (0 + P + 32 * K) 256 ltac:(lia)) as HQ.
    pose proof (Z.div_mod K 8 ltac:(lia)) as HK.
    pose proof (Z.mod_pos_bound K 8 ltac:(lia)) as HKb.
    rewrite <- Heq in HQ.
    assert (H32 : 32 * K = 256 * ((0 + P + 32 * K) / 256 - P / 256)) by lia.
    assert (K = 8 * ((0 + P + 32 * K) / 256 - P / 256)) by lia.
    lia.
Qed.

(** C4. The escape round trip fails on the code: the sender's packet for
    the body [X10,1:#] (one escaped byte, checksum 0xd0 over the bytes on
    the wire) is decoded to the right [cmd] and [data], but the receiver
    adds the byte after the xor to its checksum, finds 0xf0, and answers
    [-] without dispatching. *)
Theorem escaped_body_is_rejected :
  spec_sender_packet "X10,1:#" = "$X10,1:}" +:+ String "003" "#d0"
  /\ ParsePacket (spec_sender_packet "X10,1:#") empty_command
     = (false, mkGDBCommand "X" "10,1:#" 208)
  /\ receiver_sum (spec_escape_encode "X10,1:#") 0 = 240
  /\ exists st,
       ProcessIncomingData test_processor (RecvBytes (spec_sender_packet "X10,1:#")) ""
         test_stub = Returns (true, st)
       /\ sent (stub st) = [str1 GdbStubControl.Nack]
       /\ unread st = "".
Proof.
  split; [vm_compute; reflexivity|].
  split; [vm_compute; reflexivity|].
  split; [vm_compute; reflexivity|].
  eexists. split; [vm_compute; reflexivity|]. split; reflexivity.
Qed.

(** C2. A byte 0 in the body defeats the checksum: the loop takes it for
    the end of the buffer, reads the checksum from the two bytes behind it
    instead of the two digits behind [#], and the packet is acknowledged
    and dispatched although those digits ([00]) are not the sum of its
    body (0xd8). *)
Theorem nul_byte_defeats_checksum :
  transmitted_checksum nul_packet = 0
  /\ sum_bytes (packet_body nul_packet) = 216
  /\ ParsePacket nul_packet empty_command = (true, mkGDBCommand "?" "" 63)
  /\ exists st,
       ProcessIncomingData test_processor (RecvBytes nul_packet) "" test_stub
       = Returns (true, st)
       /\ extracted st = [nul_packet]
       /\ sent (stub st) = [str1 GdbStubControl.Ack; "$S05#b8"].
Proof.
  split; [vm_compute; reflexivity|].
  split; [vm_compute; reflexivity|].
  split; [vm_compute; reflexivity|].
  eexists. split; [vm_compute; reflexivity|]. split; reflexivity.
Qed.

(** A [}] right in front of the [#] makes the loop take the [#] for an
    escaped byte: the two bytes behind it are read as body, no digit is
    left for the checksum, and a packet whose sum happens to be 0 is
    acknowledged and run, here as the interrupt command. *)
Example escape_swallows_packet_end :
  ParsePacket "$}#@@" empty_command
  = (true, mkGDBCommand (str1 GdbStubControl.Interrupt) "@@" 0)
  /\ exists st,
       ProcessIncomingData test_processor (RecvBytes "$}#@@") "" test_stub
       = Returns (true, st)
       /\ sent (stub st) = [str1 GdbStubControl.Ack; "$OK#9a"]
       /\ proc_calls (stub st) = [CallPause].
Proof.
  split; [vm_compute; reflexivity|].
  eexists. split; [vm_compute; reflexivity|]. split; reflexivity.
Qed.

(** On a body without a byte 0 or [#] the verdict of the parser is the
    comparison of the two digits behind [#] with the sum it computed. *)
Lemma ParsePacket_checks_framed_packet (body : string) (high low : ascii)
    (out_cmd : GDBCommand) :
  wire_body_ok body = true ->
  let packet :=
    String GdbStubControl.PacketStart
      (body +:+ String GdbStubControl.PacketEnd (String high (String low ""))) in
  fst (ParsePacket packet out_cmd)
  = (to_uint8 (Z.lor (Z.shiftl (from_hexchar high) 4) (from_hexchar low))
     =? receiver_sum body 0)
  /\ checksum (snd (ParsePacket packet out_cmd))
     = to_uint8 (Z.lor (Z.shiftl (from_hexchar high) 4) (from_hexchar low)).
Proof.
  intros Hok packet. subst packet.
  rewrite ParsePacket_framed by exact Hok. split; reflexivity.
Qed.

(** ** The receive loop *)

Lemma join_app (a b : list string) : join (a ++ b) = join a +:+ join b.
Proof.
  induction a as [|x a IH]; simpl; [reflexivity|].
  rewrite IH, str_app_assoc. reflexivity.
Qed.

Lemma ProcessIncomingData_loop_step (fuel : nat) (p : Processor) (st : Incoming) :
  ProcessIncomingData_loop (S fuel) p false st
  = match find_char GdbStubControl.PacketEnd (unread st) with
    | None => Returns st
    | Some e =>
        if (e + 2 <? String.length (unread st))%nat then
          let current_packet := take_str (e + 3) (unread st) in
          let next (g : GDBStub) :=
            ProcessIncomingData_loop fuel p false
              (mkIncoming (extracted st ++ [current_packet])
                 (drop_str (e + 3) (unread st)) g) in
          if fst (ParsePacket current_packet empty_command) then
            match dispatch p (snd (ParsePacket current_packet empty_command)) (stub st) with
            | Some (_, g) => next g
            | None => Undefined
            end
          else next (Send (str1 GdbStubControl.Nack) (stub st))
        else Returns st
    end.
Proof.
  cbn [ProcessIncomingData_loop orb].
  destruct (find_char GdbStubControl.PacketEnd (unread st)) as [e|]; [|reflexivity].
  change (default O (Some e)) with e.
  change (bool_decide (is_Some (Some e))) with true. cbv beta iota.
  destruct (e + 2 <? String.length (unread st))%nat; [|reflexivity].
  destruct (ParsePacket (take_str (e + 3) (unread st)) empty_command) as [ok command].
  reflexivity.
Qed.

Lemma ProcessIncomingData_loop_keeps_bytes (fuel : nat) :
  forall (p : Processor) (st : Incoming),
    (String.length (unread st) < fuel)%nat ->
    ProcessIncomingData_loop fuel p false st <> OutOfFuel
    /\ forall st',
         ProcessIncomingData_loop fuel p false st = Returns st' ->
         join (extracted st') +:+ unread st' = join (extracted st) +:+ unread st
         /\ (forall packet, In packet (extracted st') ->
               In packet (extracted st) \/ (3 <= String.length packet)%nat).
Proof.
  induction fuel as [|fuel IH]; intros p st Hfuel; [lia|].
  rewrite ProcessIncomingData_loop_step.
  destruct (find_char GdbStubControl.PacketEnd (unread st)) as [e|].
  2:{ split; [discriminate|]. intros st' [= <-]. split; [reflexivity | auto]. }
  destruct (Nat.ltb_spec (e + 2) (String.length (unread st))) as [He|He].
  2:{ split; [discriminate|]. intros st' [= <-]. split; [reflexivity | auto]. }
  cbv zeta.
  assert (Hnext : forall g,
    ProcessIncomingData_loop fuel p false
      (mkIncoming (extracted st ++ [take_str (e + 3) (unread st)])
         (drop_str (e + 3) (unread st)) g) <> OutOfFuel
    /\ forall st',
         ProcessIncomingData_loop fuel p false
           (mkIncoming (extracted st ++ [take_str (e + 3) (unread st)])
              (drop_str (e + 3) (unread st)) g) = Returns st' ->
         join (extracted st') +:+ unread st' = join (extracted st) +:+ unread st
         /\ (forall packet, In packet (extracted st') ->
               In packet (extracted st) \/ (3 <= String.length packet)%nat)).
  { intros g.
    destruct (IH p (mkIncoming (extracted st ++ [take_str (e + 3) (unread st)])
                      (drop_str (e + 3) (unread st)) g)) as [Hfu Hret].
    { simpl. rewrite drop_str_length. lia. }
    split; [exact Hfu|]. intros st' Hst'.
    destruct (Hret st' Hst') as [Hbytes Hlen]. simpl in Hbytes, Hlen. split.
    - rewrite Hbytes, join_app. simpl. rewrite str_app_nil_r, str_app_assoc.
      rewrite take_drop_str. reflexivity.
    - intros packet Hin. apply Hlen in Hin as [Hin|Hin]; [|right; exact Hin].
      apply in_app_or in Hin as [Hin|[<-|[]]]; [left; exact Hin|].
      right. rewrite take_str_length; lia. }
  destruct (fst (ParsePacket (take_str (e + 3) (unread st)) empty_command)).
  - destruct (dispatch p _ _) as [[response g]|].
    + apply Hnext.
    + split; [discriminate|]. intros st' Hst'. discriminate Hst'.
  - apply Hnext.
Qed.

Lemma ParsePacket_interrupt_first (rest : string) (out_cmd : GDBCommand) :
  ParsePacket (String GdbStubControl.Interrupt rest) out_cmd = (true, interrupt_command).
Proof. reflexivity. Qed.

Lemma ProcessIncomingData_interrupt (p : Processor) (buf : string) (g : GDBStub) :
  ProcessIncomingData p (RecvBytes (str1 GdbStubControl.Interrupt)) buf g
  = Returns (true, mkIncoming [str1 GdbStubControl.Interrupt] "" (after_interrupt g)).
Proof. reflexivity. Qed.

(** C6, as stated, fails: with [$g] waiting in the receive buffer a read
    of the single byte 0x03 makes the receiver emit the interrupt command
    and drop [$g], although 0x03 is neither the first unread byte nor the
    only byte of the buffer. *)
Lemma interrupt_drops_buffered_bytes :
  ~ (forall (p : Processor) (chunk buf : string) (g : GDBStub) (st : Incoming),
       ProcessIncomingData p (RecvBytes chunk) buf g = Returns (true, st) ->
       (In (str1 GdbStubControl.Interrupt) (extracted st)
        <-> buf +:+ chunk = str1 GdbStubControl.Interrupt)
       /\ (buf +:+ chunk <> str1 GdbStubControl.Interrupt ->
           join (extracted st) +:+ unread st = buf +:+ chunk)).
Proof.
  intros H.
  destruct (H test_processor (str1 GdbStubControl.Interrupt) "$g" test_stub _
              (ProcessIncomingData_interrupt test_processor "$g" test_stub))
    as [[Hemit _] _].
  specialize (Hemit (or_introl eq_refl)). discriminate Hemit.
Qed.

(** C6, amended. The interrupt is recognised on the chunk just read, not
    on the receive buffer: when that chunk is the single byte 0x03 the
    receiver hands the synthetic packet to the parser, runs the interrupt
    command and empties the whole receive buffer, whatever it held.  For
    any other chunk the synthetic packet is not produced and no byte is
    dropped: the packets extracted, followed by what stays in the buffer,
    are the old buffer followed by the chunk.  (An extracted packet whose
    first byte is 0x03 is still parsed as the interrupt command.) *)
Theorem interrupt_is_recognised_on_the_chunk (p : Processor) (chunk buf : string)
    (g : GDBStub) (out_cmd : GDBCommand) :
  ProcessIncomingData p (RecvBytes (str1 GdbStubControl.Interrupt)) buf g
  = Returns (true, mkIncoming [str1 GdbStubControl.Interrupt] "" (after_interrupt g))
  /\ ProcessIncomingData p (RecvBytes chunk) buf g <> OutOfFuel
  /\ (chunk <> str1 GdbStubControl.Interrupt ->
      forall st,
        ProcessIncomingData p (RecvBytes chunk) buf g = Returns (true, st) ->
        ~ In (str1 GdbStubControl.Interrupt) (extracted st)
        /\ join (extracted st) +:+ unread st = buf +:+ chunk)
  /\ (forall rest,
        ParsePacket (String GdbStubControl.Interrupt rest) out_cmd
        = (true, interrupt_command)).
Proof.
  split; [apply ProcessIncomingData_interrupt|].
  assert (Hloop : forall b0 rest,
    chunk = String b0 rest -> chunk <> str1 GdbStubControl.Interrupt ->
    Ascii.eqb b0 GdbStubControl.Interrupt && (String.length chunk =? 1)%nat = false).
  { intros b0 rest -> Hne.
    destruct (Ascii.eqb_spec b0 GdbStubControl.Interrupt) as [Hb|]; [|reflexivity].
    destruct rest; [|reflexivity]. exfalso. apply Hne. now rewrite Hb. }
  split; [|split; [|intros rest; reflexivity]].
  - destruct chunk as [|b0 rest]; [discriminate|].
    destruct (String.eqb_spec (String b0 rest) (str1 GdbStubControl.Interrupt)) as [Heq|Hne].
    { rewrite Heq, ProcessIncomingData_interrupt. discriminate. }
    unfold ProcessIncomingData. rewrite (Hloop b0 rest eq_refl Hne).
    destruct (ProcessIncomingData_loop_keeps_bytes
                (S (S (String.length (buf +:+ String b0 rest)))) p
                (mkIncoming [] (buf +:+ String b0 rest) g)) as [Hfu _];
      [simpl; lia|].
    destruct (ProcessIncomingData_loop _ p false _); [discriminate | discriminate |].
    now contradiction Hfu.
  - intros Hne st Hst.
    destruct chunk as [|b0 rest]; [discriminate Hst|].
    unfold ProcessIncomingData in Hst. rewrite (Hloop b0 rest eq_refl Hne) in Hst.
    destruct (ProcessIncomingData_loop_keeps_bytes
                (S (S (String.length (buf +:+ String b0 rest)))) p
                (mkIncoming [] (buf +:+ String b0 rest) g)) as [_ Hret];
      [simpl; lia|].
    destruct (ProcessIncomingData_loop _ p false _) as [st1| |]; try discriminate Hst.
    injection Hst as <-.
    destruct (Hret st1 eq_refl) as [Hbytes Hlen]. simpl in Hbytes, Hlen.
    split; [|exact Hbytes].
    intros Hin. apply Hlen in Hin as [[]|Hin]. simpl in Hin. lia.
Qed.

Lemma interrupt_is_recognised_on_the_chunk_witness :
  "$?#3f" <> str1 GdbStubControl.Interrupt
  /\ exists st,
       ProcessIncomingData test_processor (RecvBytes "$?#3f") "+" test_stub
       = Returns (true, st)
       /\ ~ In (str1 GdbStubControl.Interrupt) (extracted st)
       /\ join (extracted st) +:+ unread st = "+" +:+ "$?#3f".
Proof.
  split; [discriminate|].
  eexists. split; [vm_compute; reflexivity|].
  apply (proj1 (proj2 (proj2
           (interrupt_is_recognised_on_the_chunk test_processor "$?#3f" "+" test_stub
              empty_command)))).
  - discriminate.
  - vm_compute. reflexivity.
Defined.

(** ** The breakpoint registry *)

Lemma deref_in (all : list Breakpoint) (h : nat) (b : Breakpoint) :
  deref all h = Some b -> In b all /\ bp_handle b = h.
Proof.
  unfold deref. intros H. apply find_some in H as [Hin Heq].
  apply Nat.eqb_eq in Heq. split; assumption.
Qed.

Lemma deref_of_in (all : list Breakpoint) (b : Breakpoint) :
  NoDup (map bp_handle all) -> In b all -> deref all (bp_handle b) = Some b.
Proof.
  unfold deref. induction all as [|x all IH]; simpl; intros Hnd Hin; [contradiction|].
  apply NoDup_cons in Hnd as [Hx Hnd].
  destruct Hin as [->|Hin]; [now rewrite Nat.eqb_refl|].
  destruct (Nat.eqb_spec (bp_handle x) (bp_handle b)) as [Heq|_]; [|apply IH; assumption].
  exfalso. apply Hx. rewrite Heq. apply list_elem_of_In, in_map, Hin.
Qed.

Lemma handles_injective (all : list Breakpoint) (b1 b2 : Breakpoint) :
  NoDup (map bp_handle all) -> In b1 all -> In b2 all ->
  bp_handle b1 = bp_handle b2 -> b1 = b2.
Proof.
  intros Hnd H1 H2 Heq.
  pose proof (deref_of_in all b1 Hnd H1) as D1.
  pose proof (deref_of_in all b2 Hnd H2) as D2.
  rewrite Heq in D1. congruence.
Qed.

Lemma existsb_ContainsHostAddress (b : Breakpoint) (hosts : list Z) :
  existsb (ContainsHostAddress b) hosts = true
  <-> exists a, In a hosts /\ In a (host_addresses b).
Proof.
  rewrite existsb_exists. unfold ContainsHostAddress. split.
  - intros (a & Ha & Hb). apply existsb_exists in Hb as (a' & Ha' & Heq).
    apply Z.eqb_eq in Heq. subst a'. eauto.
  - intros (a & Ha & Hb). exists a. split; [exact Ha|].
    apply existsb_exists. exists a. split; [exact Hb | apply Z.eqb_refl].
Qed.

Lemma scan_collision_spec (all : list Breakpoint) (new : Breakpoint) (kvps : list (Z * nat)) :
  (forall k h, In (k, h) kvps -> exists b, deref all h = Some b /\ guest_address b = k) ->
  exists hit,
    scan_collision all new kvps = Some hit
    /\ (hit = true
        <-> exists k h b,
              In (k, h) kvps /\ deref all h = Some b
              /\ (k = guest_address new
                  \/ exists a, In a (host_addresses new) /\ In a (host_addresses b))).
Proof.
  induction kvps as [|[k h] kvps IH]; intros Hlive.
  - exists false. split; [reflexivity|]. split; [discriminate|].
    intros (k & h & b & [] & _).
  - simpl. destruct (Z.eqb_spec k (guest_address new)) as [Hk|Hk].
    + exists true. split; [reflexivity|]. split; [|reflexivity]. intros _.
      destruct (Hlive k h (or_introl eq_refl)) as (b & Hb & _).
      exists k, h, b. split; [left; reflexivity|]. split; [exact Hb | left; exact Hk].
    + destruct (Hlive k h (or_introl eq_refl)) as (b & Hb & Hg).
      rewrite Hb. simpl.
      destruct (existsb (ContainsHostAddress b) (host_addresses new)) eqn:Hex.
      * exists true. split; [reflexivity|]. split; [|reflexivity]. intros _.
        exists k, h, b. split; [left; reflexivity|]. split; [exact Hb|].
        right. apply existsb_ContainsHostAddress, Hex.
      * destruct IH as (hit & Hscan & Hhit).
        { intros k' h' Hin. apply Hlive. right. exact Hin. }
        exists hit. split; [exact Hscan|]. rewrite Hhit. split.
        -- intros (k' & h' & b' & Hin & Hb' & Hc).
           exists k', h', b'. split; [right; exact Hin|]. split; assumption.
        -- intros (k' & h' & b' & [Heq|Hin] & Hb' & Hc).
           ++ injection Heq as <- <-. rewrite Hb in Hb'. injection Hb' as <-.
              destruct Hc as [Hc|Hc]; [contradiction|].
              apply existsb_ContainsHostAddress in Hc. congruence.
           ++ exists k', h', b'. split; [exact Hin|]. split; assumption.
Qed.

Lemma map_entry_live (g : GDBStub) (k : Z) (h : nat) :
  registry_ok g ->
  In (k, h) (map_to_list (code_breakpoints_by_guest_address (registry g))) ->
  exists b,
    deref (all_breakpoints (registry g)) h = Some b /\ guest_address b = k
    /\ In b (all_breakpoints (registry g)).
Proof.
  intros (Hnd & _ & Hmap & _) Hin.
  apply list_elem_of_In, elem_of_map_to_list in Hin.
  apply Hmap in Hin as (b & Hb & Hh & Hk).
  exists b. split; [|split; assumption].
  rewrite <- Hh. apply deref_of_in; assumption.
Qed.

(** The scan of [CreateCodeBreakpoint] finds a collision exactly when
    there is one. *)
Lemma scan_collision_registry (g : GDBStub) (address : Z) (hosts : list Z) :
  registry_ok g ->
  exists hit,
    scan_collision (all_breakpoints (registry g))
      (mkBreakpoint (next_handle g) (to_uint64 address) hosts)
      (map_to_list (code_breakpoints_by_guest_address (registry g))) = Some hit
    /\ (hit = true <-> collides (registry g) address hosts).
Proof.
  intros Hok.
  destruct (scan_collision_spec (all_breakpoints (registry g))
              (mkBreakpoint (next_handle g) (to_uint64 address) hosts)
              (map_to_list (code_breakpoints_by_guest_address (registry g))))
    as (hit & Hscan & Hhit).
  { intros k h Hin. destruct (map_entry_live g k h Hok Hin) as (b & Hb & Hk & _). eauto. }
  exists hit. split; [exact Hscan|]. rewrite Hhit. unfold collides. simpl. split.
  - intros (k & h & b & Hin & Hb & Hc).
    destruct (map_entry_live g k h Hok Hin) as (b' & Hb' & Hk & Hinb).
    rewrite Hb in Hb'. injection Hb' as <-.
    exists b. split; [exact Hinb|].
    destruct Hc as [Hc|Hc]; [left; rewrite Hk; exact Hc | right; exact Hc].
  - intros (b & Hinb & Hc).
    destruct Hok as (Hnd & _ & Hmap & _).
    exists (guest_address b), (bp_handle b), b. split; [|split].
    + apply list_elem_of_In, elem_of_map_to_list, Hmap. eauto.
    + apply deref_of_in; assumption.
    + destruct Hc as [Hc|Hc]; [left; exact Hc | right; exact Hc].
Qed.

Lemma registry_ok_initial : registry_ok initial_stub.
Proof.
  unfold registry_ok, map_matches.
  change (registry initial_stub) with (mkBreakpointState [] ∅).
  cbn [all_breakpoints code_breakpoints_by_guest_address map].
  split; [constructor|].
  split; [intros b []|]. split; [|intros b1 b2 []].
  intros k h. rewrite lookup_empty. split; [discriminate|]. intros (b & [] & _).
Qed.

Lemma CreateCodeBreakpoint_collision (g : GDBStub) (address : Z) (hosts : list Z) :
  registry_ok g -> collides (registry g) address hosts ->
  CreateCodeBreakpoint address hosts g
  = Some (false, mkGDBStub (cache_ g) (S (next_handle g)) (proc_calls g) (sent g)).
Proof.
  intros Hok Hcol.
  destruct (scan_collision_registry g address hosts Hok) as (hit & Hscan & Hhit).
  apply Hhit in Hcol. subst hit.
  unfold CreateCodeBreakpoint. unfold registry in Hscan. cbv zeta.
  rewrite Hscan. reflexivity.
Qed.

Lemma registry_ok_next_handle (g : GDBStub) :
  registry_ok g ->
  registry_ok (mkGDBStub (cache_ g) (S (next_handle g)) (proc_calls g) (sent g)).
Proof.
  intros (Hnd & Hlt & Hmap & Hdis). unfold registry_ok, registry in *. simpl.
  split; [exact Hnd|]. split; [|split; assumption].
  intros b Hb. specialize (Hlt b Hb). lia.
Qed.

Lemma hosts_overlap_sym (b1 b2 : Breakpoint) : hosts_overlap b1 b2 -> hosts_overlap b2 b1.
Proof. intros (a & H1 & H2). exists a. split; assumption. Qed.

Lemma CreateCodeBreakpoint_free (g : GDBStub) (address : Z) (hosts : list Z) :
  registry_ok g -> ~ collides (registry g) address hosts ->
  exists g',
    CreateCodeBreakpoint address hosts g = Some (true, g')
    /\ registry_ok g'
    /\ all_breakpoints (registry g')
       = (all_breakpoints (registry g)
            ++ [mkBreakpoint (next_handle g) (to_uint64 address) hosts])%list
    /\ proc_calls g' = (proc_calls g ++ [CallAddBreakpoint (next_handle g)])%list.
Proof.
  intros Hok Hfree.
  destruct (scan_collision_registry g address hosts Hok) as (hit & Hscan & Hhit).
  destruct hit; [exfalso; apply Hfree, Hhit; reflexivity|]. clear Hhit.
  destruct Hok as (Hnd & Hlt & Hmap & Hdis).
  set (new := mkBreakpoint (next_handle g) (to_uint64 address) hosts) in *.
  assert (Hnone : code_breakpoints_by_guest_address (registry g) !! guest_address new = None).
  { destruct (code_breakpoints_by_guest_address (registry g) !! guest_address new)
      as [h|] eqn:Hl; [|reflexivity].
    exfalso. apply Hmap in Hl as (b & Hb & _ & Hg).
    apply Hfree. exists b. split; [exact Hb | left; exact Hg]. }
  unfold CreateCodeBreakpoint. unfold registry in Hscan, Hnone. cbv zeta.
  fold new. rewrite Hscan. cbn [mbind option_bind]. rewrite Hnone.
  eexists. split; [reflexivity|]. split; [|split; reflexivity].
  unfold registry_ok, registry, map_matches. simpl.
  fold (registry g). fold new.
  assert (Hfresh : forall b, In b (all_breakpoints (registry g)) ->
                     bp_handle b <> bp_handle new).
  { intros b Hb. specialize (Hlt b Hb). simpl. lia. }
  split; [|split; [|split]].
  - rewrite map_app. apply NoDup_app. split; [exact Hnd|]. split.
    + intros h Hh Hk. apply list_elem_of_In in Hk. simpl in Hk.
      destruct Hk as [Hk|[]].
      apply list_elem_of_In, in_map_iff in Hh as (b & Hbh & Hb).
      apply (Hfresh b Hb). simpl. congruence.
    + simpl. apply NoDup_singleton.
  - intros b Hb. apply in_app_or in Hb as [Hb|[<-|[]]].
    + specialize (Hlt b Hb). lia.
    + simpl. lia.
  - intros k h. destruct (Z.eq_dec k (guest_address new)) as [->|Hk].
    + rewrite lookup_insert_eq. split.
      * intros [= <-]. exists new. split; [apply in_or_app; right; left; reflexivity|].
        split; reflexivity.
      * intros (b & Hb & Hh & Hg). apply in_app_or in Hb as [Hb|[<-|[]]].
        -- exfalso. apply Hfree. exists b. split; [exact Hb | left; exact Hg].
        -- rewrite <- Hh. reflexivity.
    + rewrite lookup_insert_ne by congruence. rewrite (Hmap k h). split.
      * intros (b & Hb & Hh & Hg). exists b. split; [apply in_or_app; left; exact Hb|].
        split; assumption.
      * intros (b & Hb & Hh & Hg). apply in_app_or in Hb as [Hb|[<-|[]]].
        -- exists b. split; [exact Hb|]. split; assumption.
        -- exfalso. apply Hk. rewrite <- Hg. reflexivity.
  - intros b1 b2 H1 H2 Hne.
    apply in_app_or in H1 as [H1|[<-|[]]]; apply in_app_or in H2 as [H2|[<-|[]]].
    + apply Hdis; assumption.
    + split.
      * intros Hg. apply Hfree. exists b1. split; [exact H1 | left; exact Hg].
      * intros (a & Ha1 & Ha2). apply Hfree. exists b1. split; [exact H1|].
        right. exists a. split; assumption.
    + split.
      * intros Hg. apply Hfree. exists b2. split; [exact H2 | left; symmetry; exact Hg].
      * intros (a & Ha1 & Ha2). apply Hfree. exists b2. split; [exact H2|].
        right. exists a. split; assumption.
    + contradiction.
Qed.

Lemma registry_ok_remove (g g' : GDBStub) (l1 l2 : list Breakpoint) (bp : Breakpoint) :
  registry_ok g ->
  all_breakpoints (registry g) = (l1 ++ bp :: l2)%list ->
  all_breakpoints (registry g') = (l1 ++ l2)%list ->
  code_breakpoints_by_guest_address (registry g')
  = delete (guest_address bp) (code_breakpoints_by_guest_address (registry g)) ->
  next_handle g' = next_handle g ->
  registry_ok g'.
Proof.
  intros (Hnd & Hlt & Hmap & Hdis) Hall Hall' Hmap' Hnext.
  unfold registry_ok, map_matches in *. rewrite Hall', Hmap', Hnext.
  rewrite Hall in Hnd, Hlt, Hmap, Hdis.
  assert (Hsub : forall b, In b (l1 ++ l2) -> In b (l1 ++ bp :: l2)).
  { intros b Hb. apply in_app_or in Hb as [Hb|Hb]; apply in_or_app;
      [left | right; right]; exact Hb. }
  assert (Hbp : In bp (l1 ++ bp :: l2)) by (apply in_or_app; right; left; reflexivity).
  assert (Hother : forall b, In b (l1 ++ l2) -> bp_handle b <> bp_handle bp).
  { rewrite map_app in Hnd. simpl in Hnd.
    apply NoDup_app in Hnd as (_ & Hl1 & Hnd2). apply NoDup_cons in Hnd2 as [Hl2 _].
    intros b Hb Heq. apply in_app_or in Hb as [Hb|Hb].
    - apply (Hl1 (bp_handle b)).
      + apply list_elem_of_In, in_map, Hb.
      + rewrite Heq. apply list_elem_of_In. left. reflexivity.
    - apply Hl2. rewrite <- Heq. apply list_elem_of_In, in_map, Hb. }
  split; [|split; [|split]].
  - rewrite map_app in Hnd |- *. simpl in Hnd.
    apply NoDup_app in Hnd as (Hn1 & Hl1 & Hnd2). apply NoDup_cons in Hnd2 as [_ Hn2].
    apply NoDup_app. split; [exact Hn1|]. split; [|exact Hn2].
    intros h Hh1 Hh2. apply (Hl1 h Hh1). apply list_elem_of_In. right.
    apply list_elem_of_In, Hh2.
  - intros b Hb. apply Hlt, Hsub, Hb.
  - intros k h. rewrite lookup_delete_Some, (Hmap k h). split.
    + intros (Hk & b & Hb & Hh & Hg). exists b. split; [|split; assumption].
      apply in_app_or in Hb as [Hb|[Hb|Hb]]; apply in_or_app;
        [left; exact Hb | | right; exact Hb].
      exfalso. apply Hk. rewrite <- Hg, Hb. reflexivity.
    + intros (b & Hb & Hh & Hg). split.
      * rewrite <- Hg. intros Heq.
        destruct (Hdis b bp (Hsub b Hb) Hbp (Hother b Hb)) as [Hne _].
        apply Hne. symmetry. exact Heq.
      * exists b. split; [apply Hsub, Hb|]. split; assumption.
  - intros b1 b2 H1 H2. apply Hdis; apply Hsub; assumption.
Qed.

Lemma DeleteCodeBreakpoint_ptr_ok (h : nat) (g : GDBStub) :
  registry_ok g -> registry_ok (DeleteCodeBreakpoint_ptr h g).
Proof.
  intros Hok. unfold DeleteCodeBreakpoint_ptr.
  destruct (list_find _ _) as [[i bp]|] eqn:Hfind; [|exact Hok].
  apply list_find_Some in Hfind as (Hi & _ & _).
  apply (registry_ok_remove g _ (take i (all_breakpoints (registry g)))
           (drop (S i) (all_breakpoints (registry g))) bp Hok).
  - symmetry. apply take_drop_middle, Hi.
  - unfold registry. simpl. apply delete_take_drop.
  - reflexivity.
  - reflexivity.
Qed.

Lemma DeleteCodeBreakpoint_ok (address : Z) (g : GDBStub) :
  registry_ok g -> registry_ok (DeleteCodeBreakpoint address g).
Proof.
  intros Hok. unfold DeleteCodeBreakpoint.
  destruct (LookupBreakpointAtAddress address g); [|exact Hok].
  apply DeleteCodeBreakpoint_ptr_ok, Hok.
Qed.

Lemma registry_ok_empty (g : GDBStub) :
  registry g = mkBreakpointState [] ∅ -> registry_ok g.
Proof.
  intros Hreg. unfold registry_ok, map_matches. rewrite Hreg.
  cbn [all_breakpoints code_breakpoints_by_guest_address map].
  split; [constructor|].
  split; [intros b []|]. split; [|intros b1 b2 []].
  intros k h. rewrite lookup_empty. split; [discriminate|]. intros (b & [] & _).
Qed.

Lemma DebuggerDetached_registry (p : Processor) (g : GDBStub) :
  registry (snd (DebuggerDetached p g)) = mkBreakpointState [] ∅.
Proof.
  unfold DebuggerDetached. cbv zeta.
  destruct (ExecutionState_eqb (execution_state p) kPaused); reflexivity.
Qed.

Lemma OnDetached_loop_ok (fuel : nat) :
  forall g, registry_ok g -> registry_ok (OnDetached_loop fuel g).
Proof.
  induction fuel as [|fuel IH]; intros g Hok; simpl; [exact Hok|].
  destruct (all_breakpoints (breakpoints (cache_ g))); [exact Hok|].
  apply IH, DeleteCodeBreakpoint_ptr_ok, Hok.
Qed.

(** Every round of the loop of [OnDetached] removes the front breakpoint:
    as many rounds as there are breakpoints leave none. *)
Lemma OnDetached_loop_empties (fuel : nat) :
  forall g,
    length (all_breakpoints (registry g)) = fuel ->
    all_breakpoints (registry (OnDetached_loop fuel g)) = [].
Proof.
  induction fuel as [|fuel IH]; intros g Hlen; simpl.
  - destruct (all_breakpoints (registry g)); [reflexivity | discriminate Hlen].
  - fold (registry g).
    destruct (all_breakpoints (registry g)) as [|front rest] eqn:Hall; [discriminate Hlen|].
    apply IH. unfold DeleteCodeBreakpoint_ptr. fold (registry g). rewrite Hall.
    simpl. destruct (decide (bp_handle front = bp_handle front)) as [_|Hne];
      [|contradiction].
    simpl. simpl in Hlen. lia.
Qed.

Lemma run_op_ok (op : RegistryOp) (g : GDBStub) :
  registry_ok g -> exists g', run_op op g = Some g' /\ registry_ok g'.
Proof.
  intros Hok. destruct op as [address hosts|address|p|]; simpl.
  - destruct (scan_collision_registry g address hosts Hok) as ([|] & _ & Hhit).
    + rewrite (CreateCodeBreakpoint_collision g address hosts Hok)
        by (apply Hhit; reflexivity).
      eexists. split; [reflexivity|]. apply registry_ok_next_handle, Hok.
    + destruct (CreateCodeBreakpoint_free g address hosts Hok) as (g' & -> & Hok' & _).
      { intros Hc. apply Hhit in Hc. discriminate Hc. }
      exists g'. split; [reflexivity | exact Hok'].
  - eexists. split; [reflexivity|]. apply DeleteCodeBreakpoint_ok, Hok.
  - eexists. split; [reflexivity|]. apply registry_ok_empty, DebuggerDetached_registry.
  - eexists. split; [reflexivity|]. apply OnDetached_loop_ok, Hok.
Qed.

Lemma run_ops_ok (ops : list RegistryOp) :
  forall g, registry_ok g -> exists g', run_ops ops g = Some g' /\ registry_ok g'.
Proof.
  induction ops as [|op ops IH]; intros g Hok; simpl.
  - exists g. split; [reflexivity | exact Hok].
  - destruct (run_op_ok op g Hok) as (g1 & -> & Hok1). simpl. apply IH, Hok1.
Qed.

Lemma registry_ok_entries_distinct (g : GDBStub) :
  registry_ok g -> entries_distinct (registry g).
Proof.
  intros (Hnd & _ & _ & Hdis) i j b1 b2 H1 H2 Hij.
  apply Hdis.
  - apply list_elem_of_In, list_elem_of_lookup. eauto.
  - apply list_elem_of_In, list_elem_of_lookup. eauto.
  - intros Heq. apply Hij.
    assert (Hm1 : map bp_handle (all_breakpoints (registry g)) !! i = Some (bp_handle b1)).
    { change (map bp_handle) with (fmap (M:=list) bp_handle).
      rewrite list_lookup_fmap, H1. reflexivity. }
    assert (Hm2 : map bp_handle (all_breakpoints (registry g)) !! j = Some (bp_handle b1)).
    { change (map bp_handle) with (fmap (M:=list) bp_handle).
      rewrite list_lookup_fmap, H2, Heq. reflexivity. }
    exact (NoDup_lookup _ i j _ Hnd Hm1 Hm2).
Qed.

(** C1. After any sequence of Insert, Remove and RemoveAll operations on
    the empty registry the operations have all returned, two different
    entries differ in their guest address and share no host address, the
    map holds exactly the registered breakpoints, and an Insert that would
    collide with a registered breakpoint on its guest address or on a host
    address returns false and leaves the registry, and the breakpoints
    installed with the Processor, as they were. *)
Theorem registry_invariants (ops : list RegistryOp) :
  exists g,
    run_ops ops initial_stub = Some g
    /\ entries_distinct (registry g)
    /\ map_matches (registry g)
    /\ forall address hosts,
         collides (registry g) address hosts ->
         exists g',
           CreateCodeBreakpoint address hosts g = Some (false, g')
           /\ registry g' = registry g
           /\ proc_calls g' = proc_calls g.
Proof.
  destruct (run_ops_ok ops initial_stub registry_ok_initial) as (g & Hrun & Hok).
  exists g. split; [exact Hrun|].
  split; [apply registry_ok_entries_distinct, Hok|].
  split; [apply Hok|].
  intros address hosts Hcol.
  rewrite (CreateCodeBreakpoint_collision g address hosts Hok Hcol).
  eexists. split; [reflexivity|]. split; reflexivity.
Qed.

Lemma registry_invariants_witness :
  exists g g',
    run_ops [OpInsert 256 [4096; 4100]; OpInsert 512 [8192]; OpRemove 512] initial_stub
    = Some g
    /\ collides (registry g) 768 [4100]
    /\ CreateCodeBreakpoint 768 [4100] g = Some (false, g')
    /\ registry g' = registry g
    /\ proc_calls g' = proc_calls g.
Proof.
  destruct (registry_invariants [OpInsert 256 [4096; 4100]; OpInsert 512 [8192]; OpRemove 512])
    as (g & Hrun & _ & _ & Hrej).
  assert (Hcol : collides (registry g) 768 [4100]).
  { vm_compute in Hrun. injection Hrun as <-.
    exists (mkBreakpoint 0 256 [4096; 4100]). split; [left; reflexivity|].
    right. exists 4100. split; [left; reflexivity | right; left; reflexivity]. }
  destruct (Hrej 768 [4100] Hcol) as (g' & Hcreate & Hreg & Hcalls).
  exists g, g'. repeat split; assumption.
Defined.

Example registry_scenario :
  (g ← run_ops [OpInsert 256 [4096; 4100]; OpInsert 256 [9000]; OpInsert 512 [8192];
                 OpRemove 256; OpInsert 768 [4100]] initial_stub;
   Some (all_breakpoints (registry g), proc_calls g))
  = Some ([mkBreakpoint 2 512 [8192]; mkBreakpoint 3 768 [4100]],
          [CallAddBreakpoint 0; CallAddBreakpoint 2; CallRemoveBreakpoint 0;
           CallAddBreakpoint 3]).
Proof. vm_compute. reflexivity. Qed.

(** ** One-shot stop notifications *)
























Lemma to_uint32_of_uint64 (a : Z) : to_uint32 (to_uint64 a) = to_uint32 (to_uint32 a).
Proof.
  unfold to_uint32, to_uint64.
  rewrite (Z.mod_mod a (2 ^ 32)) by lia.
  replace (2 ^ 64) with (2 ^ 32 * 2 ^ 32) by reflexivity.
  rewrite Z.rem_mul_r by lia.
  rewrite Z.mul_comm, Z.mod_add by lia. apply Z.mod_mod. lia.
Qed.


Lemma existsb_find (A : Type) (f : A -> bool) (l : list A) :
  existsb f l = true -> exists x, find f l = Some x /\ In x l /\ f x = true.
Proof.
  induction l as [|a l IH]; simpl; [discriminate|].
  destruct (f a) eqn:Hfa.
  - intros _. exists a. split; [reflexivity|]. split; [left; reflexivity | exact Hfa].
  - intros H. destruct (IH H) as (x & Hx & Hin & Hfx).
    exists x. split; [exact Hx|]. split; [right; exact Hin | exact Hfx].
Qed.

Lemma to_uint32_idem (a : Z) : to_uint32 (to_uint32 a) = to_uint32 a.
Proof. unfold to_uint32. apply Z.mod_mod. lia. Qed.


(** *** Reads of register 64 return *)






(** *** The current thread stays valid *)










(** Outside the guest address space: [notify_bp_guest_address] keeps the
    64-bit all-ones value for "no address pending", so a breakpoint object
    whose 64-bit address were that value would leave the one-shot address
    unarmed, and the first read of register 64 would report the frame PC
    (0x2000).  Guest addresses are 32-bit, so no guest breakpoint has
    it. *)
Lemma sentinel_address_is_not_reported :
  ~ (forall (p0 pr : Processor) (bp : Breakpoint) (thread : ThreadDebugInfo)
       (g ga : GDBStub) (c1 : EmulatorStateCache) (command : GDBCommand) (reply : string),
       OnBreakpointHit p0 bp thread (cache_ g) = Some c1 ->
       is_pc_read command = true ->
       dispatch pr command (set_cache c1 g) = Some (reply, ga) ->
       pc_of_reply command reply = u32_to_padded_hex (guest_address bp)).
Proof.
  intros H.
  assert (Hhit : exists c1,
            OnBreakpointHit test_processor sentinel_breakpoint test_thread (cache_ test_stub)
            = Some c1) by (eexists; reflexivity).
  destruct Hhit as (c1 & Hhit).
  assert (Hread : exists ga,
            dispatch test_processor read_pc_command (set_cache c1 test_stub)
            = Some ("00002000", ga)).
  { vm_compute in Hhit. injection Hhit as <-. eexists. vm_compute. reflexivity. }
  destruct Hread as (ga & Hread).
  specialize (H test_processor test_processor sentinel_breakpoint test_thread test_stub ga c1
                read_pc_command "00002000" Hhit eq_refl Hread).
  vm_compute in H. discriminate H.
Qed.



(** The breakpoint-hit scenario: one stop reply at the next pass, the
    breakpoint address on the first [p40], the frame PC on the second,
    and nothing more at the following pass. *)
Example breakpoint_hit_scenario :
  (g ← run_session
         [ListenNotify; Command test_processor read_pc_command;
          Command test_processor read_pc_command; ListenNotify] stub_after_hit;
   Some (sent g))
  = Some ["$T0540:00001000;43:82000000;thread:7;#9d";
          "+"; "$00001000#81"; "+"; "$00002000#82"].
Proof. vm_compute. reflexivity. Qed.

(** * Further properties *)

(** ** Hex digits *)

Lemma for_all_bytes (P : Z -> bool) :
  forallb (fun n => P (Z.of_nat n)) (seq 0 256) = true ->
  forall v, 0 <= v < 256 -> P v = true.
Proof.
  intros Hall v Hv. rewrite forallb_forall in Hall.
  specialize (Hall (Z.to_nat v)). rewrite Z2Nat.id in Hall by lia.
  apply Hall. apply in_seq. lia.
Qed.

Lemma for_all_chars (P : ascii -> bool) :
  forallb (fun n => P (ascii_of_nat n)) (seq 0 256) = true ->
  forall c, P c = true.
Proof.
  intros Hall c. rewrite forallb_forall in Hall.
  specialize (Hall (nat_of_ascii c)). rewrite ascii_nat_embedding in Hall.
  apply Hall. apply in_seq. pose proof (nat_ascii_bounded c). lia.
Qed.

(** X1. [to_hexbyte] writes a byte as the two lower-case hex digits that
    [ReadHexByteFromBuffer] reads back as the same byte; they are the
    digits [SendPacket] writes for a checksum of that value. *)
Theorem to_hexbyte_round_trip (i : Z) :
  0 <= i < 256 ->
  ReadHexByteFromBuffer (to_hexbyte i) = (i, "")
  /\ to_hexbyte i = hex02 i.
Proof.
  intros Hi.
  pose proof (for_all_bytes
    (fun v => (fst (ReadHexByteFromBuffer (to_hexbyte v)) =? v)
              && String.eqb (snd (ReadHexByteFromBuffer (to_hexbyte v))) ""
              && String.eqb (to_hexbyte v) (hex02 v))
    ltac:(vm_compute; reflexivity) i Hi) as H.
  cbv beta in H.
  apply andb_prop in H as [H H3]. apply andb_prop in H as [H1 H2].
  apply Z.eqb_eq in H1. apply String.eqb_eq in H2. apply String.eqb_eq in H3.
  split; [|exact H3].
  destruct (ReadHexByteFromBuffer (to_hexbyte i)) as [a b]. simpl in H1, H2.
  now subst.
Qed.

Lemma to_hexbyte_round_trip_witness :
  0 <= 171 < 256
  /\ ReadHexByteFromBuffer (to_hexbyte 171) = (171, "")
  /\ to_hexbyte 171 = hex02 171.
Proof. split; [lia|]. apply (to_hexbyte_round_trip 171). lia. Defined.

Lemma from_hexchar_bound (c : ascii) : 0 <= from_hexchar c <= 15.
Proof.
  pose proof (for_all_chars
    (fun c => (0 <=? from_hexchar c) && (from_hexchar c <=? 15))
    ltac:(vm_compute; reflexivity) c) as H.
  cbv beta in H. apply andb_prop in H as [H1 H2]. lia.
Qed.

(** X2. [ReadHexByteFromBuffer] never fails on two characters: it yields
    16 times the value of the first plus the value of the second, a byte,
    where a character that is no hex digit counts as 0 and upper and lower
    case agree. *)
Theorem ReadHexByteFromBuffer_value (high low : ascii) (rest : string) :
  ReadHexByteFromBuffer (String high (String low rest))
  = (16 * from_hexchar high + from_hexchar low, rest)
  /\ 0 <= 16 * from_hexchar high + from_hexchar low < 256
  /\ (is_hexchar high = false -> from_hexchar high = 0)
  /\ map from_hexchar (list_ascii_of_string "ABCDEF")
     = map from_hexchar (list_ascii_of_string "abcdef").
Proof.
  pose proof (from_hexchar_bound high) as Hh.
  pose proof (from_hexchar_bound low) as Hl.
  split; [|split; [lia|split; [|reflexivity]]].
  - unfold ReadHexByteFromBuffer. f_equal.
    pose proof (for_all_bytes
      (fun h => (15 <? h)
                || forallb (fun l => to_uint8 (Z.lor (Z.shiftl h 4) (Z.of_nat l))
                                     =? 16 * h + Z.of_nat l) (seq 0 16))
      ltac:(vm_compute; reflexivity) (from_hexchar high) ltac:(lia)) as H.
    cbv beta in H. apply orb_prop in H as [H|H]; [lia|].
    rewrite forallb_forall in H.
    specialize (H (Z.to_nat (from_hexchar low))).
    rewrite Z2Nat.id in H by lia. apply Z.eqb_eq, H, in_seq. lia.
  - pose proof (for_all_chars
      (fun c => is_hexchar c || (from_hexchar c =? 0))
      ltac:(vm_compute; reflexivity) high) as H.
    cbv beta in H. intros Hn. rewrite Hn in H. simpl in H. lia.
Qed.

Lemma hex_value_snoc (s : string) (c : ascii) :
  hex_value (s +:+ str1 c) = hex_value s * 16 + from_hexchar c.
Proof.
  unfold hex_value.
  assert (H : forall acc,
    fold_left (fun acc c => acc * 16 + from_hexchar c)
      (list_ascii_of_string (s +:+ str1 c)) acc
    = fold_left (fun acc c => acc * 16 + from_hexchar c)
        (list_ascii_of_string s) acc * 16 + from_hexchar c).
  { induction s as [|x s IH]; intros acc; [reflexivity|].
    rewrite str_app_cons. simpl. apply IH. }
  apply H.
Qed.

Lemma all_hex_app (a b : string) : all_hex (a +:+ b) = all_hex a && all_hex b.
Proof.
  induction a as [|x a IH]; [reflexivity|].
  rewrite str_app_cons. simpl. rewrite IH, andb_assoc. reflexivity.
Qed.

Lemma digit_char_hex (d : Z) :
  0 <= d < 16 -> is_hexchar (digit_char d) = true /\ from_hexchar (digit_char d) = d.
Proof.
  intros Hd.
  pose proof (for_all_bytes
    (fun d => (15 <? d)
              || (is_hexchar (digit_char d) && (from_hexchar (digit_char d) =? d)))
    ltac:(vm_compute; reflexivity) d ltac:(lia)) as H.
  cbv beta in H. apply orb_prop in H as [H|H]; [lia|].
  apply andb_prop in H as [H1 H2]. split; [exact H1 | lia].
Qed.

(** The digits written for [n] in base 16 are hex digits whose value is
    [n]. *)
Lemma digits_aux_hex (fuel : nat) :
  forall (n : Z) (acc : string),
    0 <= n < 16 ^ Z.of_nat fuel ->
    exists ds,
      digits_aux fuel 16 n acc = ds +:+ acc
      /\ all_hex ds = true /\ hex_value ds = n.
Proof.
  induction fuel as [|fuel IH]; intros n acc Hn.
  - exists "". simpl in *. repeat split. unfold hex_value. simpl. lia.
  - simpl digits_aux.
    assert (Hd : 0 <= n mod 16 < 16) by (apply Z.mod_pos_bound; lia).
    destruct (digit_char_hex (n mod 16) Hd) as [Hh Hv].
    destruct (Z.eqb_spec (n / 16) 0) as [Hq|Hq].
    + exists (str1 (digit_char (n mod 16))). split; [reflexivity|].
      split; [simpl; now rewrite Hh|].
      unfold hex_value. simpl. rewrite Hv.
      pose proof (Z.div_mod n 16 ltac:(lia)). lia.
    + destruct (IH (n / 16) (String (digit_char (n mod 16)) acc)) as (ds & -> & Ha & Hval).
      { split; [apply Z.div_pos; lia|].
        apply Z.div_lt_upper_bound; [lia|].
        rewrite Nat2Z.inj_succ, Z.pow_succ_r in Hn by lia. lia. }
      exists (ds +:+ str1 (digit_char (n mod 16))). split.
      * rewrite str_app_assoc. reflexivity.
      * split.
        -- rewrite all_hex_app, Ha. simpl. now rewrite Hh.
        -- rewrite hex_value_snoc, Hval, Hv.
           pose proof (Z.div_mod n 16 ltac:(lia)). lia.
Qed.

Lemma take_hex_all (s : string) : all_hex s = true -> take_hex s = s.
Proof.
  induction s as [|c s IH]; simpl; [reflexivity|]. intros H.
  apply andb_prop in H as [Hc Hs]. rewrite Hc, (IH Hs). reflexivity.
Qed.

Lemma zeros_hex (k : nat) (s : string) :
  all_hex (replicate_char k "0" +:+ s) = all_hex s
  /\ hex_value (replicate_char k "0" +:+ s) = hex_value s.
Proof.
  induction k as [|k [IH1 IH2]]; [split; reflexivity|].
  simpl replicate_char. rewrite str_app_cons. split.
  - simpl. exact IH1.
  - unfold hex_value in *. simpl. exact IH2.
Qed.

Lemma hex_to_padded (bits : Z) (w : nat) (n : Z) :
  (1 <= w)%nat -> 0 <= n < 2 ^ bits -> n < 16 ^ 64 ->
  hex_to bits (pad_left w "0" (digits 16 n)) = Some n.
Proof.
  intros Hw Hn H64. unfold digits.
  destruct (digits_aux_hex 64 n "" ltac:(simpl Z.of_nat; lia)) as (ds & Hds & Hall & Hval).
  rewrite Hds, str_app_nil_r. unfold pad_left, hex_to.
  destruct (zeros_hex (w - String.length ds) ds) as [Hz1 Hz2].
  rewrite take_hex_all by (rewrite Hz1; exact Hall).
  rewrite Hz2, Hval.
  destruct (Nat.eqb_spec (String.length (replicate_char (w - String.length ds) "0" +:+ ds)) 0)
    as [Hlen|_].
  - rewrite str_length_app, replicate_char_length in Hlen.
    destruct ds; [|simpl in Hlen; lia].
    exfalso. clear Hz1 Hz2. simpl in Hlen. lia.
  - destruct (Z.ltb_spec n (2 ^ bits)); [reflexivity | lia].
Qed.

(** X3. What the register encoders write, [hex_to] reads back: the padded
    hex of a 32-bit (64-bit) value parses to that value, reduced to its
    width. *)
Theorem hex_to_padded_hex_round_trip (v : Z) :
  hex_to_u32 (u32_to_padded_hex v) = Some (to_uint32 v)
  /\ hex_to_u64 (u64_to_padded_hex v) = Some (to_uint64 v).
Proof.
  unfold hex_to_u32, hex_to_u64, u32_to_padded_hex, u64_to_padded_hex. split.
  - pose proof (Z.mod_pos_bound v (2 ^ 32) ltac:(lia)) as Hb. fold (to_uint32 v) in Hb.
    apply hex_to_padded; [lia | exact Hb|].
    apply Z.lt_trans with (2 ^ 32); [apply Hb | reflexivity].
  - pose proof (Z.mod_pos_bound v (2 ^ 64) ltac:(lia)) as Hb. fold (to_uint64 v) in Hb.
    apply hex_to_padded; [lia | exact Hb|].
    apply Z.lt_trans with (2 ^ 64); [apply Hb | reflexivity].
Qed.

(** ** More on the parser *)

Lemma store_all_keeps_bytes (l : string) (ck : Z) :
  ps_cmd (store_all l (mkParseState "" "" true ck))
  +:+ ps_data (store_all l (mkParseState "" "" true ck)) = l.
Proof.
  destruct l as [|c l]; [reflexivity|].
  destruct (Ascii.eqb c "q" || Ascii.eqb c "v") eqn:Hqv.
  - destruct (store_all_q_v c l ck Hqv) as [-> ->]. apply before_from_splitter.
  - apply orb_false_iff in Hqv as [Hq Hv].
    rewrite store_all_cons.
    destruct (is_splitter c) eqn:Hs.
    + assert (Hst : parse_store c (mkParseState "" "" true ck)
                    = mkParseState "" (str1 c) false ck).
      { unfold parse_store. simpl. rewrite Hs. reflexivity. }
      rewrite Hst, store_all_data by reflexivity. reflexivity.
    + assert (Hst : parse_store c (mkParseState "" "" true ck)
                    = mkParseState (str1 c) "" false ck).
      { unfold parse_store. simpl. rewrite Hs, Hq, Hv. reflexivity. }
      rewrite Hst, store_all_data by reflexivity. reflexivity.
Qed.

(** X4. The split loses and adds nothing: for every framed packet whose
    body the loop walks to its end, [cmd] followed by [data] is the
    unescaped body, whatever its first byte and whether or not the
    checksum matches. *)
Theorem ParsePacket_keeps_body (body tail : string) (out_cmd : GDBCommand) :
  wire_body_ok body = true ->
  let command :=
    snd (ParsePacket
           (String GdbStubControl.PacketStart (body +:+ String GdbStubControl.PacketEnd tail))
           out_cmd) in
  cmd command +:+ data command = unescape body.
Proof.
  intros Hok command. subst command.
  rewrite (ParsePacket_framed body tail out_cmd Hok). simpl.
  apply store_all_keeps_bytes.
Qed.

Lemma ParsePacket_keeps_body_witness :
  wire_body_ok "m1000,4" = true
  /\ cmd (snd (ParsePacket "$m1000,4#00" empty_command))
     +:+ data (snd (ParsePacket "$m1000,4#00" empty_command)) = unescape "m1000,4".
Proof.
  split; [reflexivity|].
  apply (ParsePacket_keeps_body "m1000,4" "00" empty_command). reflexivity.
Defined.

(** X5. In a framed packet whose body holds no byte 0 and no [#] and does
    not end in [}], a body whose first byte (after unescaping) is neither
    [q] nor [v] is split right behind that byte: [cmd] is the one byte and
    [data] the rest, even when the rest holds [:], [.] or [;].  When the
    first byte is itself one of the three, [cmd] is empty and the whole
    body is [data]. *)
Theorem ParsePacket_single_letter (body tail : string) (out_cmd : GDBCommand)
    (c : ascii) (l : string) :
  wire_body_ok body = true ->
  unescape body = String c l ->
  Ascii.eqb c "q" || Ascii.eqb c "v" = false ->
  let command :=
    snd (ParsePacket
           (String GdbStubControl.PacketStart (body +:+ String GdbStubControl.PacketEnd tail))
           out_cmd) in
  (is_splitter c = false -> cmd command = str1 c /\ data command = l)
  /\ (is_splitter c = true -> cmd command = "" /\ data command = String c l).
Proof.
  intros Hok Hbody Hqv command. subst command.
  rewrite (ParsePacket_framed body tail out_cmd Hok). simpl. rewrite Hbody.
  apply orb_false_iff in Hqv as [Hq Hv]. rewrite store_all_cons. split; intros Hs.
  - assert (Hst : parse_store c parse_start = mkParseState (str1 c) "" false 0).
    { unfold parse_store, parse_start. simpl. rewrite Hs, Hq, Hv. reflexivity. }
    rewrite Hst, store_all_data by reflexivity. split; reflexivity.
  - assert (Hst : parse_store c parse_start = mkParseState "" (str1 c) false 0).
    { unfold parse_store, parse_start. simpl. rewrite Hs. reflexivity. }
    rewrite Hst, store_all_data by reflexivity. split; reflexivity.
Qed.

Lemma ParsePacket_single_letter_witness :
  let command := snd (ParsePacket "$Z0,100,4#00" empty_command) in
  (is_splitter "Z" = false -> cmd command = "Z" /\ data command = "0,100,4")
  /\ (is_splitter "Z" = true -> cmd command = "" /\ data command = "Z0,100,4").
Proof.
  apply (ParsePacket_single_letter "Z0,100,4" "00" empty_command "Z"%char "0,100,4");
    reflexivity.
Defined.

Lemma plain_body_wire (s : string) :
  plain_body s = true ->
  wire_body_ok s = true /\ unescape s = s
  /\ forall acc, receiver_sum s acc
                 = fold_left (fun acc c => to_uint8 (acc + byte_of c))
                     (list_ascii_of_string s) acc.
Proof.
  induction s as [|c s IH]; simpl; intros H; [repeat split|].
  apply andb_prop in H as [H Hs]. apply andb_prop in H as [H H3].
  apply andb_prop in H as [H1 H2].
  apply negb_true_iff in H1, H2, H3.
  destruct (IH Hs) as (Hw & Hu & Hr).
  unfold ends_body, GdbStubControl.PacketEnd. rewrite H1, H2, H3. simpl.
  split; [exact Hw|]. split; [now rewrite Hu|].
  intros acc. apply Hr.
Qed.

(** X6. The stub reads its own packets: what [SendPacket] writes for a
    body without a byte 0, [#] or [}] is accepted by [ParsePacket], with
    the checksum of the body and with [cmd] followed by [data] equal to
    the body; the packet is the body between [$] and [#] plus two
    digits. *)
Theorem SendPacket_ParsePacket_round_trip (body : string) (out_cmd : GDBCommand) :
  plain_body body = true ->
  fst (ParsePacket (SendPacket body) out_cmd) = true
  /\ checksum (snd (ParsePacket (SendPacket body) out_cmd)) = sum_bytes body
  /\ cmd (snd (ParsePacket (SendPacket body) out_cmd))
     +:+ data (snd (ParsePacket (SendPacket body) out_cmd)) = body
  /\ String.length (SendPacket body) = (String.length body + 4)%nat.
Proof.
  intros Hplain. destruct (plain_body_wire body Hplain) as (Hw & Hu & Hr).
  assert (Hsum : 0 <= sum_bytes body < 256).
  { rewrite sum_bytes_plain. apply Z.mod_pos_bound. lia. }
  assert (Hland : Z.land (sum_bytes body) 255 = sum_bytes body).
  { change 255 with (Z.ones 8). rewrite Z.land_ones by lia.
    apply Z.mod_small. exact Hsum. }
  assert (Hdigits : ReadHexByteFromBuffer (hex02 (sum_bytes body)) = (sum_bytes body, ""))
    by (apply ReadHexByteFromBuffer_hex02, Hsum).
  unfold SendPacket. rewrite Hland.
  change (str1 GdbStubControl.PacketStart +:+ body +:+ str1 GdbStubControl.PacketEnd
          +:+ hex02 (sum_bytes body))
    with (String GdbStubControl.PacketStart
            (body +:+ String GdbStubControl.PacketEnd (hex02 (sum_bytes body)))).
  rewrite (ParsePacket_framed body _ out_cmd Hw), Hdigits, Hu. simpl.
  split; [|split; [reflexivity|split]].
  - apply Z.eqb_eq. rewrite Hr. reflexivity.
  - apply store_all_keeps_bytes.
  - rewrite str_length_app. simpl. f_equal.
    assert (Hlen : String.length (hex02 (sum_bytes body)) = 2%nat).
    { pose proof (for_all_bytes (fun v => (String.length (hex02 v) =? 2)%nat)
                    ltac:(vm_compute; reflexivity) (sum_bytes body) Hsum) as H.
      cbv beta in H. apply Nat.eqb_eq, H. }
    rewrite Hlen. lia.
Qed.

Lemma SendPacket_ParsePacket_round_trip_witness :
  plain_body "PacketSize=1024;qXfer:features:read+;qXfer:threads:read+" = true
  /\ fst (ParsePacket
            (SendPacket "PacketSize=1024;qXfer:features:read+;qXfer:threads:read+")
            empty_command) = true.
Proof.
  split; [reflexivity|].
  apply (SendPacket_ParsePacket_round_trip
           "PacketSize=1024;qXfer:features:read+;qXfer:threads:read+" empty_command).
  reflexivity.
Defined.

(** X7. How a packet may start: the empty packet and a packet whose first
    byte is not [$], [+] or 0x03 are rejected and leave [out_cmd] alone;
    one or two [+] before the [$] are skipped; three are not. *)
Theorem ParsePacket_start (c : ascii) (rest : string) (out_cmd : GDBCommand) :
  ParsePacket "" out_cmd = (false, out_cmd)
  /\ (Ascii.eqb c "$" || Ascii.eqb c "+" || Ascii.eqb c "003" = false ->
      ParsePacket (String c rest) out_cmd = (false, out_cmd))
  /\ ParsePacket (String "+" (String "$" rest)) out_cmd
     = ParsePacket (String "$" rest) out_cmd
  /\ ParsePacket (String "+" (String "+" (String "$" rest))) out_cmd
     = ParsePacket (String "$" rest) out_cmd
  /\ ParsePacket (String "+" (String "+" (String "+" rest))) out_cmd = (false, out_cmd).
Proof.
  split; [reflexivity|]. split; [|repeat split].
  intros H. apply orb_false_iff in H as [H H3]. apply orb_false_iff in H as [H1 H2].
  unfold ParsePacket. cbn [ReadCharFromBuffer].
  unfold GdbStubControl.PacketStart, GdbStubControl.Ack, GdbStubControl.Interrupt.
  rewrite H1, H2. cbv beta iota. rewrite H2. cbv beta iota. rewrite H3, H1. reflexivity.
Qed.

(** ** More on the receive loop *)

Lemma ProcessIncomingData_chunk (p : Processor) (chunk buf : string) (g : GDBStub) :
  chunk <> "" -> chunk <> str1 GdbStubControl.Interrupt ->
  ProcessIncomingData p (RecvBytes chunk) buf g
  = match ProcessIncomingData_loop (S (S (String.length (buf +:+ chunk)))) p false
            (mkIncoming [] (buf +:+ chunk) g) with
    | Returns st => Returns (true, st)
    | Undefined => Undefined
    | OutOfFuel => OutOfFuel
    end.
Proof.
  intros Hne Hni. destruct chunk as [|b0 rest]; [contradiction|].
  unfold ProcessIncomingData.
  replace (Ascii.eqb b0 GdbStubControl.Interrupt
           && (String.length (String b0 rest) =? 1)%nat) with false; [reflexivity|].
  symmetry. destruct (Ascii.eqb_spec b0 GdbStubControl.Interrupt) as [Hb|]; [|reflexivity].
  destruct rest; [|reflexivity]. exfalso. apply Hni. now rewrite Hb.
Qed.

(** X8. Bytes that do not complete a packet are only buffered: when the
    buffer with the new chunk holds no [#] followed by two bytes (and the
    chunk is not the lone interrupt byte), nothing is sent, nothing is
    dispatched and the buffer is the old buffer followed by the chunk. *)
Theorem ProcessIncomingData_incomplete (p : Processor) (chunk buf : string) (g : GDBStub) :
  chunk <> "" -> chunk <> str1 GdbStubControl.Interrupt ->
  has_packet (buf +:+ chunk) = false ->
  ProcessIncomingData p (RecvBytes chunk) buf g
  = Returns (true, mkIncoming [] (buf +:+ chunk) g).
Proof.
  intros Hne Hni Hno. rewrite ProcessIncomingData_chunk by assumption.
  rewrite ProcessIncomingData_loop_step. cbn [unread]. unfold has_packet in Hno.
  destruct (find_char GdbStubControl.PacketEnd (buf +:+ chunk)) as [e|]; [|reflexivity].
  rewrite Hno. reflexivity.
Qed.

Lemma ProcessIncomingData_incomplete_witness :
  "6" <> "" /\ "6" <> str1 GdbStubControl.Interrupt
  /\ has_packet ("$g#" +:+ "6") = false
  /\ ProcessIncomingData test_processor (RecvBytes "6") "$g#" test_stub
     = Returns (true, mkIncoming [] ("$g#" +:+ "6") test_stub).
Proof.
  split; [discriminate|]. split; [discriminate|]. split; [reflexivity|].
  apply (ProcessIncomingData_incomplete test_processor "6" "$g#" test_stub);
    [discriminate | discriminate | reflexivity].
Defined.

(** X9. A packet may arrive in pieces: if a first chunk leaves the buffer
    without a whole packet, reading a second chunk afterwards does exactly
    what reading the two chunks at once would have done (neither chunk
    being the lone interrupt byte). *)
Theorem ProcessIncomingData_reassembles (p : Processor) (chunk1 chunk2 buf : string)
    (g : GDBStub) :
  chunk1 <> "" -> chunk1 <> str1 GdbStubControl.Interrupt ->
  chunk2 <> "" -> chunk2 <> str1 GdbStubControl.Interrupt ->
  has_packet (buf +:+ chunk1) = false ->
  exists st1,
    ProcessIncomingData p (RecvBytes chunk1) buf g = Returns (true, st1)
    /\ extracted st1 = []
    /\ ProcessIncomingData p (RecvBytes chunk2) (unread st1) (stub st1)
       = ProcessIncomingData p (RecvBytes (chunk1 +:+ chunk2)) buf g.
Proof.
  intros H1 H1i H2 H2i Hno.
  exists (mkIncoming [] (buf +:+ chunk1) g). split.
  { rewrite ProcessIncomingData_chunk by assumption.
    rewrite ProcessIncomingData_loop_step. cbn [unread]. unfold has_packet in Hno.
    destruct (find_char GdbStubControl.PacketEnd (buf +:+ chunk1)) as [e|]; [|reflexivity].
    rewrite Hno. reflexivity. }
  split; [reflexivity|]. cbn [unread stub].
  rewrite !ProcessIncomingData_chunk; try assumption.
  - rewrite str_app_assoc. reflexivity.
  - destruct chunk1; [contradiction | discriminate].
  - destruct chunk1 as [|a [|b r]]; [contradiction | |discriminate].
    destruct chunk2; [contradiction | discriminate].
Qed.

Lemma ProcessIncomingData_reassembles_witness :
  exists st1,
    ProcessIncomingData test_processor (RecvBytes "$qSupp") "" test_stub = Returns (true, st1)
    /\ extracted st1 = []
    /\ ProcessIncomingData test_processor (RecvBytes "orted:xyz#dc") (unread st1) (stub st1)
       = ProcessIncomingData test_processor (RecvBytes ("$qSupp" +:+ "orted:xyz#dc")) ""
           test_stub.
Proof.
  apply (ProcessIncomingData_reassembles test_processor "$qSupp" "orted:xyz#dc" "" test_stub);
    try discriminate.
  reflexivity.
Defined.

Lemma react_all_app (p : Processor) (a b : list string) :
  forall g,
    react_all p (a ++ b) g = (g' ← react_all p a g; react_all p b g').
Proof.
  induction a as [|x a IH]; intros g; simpl; [reflexivity|].
  destruct (react p x g) as [g1|]; simpl; [apply IH | reflexivity].
Qed.

Lemma ProcessIncomingData_loop_reacts (fuel : nat) :
  forall (p : Processor) (st st' : Incoming),
    ProcessIncomingData_loop fuel p false st = Returns st' ->
    exists new,
      extracted st' = (extracted st ++ new)%list
      /\ react_all p new (stub st) = Some (stub st').
Proof.
  induction fuel as [|fuel IH]; intros p st st' H; [discriminate H|].
  rewrite ProcessIncomingData_loop_step in H.
  destruct (find_char GdbStubControl.PacketEnd (unread st)) as [e|].
  2:{ injection H as <-. exists []. rewrite app_nil_r. split; reflexivity. }
  destruct (e + 2 <? String.length (unread st))%nat.
  2:{ injection H as <-. exists []. rewrite app_nil_r. split; reflexivity. }
  cbv zeta in H.
  set (packet := take_str (e + 3) (unread st)) in *.
  assert (Hnext : forall g1,
            react p packet (stub st) = Some g1 ->
            ProcessIncomingData_loop fuel p false
              (mkIncoming (extracted st ++ [packet]) (drop_str (e + 3) (unread st)) g1)
            = Returns st' ->
            exists new,
              extracted st' = (extracted st ++ new)%list
              /\ react_all p new (stub st) = Some (stub st')).
  { intros g1 Hr Hl. apply IH in Hl as (new & Hex & Hall). cbn [extracted stub] in *.
    exists (packet :: new). split; [rewrite Hex, <- app_assoc; reflexivity|].
    simpl. rewrite Hr. exact Hall. }
  unfold react in Hnext.
  destruct (fst (ParsePacket packet empty_command)).
  - destruct (dispatch p _ (stub st)) as [[reply g1]|]; [|discriminate H].
    apply (Hnext g1 eq_refl H).
  - apply (Hnext _ eq_refl H).
Qed.

(** X10. Every packet the receiver extracts is answered once, in order:
    the stub a call leaves behind is the stub obtained by reacting to the
    extracted packets one after the other, with [+] and the reply packet
    for a packet that parses and [-] for one that does not. *)
Theorem ProcessIncomingData_reacts_in_order (p : Processor) (received : RecvResult)
    (buf : string) (g : GDBStub) (flag : bool) (st : Incoming) :
  ProcessIncomingData p received buf g = Returns (flag, st) ->
  react_all p (extracted st) g = Some (stub st).
Proof.
  intros H. destruct received as [|chunk].
  { injection H as _ <-. reflexivity. }
  destruct chunk as [|b0 rest]; [injection H as _ <-; reflexivity|].
  destruct (String.eqb_spec (String b0 rest) (str1 GdbStubControl.Interrupt)) as [Heq|Hne].
  - rewrite Heq, ProcessIncomingData_interrupt in H. injection H as _ <-. reflexivity.
  - rewrite ProcessIncomingData_chunk in H by (discriminate || exact Hne).
    destruct (ProcessIncomingData_loop _ p false _) as [st1| |] eqn:Hl; try discriminate H.
    injection H as _ <-.
    apply ProcessIncomingData_loop_reacts in Hl as (new & Hex & Hall).
    cbn [extracted stub] in *. rewrite Hex. exact Hall.
Qed.

Lemma ProcessIncomingData_reacts_in_order_witness :
  exists st,
    ProcessIncomingData test_processor (RecvBytes "$?#3f$?#00+$!#21") "" test_stub
    = Returns (true, st)
    /\ extracted st = ["$?#3f"; "$?#00"; "+$!#21"]
    /\ react_all test_processor (extracted st) test_stub = Some (stub st)
    /\ sent (stub st) = ["+"; "$S05#b8"; "-"; "+"; "$OK#9a"].
Proof.
  eexists. split; [vm_compute; reflexivity|]. split; [reflexivity|].
  split; [|reflexivity].
  apply (ProcessIncomingData_reacts_in_order test_processor
           (RecvBytes "$?#3f$?#00+$!#21") "" test_stub true).
  vm_compute. reflexivity.
Defined.

(** ** Register and memory reads *)

Lemma set_cache_same (g : GDBStub) : set_cache (cache_ g) g = g.
Proof. destruct g; reflexivity. Qed.

(** X11. Register reads that need no thread: [p] with a register number
    above 70 replies [E01], and [p] for msr (65), xer (69) or fpscr (70)
    replies eight [x]; both leave the stub as it was and are defined even
    when the current thread is unknown. *)
Theorem ReadRegister_without_thread (p : Processor) (command : GDBCommand) (g : GDBStub)
    (rid : Z) :
  cmd command = "p" ->
  hex_to_u32 (data command) = Some rid ->
  (70 < rid -> HandleGDBCommand p command g = Some (kGdbReplyError, g))
  /\ (rid = 65 \/ rid = 69 \/ rid = 70 ->
      HandleGDBCommand p command g = Some ("xxxxxxxx", g)).
Proof.
  intros Hcmd Hrid.
  assert (Hp : HandleGDBCommand p command g
               = with_cache g (ReadRegister_cmd (data command) (cache_ g))).
  { unfold HandleGDBCommand. rewrite Hcmd. reflexivity. }
  rewrite Hp. unfold with_cache, ReadRegister_cmd. rewrite Hrid. cbn [mbind option_bind].
  split.
  - intros Hbig. unfold ReadRegister.
    repeat match goal with
    | |- context [rid =? ?k] => destruct (Z.eqb_spec rid k); [lia|]
    end.
    destruct (Z.ltb_spec 70 rid); [|lia]. simpl. rewrite set_cache_same. reflexivity.
  - intros [-> | [-> | ->]]; simpl; rewrite set_cache_same; reflexivity.
Qed.

Lemma ReadRegister_without_thread_witness :
  (70 < 71 ->
   HandleGDBCommand test_processor (mkGDBCommand "p" "47" 0) initial_stub
   = Some (kGdbReplyError, initial_stub))
  /\ (71 = 65 \/ 71 = 69 \/ 71 = 70 ->
      HandleGDBCommand test_processor (mkGDBCommand "p" "47" 0) initial_stub
      = Some ("xxxxxxxx", initial_stub)).
Proof.
  apply (ReadRegister_without_thread test_processor (mkGDBCommand "p" "47" 0)
           initial_stub 71); reflexivity.
Defined.

(** X12. A memory read at an address with no heap, with a failing
    protection query, or without read permission replies [E01], whatever
    the length asked for, and reads no byte. *)
Theorem ReadMemory_refused (p : Processor) (data : string) (addr len : Z) :
  hex_to_u32 (substr_to (find_char "," data) data) = Some addr ->
  hex_to_u32 (substr_after (find_char "," data) data) = Some len ->
  (LookupHeap (memory p) addr = None
   \/ exists heap,
        LookupHeap (memory p) addr = Some heap
        /\ (QueryProtect (memory p) heap addr = None
            \/ exists protect,
                 QueryProtect (memory p) heap addr = Some protect
                 /\ Z.land protect (kMemoryProtectRead (memory p))
                    <> kMemoryProtectRead (memory p))) ->
  ReadMemory p data = Some kGdbReplyError.
Proof.
  intros Haddr Hlen Hbad. unfold ReadMemory. rewrite Haddr, Hlen.
  cbn [mbind option_bind].
  destruct Hbad as [Hh|(heap & Hh & [Hq|(protect & Hq & Hprot)])];
    rewrite Hh; [reflexivity | rewrite Hq; reflexivity | rewrite Hq].
  destruct (Z.eqb_spec (Z.land protect (kMemoryProtectRead (memory p)))
              (kMemoryProtectRead (memory p))); [contradiction | reflexivity].
Qed.

Lemma ReadMemory_refused_witness :
  ReadMemory test_processor "10000,10" = Some kGdbReplyError.
Proof.
  apply (ReadMemory_refused test_processor "10000,10" 65536 16); try reflexivity.
  left. reflexivity.
Defined.

Lemma ReadMemory_loop_hexdump (m : Memory) (bytes : Z -> Z) (n : nat) :
  forall (mem : Z) (result : string),
    (forall a, mem <= a < mem + Z.of_nat n -> host_byte m a = Some (bytes a)) ->
    ReadMemory_loop m n mem result = Some (result +:+ hexdump bytes n mem).
Proof.
  induction n as [|n IH]; intros mem result Hb.
  - simpl. now rewrite str_app_nil_r.
  - simpl. rewrite (Hb mem) by lia. cbn [mbind option_bind].
    rewrite IH by (intros a Ha; apply Hb; lia).
    rewrite str_app_assoc. reflexivity.
Qed.

Lemma to_hexbyte_two (i : Z) :
  0 <= i < 256 ->
  exists high low,
    to_hexbyte i = String high (String low "")
    /\ to_uint8 (Z.lor (Z.shiftl (from_hexchar high) 4) (from_hexchar low)) = i.
Proof.
  intros Hi. unfold to_hexbyte. eexists. eexists. split; [reflexivity|].
  pose proof (for_all_bytes
    (fun v => fst (ReadHexByteFromBuffer (to_hexbyte v)) =? v)
    ltac:(vm_compute; reflexivity) i Hi) as H.
  cbv beta in H. apply Z.eqb_eq in H. exact H.
Qed.

Lemma hexdump_length (bytes : Z -> Z) (n : nat) (mem : Z) :
  String.length (hexdump bytes n mem) = (2 * n)%nat.
Proof.
  revert mem. induction n as [|n IH]; intros mem; [reflexivity|].
  simpl hexdump. rewrite str_length_app, IH.
  destruct (to_hexbyte_two (to_uint8 (bytes mem))) as (h & l & -> & _).
  { apply Z.mod_pos_bound. lia. }
  simpl. lia.
Qed.

Lemma hexdump_decode (bytes : Z -> Z) (n : nat) :
  forall (mem : Z) (i : nat),
    (i < n)%nat ->
    fst (ReadHexByteFromBuffer (drop_str (2 * i) (hexdump bytes n mem)))
    = to_uint8 (bytes (mem + Z.of_nat i)).
Proof.
  induction n as [|n IH]; intros mem i Hi; [lia|].
  simpl hexdump.
  destruct (to_hexbyte_two (to_uint8 (bytes mem))) as (h & l & -> & Hv).
  { apply Z.mod_pos_bound. lia. }
  destruct i as [|i].
  - simpl. rewrite Z.add_0_r. exact Hv.
  - replace (2 * S i)%nat with (S (S (2 * i))) by lia.
    rewrite !str_app_cons. cbn [drop_str]. rewrite str_app_nil_l.
    rewrite IH by lia. f_equal. f_equal. lia.
Qed.

(** X13. A memory read on a readable heap replies with two hex digits per
    byte, in address order: the reply is 2 * len characters long and its
    i-th pair reads back as the i-th byte behind the translated address.
    The [E01] kept for a non-empty read that produced nothing is never
    sent. *)
Theorem ReadMemory_reads_bytes (p : Processor) (data : string) (addr len : Z)
    (heap : nat) (protect : Z) (bytes : Z -> Z) :
  hex_to_u32 (substr_to (find_char "," data) data) = Some addr ->
  hex_to_u32 (substr_after (find_char "," data) data) = Some len ->
  LookupHeap (memory p) addr = Some heap ->
  QueryProtect (memory p) heap addr = Some protect ->
  Z.land protect (kMemoryProtectRead (memory p)) = kMemoryProtectRead (memory p) ->
  (forall a,
     TranslateVirtual (memory p) addr <= a < TranslateVirtual (memory p) addr + len ->
     host_byte (memory p) a = Some (bytes a)) ->
  exists reply,
    ReadMemory p data = Some reply
    /\ String.length reply = (2 * Z.to_nat len)%nat
    /\ (forall i,
          (i < Z.to_nat len)%nat ->
          fst (ReadHexByteFromBuffer (drop_str (2 * i) reply))
          = to_uint8 (bytes (TranslateVirtual (memory p) addr + Z.of_nat i)))
    /\ (0 < len -> reply <> kGdbReplyError).
Proof.
  intros Haddr Hlen Hheap Hprot Hread Hbytes.
  assert (Hrange : 0 <= len < 2 ^ 32).
  { unfold hex_to_u32, hex_to in Hlen.
    destruct (String.length _ =? 0)%nat; [discriminate Hlen|].
    destruct (Z.ltb_spec (hex_value (take_hex (substr_after (find_char "," data) data)))
                (2 ^ 32)); [|discriminate Hlen].
    injection Hlen as <-. split; [|assumption].
    generalize (take_hex (substr_after (find_char "," data) data)). intros s.
    unfold hex_value.
    assert (Hf : forall l acc, 0 <= acc ->
              0 <= fold_left (fun acc c => acc * 16 + from_hexchar c) l acc).
    { induction l as [|c l IH]; intros acc Hacc; simpl; [exact Hacc|].
      apply IH. pose proof (from_hexchar_bound c). lia. }
    apply Hf. lia. }
  set (mem := TranslateVirtual (memory p) addr) in *.
  exists (hexdump bytes (Z.to_nat len) mem).
  assert (Hl : String.length (hexdump bytes (Z.to_nat len) mem) = (2 * Z.to_nat len)%nat)
    by apply hexdump_length.
  split; [|split; [exact Hl|split]].
  - unfold ReadMemory. rewrite Haddr, Hlen. cbn [mbind option_bind].
    rewrite Hheap, Hprot, Hread, Z.eqb_refl. cbn [negb]. fold mem.
    rewrite (ReadMemory_loop_hexdump (memory p) bytes)
      by (intros a Ha; apply Hbytes; lia).
    cbn [mbind option_bind]. rewrite str_app_nil_l, Hl.
    destruct (Z.eqb_spec len 0) as [->|Hne]; [reflexivity|].
    destruct (Nat.eqb_spec (2 * Z.to_nat len) 0); [lia | reflexivity].
  - intros i Hi. apply hexdump_decode, Hi.
  - intros Hpos Heq. rewrite Heq in Hl. simpl in Hl. lia.
Qed.

Lemma ReadMemory_reads_bytes_witness :
  exists reply,
    ReadMemory test_processor "1000,4" = Some reply
    /\ String.length reply = (2 * Z.to_nat 4)%nat
    /\ (forall i,
          (i < Z.to_nat 4)%nat ->
          fst (ReadHexByteFromBuffer (drop_str (2 * i) reply))
          = to_uint8 ((fun _ => 171)
                        (TranslateVirtual (memory test_processor) 4096 + Z.of_nat i)))
    /\ (0 < 4 -> reply <> kGdbReplyError).
Proof.
  apply (ReadMemory_reads_bytes test_processor "1000,4" 4096 4 O 1 (fun _ => 171));
    try reflexivity.
Defined.

(** ** More on the breakpoint registry *)

Lemma installed_snoc (calls : list ProcCall) (call : ProcCall) :
  installed (calls ++ [call]) = installed_after (installed calls) call.
Proof. unfold installed. rewrite fold_left_app. reflexivity. Qed.

Lemma filter_keeps (P : nat -> bool) (l : list nat) :
  (forall x, In x l -> P x = true) -> List.filter P l = l.
Proof.
  induction l as [|x l IH]; intros H; simpl; [reflexivity|].
  rewrite (H x (or_introl eq_refl)), IH; [reflexivity|].
  intros y Hy. apply H. right. exact Hy.
Qed.

Lemma filter_handle_middle (l1 l2 : list Breakpoint) (bp : Breakpoint) :
  NoDup (map bp_handle (l1 ++ bp :: l2)) ->
  List.filter (fun x => negb (x =? bp_handle bp)%nat) (map bp_handle (l1 ++ bp :: l2))
  = map bp_handle (l1 ++ l2).
Proof.
  intros Hnd. rewrite !map_app in *. simpl in *.
  apply NoDup_app in Hnd as (_ & Hl1 & Hnd2). apply NoDup_cons in Hnd2 as [Hl2 _].
  rewrite List.filter_app. simpl. rewrite Nat.eqb_refl. simpl.
  rewrite !filter_keeps; [reflexivity | |].
  - intros x Hx. apply negb_true_iff, Nat.eqb_neq. intros ->.
    apply Hl2, list_elem_of_In, Hx.
  - intros x Hx. apply negb_true_iff, Nat.eqb_neq. intros ->.
    apply (Hl1 (bp_handle bp)); [apply list_elem_of_In, Hx|].
    apply list_elem_of_In. left. reflexivity.
Qed.

Lemma DeleteCodeBreakpoint_ptr_installed (h : nat) (g : GDBStub) :
  registry_ok g ->
  installed (proc_calls g) = map bp_handle (all_breakpoints (registry g)) ->
  installed (proc_calls (DeleteCodeBreakpoint_ptr h g))
  = map bp_handle (all_breakpoints (registry (DeleteCodeBreakpoint_ptr h g))).
Proof.
  intros (Hnd & _) Hinst. unfold DeleteCodeBreakpoint_ptr. fold (registry g).
  destruct (list_find _ _) as [[i bp]|] eqn:Hfind; [|exact Hinst].
  apply list_find_Some in Hfind as (Hi & Hh & _).
  unfold registry at 2. simpl. rewrite installed_snoc, Hinst. simpl.
  rewrite delete_take_drop.
  rewrite <- (take_drop_middle _ _ _ Hi) in Hnd |- * at 1.
  rewrite <- Hh. apply filter_handle_middle, Hnd.
Qed.

Lemma fold_remove_calls (l : list Breakpoint) :
  forall g,
    proc_calls (fold_left (fun g b => call_processor (CallRemoveBreakpoint (bp_handle b)) g)
                  l g)
    = (proc_calls g ++ map (fun b => CallRemoveBreakpoint (bp_handle b)) l)%list.
Proof.
  induction l as [|b l IH]; intros g; simpl; [now rewrite app_nil_r|].
  rewrite IH. simpl. rewrite <- app_assoc. reflexivity.
Qed.

Lemma remove_all_installed (l : list Breakpoint) :
  forall handles,
    (forall h, In h handles -> In h (map bp_handle l)) ->
    fold_left installed_after (map (fun b => CallRemoveBreakpoint (bp_handle b)) l) handles
    = [].
Proof.
  induction l as [|b l IH]; intros handles Hsub; simpl.
  - destruct handles as [|h hs]; [reflexivity|]. destruct (Hsub h (or_introl eq_refl)).
  - apply IH. intros h Hh. apply filter_In in Hh as [Hh Hne].
    apply negb_true_iff, Nat.eqb_neq in Hne.
    destruct (Hsub h Hh) as [Heq|Hin]; [congruence | exact Hin].
Qed.

Lemma DebuggerDetached_installed (p : Processor) (g : GDBStub) :
  installed (proc_calls g) = map bp_handle (all_breakpoints (registry g)) ->
  installed (proc_calls (snd (DebuggerDetached p g))) = [].
Proof.
  intros Hinst.
  assert (Hrem : installed
            (proc_calls g
             ++ map (fun b => CallRemoveBreakpoint (bp_handle b))
                  (all_breakpoints (registry g))) = []).
  { unfold installed. rewrite fold_left_app. apply remove_all_installed.
    intros h Hh. fold (installed (proc_calls g)) in Hh. rewrite Hinst in Hh. exact Hh. }
  unfold DebuggerDetached. cbv zeta.
  destruct (ExecutionState_eqb (execution_state p) kPaused); simpl.
  - rewrite fold_remove_calls, installed_snoc. fold (registry g). rewrite Hrem. reflexivity.
  - rewrite fold_remove_calls. exact Hrem.
Qed.

Lemma OnDetached_loop_installed (fuel : nat) :
  forall g,
    registry_ok g ->
    installed (proc_calls g) = map bp_handle (all_breakpoints (registry g)) ->
    installed (proc_calls (OnDetached_loop fuel g))
    = map bp_handle (all_breakpoints (registry (OnDetached_loop fuel g))).
Proof.
  induction fuel as [|fuel IH]; intros g Hok Hinst; simpl; [exact Hinst|].
  destruct (all_breakpoints (breakpoints (cache_ g))) eqn:Hall; [exact Hinst|].
  apply IH; [apply DeleteCodeBreakpoint_ptr_ok, Hok|].
  apply DeleteCodeBreakpoint_ptr_installed; assumption.
Qed.

Lemma run_op_installed (op : RegistryOp) (g g' : GDBStub) :
  registry_ok g ->
  installed (proc_calls g) = map bp_handle (all_breakpoints (registry g)) ->
  run_op op g = Some g' ->
  installed (proc_calls g') = map bp_handle (all_breakpoints (registry g')).
Proof.
  intros Hok Hinst Hrun. destruct op as [address hosts|address|p|]; cbn [run_op] in Hrun.
  - destruct (scan_collision_registry g address hosts Hok) as ([|] & _ & Hhit).
    + rewrite (CreateCodeBreakpoint_collision g address hosts Hok) in Hrun
        by (apply Hhit; reflexivity).
      simpl in Hrun. injection Hrun as <-. exact Hinst.
    + destruct (CreateCodeBreakpoint_free g address hosts Hok)
        as (g1 & Hc & _ & Hall & Hcalls).
      { intros Hcol. apply Hhit in Hcol. discriminate Hcol. }
      rewrite Hc in Hrun. simpl in Hrun. injection Hrun as <-.
      rewrite Hcalls, Hall, installed_snoc, Hinst, map_app. reflexivity.
  - injection Hrun as <-. unfold DeleteCodeBreakpoint.
    destruct (LookupBreakpointAtAddress address g); [|exact Hinst].
    apply DeleteCodeBreakpoint_ptr_installed; assumption.
  - assert (Hg : g' = snd (DebuggerDetached p g)) by congruence. subst g'.
    rewrite (DebuggerDetached_installed p g Hinst), DebuggerDetached_registry.
    reflexivity.
  - injection Hrun as <-. apply OnDetached_loop_installed; assumption.
Qed.

Lemma run_ops_installed (ops : list RegistryOp) :
  forall g g',
    registry_ok g ->
    installed (proc_calls g) = map bp_handle (all_breakpoints (registry g)) ->
    run_ops ops g = Some g' ->
    installed (proc_calls g') = map bp_handle (all_breakpoints (registry g')).
Proof.
  induction ops as [|op ops IH]; intros g g' Hok Hinst Hrun; simpl in Hrun.
  - injection Hrun as <-. exact Hinst.
  - destruct (run_op_ok op g Hok) as (g1 & Hop & Hok1). rewrite Hop in Hrun.
    apply (IH g1 g' Hok1); [|exact Hrun].
    apply (run_op_installed op g g1 Hok Hinst Hop).
Qed.

(** X14. The registry and the Processor never disagree: after any sequence
    of Insert, Remove and RemoveAll operations the breakpoints installed
    with the Processor ([AddBreakpoint] calls not yet undone by a
    [RemoveBreakpoint]) are exactly the registered ones, in the order of
    the owning vector. *)
Theorem installed_breakpoints_are_registered (ops : list RegistryOp) :
  exists g,
    run_ops ops initial_stub = Some g
    /\ installed (proc_calls g) = map bp_handle (all_breakpoints (registry g)).
Proof.
  destruct (run_ops_ok ops initial_stub registry_ok_initial) as (g & Hrun & _).
  exists g. split; [exact Hrun|].
  apply (run_ops_installed ops initial_stub g registry_ok_initial eq_refl Hrun).
Qed.

Lemma stub_with_breakpoint_ok : registry_ok stub_with_breakpoint.
Proof.
  unfold stub_with_breakpoint.
  destruct (run_ops_ok [OpInsert 2181038080 [140000]] initial_stub registry_ok_initial)
    as (g & -> & Hok).
  exact Hok.
Qed.

Lemma to_uint32_uint64 (a : Z) : to_uint32 (to_uint64 a) = to_uint32 a.
Proof.
  rewrite to_uint32_of_uint64. unfold to_uint32. apply Z.mod_mod. lia.
Qed.

Lemma registry_eta (g : GDBStub) :
  mkBreakpointState (all_breakpoints (registry g))
    (code_breakpoints_by_guest_address (registry g)) = registry g.
Proof. destruct (registry g). reflexivity. Qed.

Lemma DeleteCodeBreakpoint_found (address : Z) (h : nat) (g : GDBStub) :
  registry_ok g -> LookupBreakpointAtAddress address g = Some h ->
  exists i bp,
    all_breakpoints (registry g) !! i = Some bp
    /\ bp_handle bp = h
    /\ DeleteCodeBreakpoint address g
       = set_registry
           (mkBreakpointState (delete i (all_breakpoints (registry g)))
              (delete (to_uint32 address)
                 (code_breakpoints_by_guest_address (registry g))))
           (call_processor (CallRemoveBreakpoint h) g).
Proof.
  intros Hok Hl. pose proof Hok as (Hnd & _ & Hmap & _).
  pose proof Hl as Hl'. unfold LookupBreakpointAtAddress in Hl'. fold (registry g) in Hl'.
  apply Hmap in Hl' as (b & Hb & Hbh & Hbg).
  apply list_elem_of_In, list_elem_of_lookup in Hb as (j & Hj).
  unfold DeleteCodeBreakpoint. rewrite Hl.
  unfold DeleteCodeBreakpoint_ptr. fold (registry g).
  destruct (list_find _ _) as [[i bp]|] eqn:Hfind.
  - apply list_find_Some in Hfind as (Hi & Hh & _).
    assert (Hij : i = j).
    { apply (NoDup_lookup (map bp_handle (all_breakpoints (registry g))) i j h Hnd).
      - change (map bp_handle) with (fmap (M:=list) bp_handle).
        rewrite list_lookup_fmap, Hi. simpl. congruence.
      - change (map bp_handle) with (fmap (M:=list) bp_handle).
        rewrite list_lookup_fmap, Hj. simpl. congruence. }
    subst j. assert (Hbp : bp = b) by congruence. subst b.
    exists i, bp. split; [exact Hi|]. split; [exact Hh|].
    rewrite Hbg. reflexivity.
  - exfalso. apply list_find_None in Hfind.
    exact (Forall_lookup_1 _ _ _ _ Hfind Hj Hbh).
Qed.

(** X15. Removing a breakpoint is idempotent.  In a well-formed registry
    [DeleteCodeBreakpoint] leaves no breakpoint at the address, a second
    call for the same address changes nothing, the owning vector loses one
    breakpoint when the address was registered and none otherwise, and the
    lookup of every address that differs modulo 2^32 is unaffected. *)
Theorem DeleteCodeBreakpoint_idempotent (address : Z) (g : GDBStub) :
  registry_ok g ->
  LookupBreakpointAtAddress address (DeleteCodeBreakpoint address g) = None
  /\ DeleteCodeBreakpoint address (DeleteCodeBreakpoint address g)
     = DeleteCodeBreakpoint address g
  /\ length (all_breakpoints (registry (DeleteCodeBreakpoint address g)))
     = (length (all_breakpoints (registry g))
        - match LookupBreakpointAtAddress address g with Some _ => 1 | None => 0 end)%nat
  /\ (forall other,
        to_uint32 other <> to_uint32 address ->
        LookupBreakpointAtAddress other (DeleteCodeBreakpoint address g)
        = LookupBreakpointAtAddress other g).
Proof.
  intros Hok.
  assert (Hnone : LookupBreakpointAtAddress address (DeleteCodeBreakpoint address g) = None).
  { destruct (LookupBreakpointAtAddress address g) as [h|] eqn:Hl.
    - destruct (DeleteCodeBreakpoint_found address h g Hok Hl) as (i & bp & _ & _ & ->).
      unfold LookupBreakpointAtAddress. simpl. apply lookup_delete_eq.
    - unfold DeleteCodeBreakpoint. rewrite Hl. exact Hl. }
  split; [exact Hnone|]. split.
  { unfold DeleteCodeBreakpoint at 1. rewrite Hnone. reflexivity. }
  destruct (LookupBreakpointAtAddress address g) as [h|] eqn:Hl.
  - destruct (DeleteCodeBreakpoint_found address h g Hok Hl) as (i & bp & Hi & _ & ->).
    split.
    + unfold registry at 1. simpl. apply length_delete. exists bp. exact Hi.
    + intros other Hne. unfold LookupBreakpointAtAddress. simpl.
      apply lookup_delete_ne. congruence.
  - unfold DeleteCodeBreakpoint. rewrite Hl. split; [lia | reflexivity].
Qed.

Lemma DeleteCodeBreakpoint_idempotent_witness :
  LookupBreakpointAtAddress 2181038080 stub_with_breakpoint = Some 0%nat
  /\ LookupBreakpointAtAddress 2181038080
       (DeleteCodeBreakpoint 2181038080 stub_with_breakpoint) = None.
Proof.
  split; [vm_compute; reflexivity|].
  apply (DeleteCodeBreakpoint_idempotent 2181038080 stub_with_breakpoint
           stub_with_breakpoint_ok).
Defined.

Lemma CreateCodeBreakpoint_free_map (g g1 : GDBStub) (addr : Z) (hosts : list Z) :
  registry_ok g -> ~ collides (registry g) addr hosts ->
  CreateCodeBreakpoint addr hosts g = Some (true, g1) ->
  code_breakpoints_by_guest_address (registry g) !! to_uint32 addr = None
  /\ code_breakpoints_by_guest_address (registry g1)
     = <[to_uint32 addr := next_handle g]>
         (code_breakpoints_by_guest_address (registry g)).
Proof.
  intros Hok Hfree Hc.
  destruct (scan_collision_registry g addr hosts Hok) as (hit & Hscan & Hhit).
  destruct hit; [exfalso; apply Hfree, Hhit; reflexivity|]. clear Hhit.
  destruct Hok as (_ & _ & Hmap & _).
  assert (Hnone : code_breakpoints_by_guest_address (registry g) !! to_uint32 addr = None).
  { destruct (code_breakpoints_by_guest_address (registry g) !! to_uint32 addr)
      as [h|] eqn:Hl; [|reflexivity].
    exfalso. apply Hmap in Hl as (b & Hb & _ & Hg).
    apply Hfree. exists b. split; [exact Hb|]. left. rewrite to_uint32_uint64. exact Hg. }
  split; [exact Hnone|].
  unfold CreateCodeBreakpoint in Hc. unfold registry in Hscan, Hnone. cbv zeta in Hc.
  rewrite Hscan in Hc. cbn [mbind option_bind] in Hc.
  unfold guest_address in Hc. cbn [address bp_handle] in Hc.
  rewrite to_uint32_uint64, Hnone in Hc.
  injection Hc as <-. reflexivity.
Qed.

(** X16. Insert and Remove are inverse on the registry.  When the new
    breakpoint collides with no registered one, [CreateCodeBreakpoint]
    succeeds, [LookupBreakpointAtAddress] then finds the new breakpoint at
    its address, and [DeleteCodeBreakpoint] for that address restores the
    registry as it was before the insertion; the Processor has seen one
    [AddBreakpoint] and one [RemoveBreakpoint] for the same breakpoint. *)
Theorem CreateCodeBreakpoint_then_delete (address : Z) (hosts : list Z) (g : GDBStub) :
  registry_ok g -> ~ collides (registry g) address hosts ->
  exists g1,
    CreateCodeBreakpoint address hosts g = Some (true, g1)
    /\ LookupBreakpointAtAddress address g1 = Some (next_handle g)
    /\ registry (DeleteCodeBreakpoint address g1) = registry g
    /\ proc_calls (DeleteCodeBreakpoint address g1)
       = (proc_calls g
            ++ [CallAddBreakpoint (next_handle g);
                CallRemoveBreakpoint (next_handle g)])%list.
Proof.
  intros Hok Hfree.
  destruct (CreateCodeBreakpoint_free g address hosts Hok Hfree)
    as (g1 & Hc & Hok1 & Hall & Hcalls).
  destruct (CreateCodeBreakpoint_free_map g g1 address hosts Hok Hfree Hc) as [Hnone Hmap1].
  exists g1. split; [exact Hc|].
  assert (Hl : LookupBreakpointAtAddress address g1 = Some (next_handle g)).
  { unfold LookupBreakpointAtAddress. fold (registry g1). rewrite Hmap1.
    apply lookup_insert_eq. }
  split; [exact Hl|].
  destruct (DeleteCodeBreakpoint_found address _ g1 Hok1 Hl) as (i & bp & Hi & Hh & ->).
  split; [|simpl; rewrite Hcalls, <- app_assoc; reflexivity].
  unfold registry at 1. simpl. rewrite Hmap1. rewrite Hall in Hi |- *.
  rewrite (delete_insert_id _ _ _ Hnone).
  assert (Hidx : i = length (all_breakpoints (registry g))).
  { apply lookup_app_Some in Hi as [Hi|[Hle Hi]].
    - exfalso. destruct Hok as (_ & Hlt & _).
      assert (Hb : In bp (all_breakpoints (registry g))).
      { apply list_elem_of_In, list_elem_of_lookup. exists i. exact Hi. }
      specialize (Hlt bp Hb). lia.
    - destruct (i - length (all_breakpoints (registry g)))%nat eqn:Hd;
        [lia | destruct n; discriminate Hi]. }
  rewrite Hidx, delete_middle, app_nil_r. apply registry_eta.
Qed.

Lemma CreateCodeBreakpoint_then_delete_witness :
  exists g1,
    CreateCodeBreakpoint 4096 [150000] stub_with_breakpoint = Some (true, g1)
    /\ LookupBreakpointAtAddress 4096 g1 = Some (next_handle stub_with_breakpoint)
    /\ registry (DeleteCodeBreakpoint 4096 g1) = registry stub_with_breakpoint
    /\ proc_calls (DeleteCodeBreakpoint 4096 g1)
       = (proc_calls stub_with_breakpoint
            ++ [CallAddBreakpoint (next_handle stub_with_breakpoint);
                CallRemoveBreakpoint (next_handle stub_with_breakpoint)])%list.
Proof.
  apply (CreateCodeBreakpoint_then_delete 4096 [150000] stub_with_breakpoint
           stub_with_breakpoint_ok).
  intros (b & Hb & Hcol). vm_compute in Hb. destruct Hb as [<-|[]].
  destruct Hcol as [Hg|(a & Ha & Hin)].
  - vm_compute in Hg. discriminate Hg.
  - destruct Ha as [<-|[]]. destruct Hin as [Hin|[]]. discriminate Hin.
Defined.

(** X17. Guest addresses are compared modulo 2^32.  Once a breakpoint has
    been inserted at an address, inserting at any address with the same
    low 32 bits is refused, whatever its host addresses, and the refusal
    leaves the registry and the calls made to the Processor as they
    were. *)
Theorem CreateCodeBreakpoint_aliases (addr other : Z) (hosts hosts' : list Z)
    (g g1 : GDBStub) :
  registry_ok g ->
  CreateCodeBreakpoint addr hosts g = Some (true, g1) ->
  to_uint32 other = to_uint32 addr ->
  exists g2,
    CreateCodeBreakpoint other hosts' g1 = Some (false, g2)
    /\ registry g2 = registry g1
    /\ proc_calls g2 = proc_calls g1.
Proof.
  intros Hok Hc Halias.
  destruct (scan_collision_registry g addr hosts Hok) as ([|] & _ & Hhit).
  { rewrite (CreateCodeBreakpoint_collision g addr hosts Hok) in Hc
      by (apply Hhit; reflexivity).
    discriminate Hc. }
  destruct (CreateCodeBreakpoint_free g addr hosts Hok) as (g' & Hc' & Hok1 & Hall & _).
  { intros Hcol. apply Hhit in Hcol. discriminate Hcol. }
  assert (Hg : g' = g1) by congruence. subst g'.
  assert (Hcol : collides (registry g1) other hosts').
  { exists (mkBreakpoint (next_handle g) (to_uint64 addr) hosts). split.
    - rewrite Hall. apply in_or_app. right. left. reflexivity.
    - left. unfold guest_address. cbn [address].
      rewrite !to_uint32_uint64. symmetry. exact Halias. }
  rewrite (CreateCodeBreakpoint_collision g1 other hosts' Hok1 Hcol).
  eexists. split; [reflexivity|]. split; reflexivity.
Qed.

Lemma CreateCodeBreakpoint_aliases_witness :
  exists g2,
    CreateCodeBreakpoint (2181038080 + 2 ^ 32) [150000] stub_with_breakpoint
    = Some (false, g2)
    /\ registry g2 = registry stub_with_breakpoint
    /\ proc_calls g2 = proc_calls stub_with_breakpoint.
Proof.
  apply (CreateCodeBreakpoint_aliases 2181038080 (2181038080 + 2 ^ 32) [140000] [150000]
           initial_stub stub_with_breakpoint registry_ok_initial).
  - vm_compute. reflexivity.
  - reflexivity.
Defined.

Lemma UpdateCache_keeps (p : Processor) (c c' : EmulatorStateCache) :
  UpdateCache p c = Some c' ->
  breakpoints c' = breakpoints c
  /\ notify_bp_thread_id c' = notify_bp_thread_id c
  /\ last_bp_thread_id c' = last_bp_thread_id c
  /\ notify_bp_guest_address c' = notify_bp_guest_address c
  /\ notify_stopped c' = negb (ExecutionState_eqb (execution_state p) kRunning).
Proof.
  unfold UpdateCache. cbv zeta.
  destruct (ExecutionState_eqb (execution_state p) kRunning); simpl.
  - intros [= <-]. repeat split.
  - destruct (QueryThreadDebugInfos p) as [|t0 rest]; [discriminate|].
    simpl. intros [= <-]. repeat split.
Qed.

Lemma DeleteCodeBreakpoint_ptr_front (g : GDBStub) (front : Breakpoint)
    (rest : list Breakpoint) :
  all_breakpoints (registry g) = front :: rest ->
  all_breakpoints (registry (DeleteCodeBreakpoint_ptr (bp_handle front) g)) = rest
  /\ proc_calls (DeleteCodeBreakpoint_ptr (bp_handle front) g)
     = (proc_calls g ++ [CallRemoveBreakpoint (bp_handle front)])%list
  /\ sent (DeleteCodeBreakpoint_ptr (bp_handle front) g) = sent g.
Proof.
  intros Hall. unfold DeleteCodeBreakpoint_ptr. fold (registry g). rewrite Hall.
  simpl. destruct (decide (bp_handle front = bp_handle front)) as [_|Hne];
    [|contradiction].
  simpl. repeat split.
Qed.

Lemma OnDetached_loop_effect (fuel : nat) :
  forall g,
    registry_ok g ->
    length (all_breakpoints (registry g)) = fuel ->
    registry (OnDetached_loop fuel g) = mkBreakpointState [] ∅
    /\ proc_calls (OnDetached_loop fuel g)
       = (proc_calls g
            ++ map (fun b => CallRemoveBreakpoint (bp_handle b))
                 (all_breakpoints (registry g)))%list
    /\ sent (OnDetached_loop fuel g) = sent g.
Proof.
  induction fuel as [|fuel IH]; intros g Hok Hlen.
  - cbn [OnDetached_loop].
    destruct (all_breakpoints (registry g)) as [|b l] eqn:Hall; [|discriminate Hlen].
    split; [|split; [simpl; rewrite app_nil_r; reflexivity | reflexivity]].
    rewrite <- registry_eta, Hall. f_equal.
    apply map_empty. intros k.
    destruct (code_breakpoints_by_guest_address (registry g) !! k) as [h|] eqn:Hl;
      [|reflexivity].
    destruct Hok as (_ & _ & Hmap & _). apply Hmap in Hl as (b & Hb & _).
    rewrite Hall in Hb. destruct Hb.
  - cbn [OnDetached_loop]. fold (registry g).
    destruct (all_breakpoints (registry g)) as [|front rest] eqn:Hall;
      [discriminate Hlen|].
    destruct (DeleteCodeBreakpoint_ptr_front g front rest Hall) as (Hrest & Hcalls & Hsent).
    destruct (IH (DeleteCodeBreakpoint_ptr (bp_handle front) g)) as (Hreg & Hc & Hs).
    + apply DeleteCodeBreakpoint_ptr_ok, Hok.
    + rewrite Hrest. simpl in Hlen. lia.
    + split; [exact Hreg|]. split.
      * rewrite Hc, Hcalls, Hrest, <- app_assoc. reflexivity.
      * rewrite Hs. exact Hsent.
Qed.

(** X18. [OnDetached] unregisters everything, once each.  In a well-formed
    registry, when the refresh it starts with is defined, it leaves the
    owning vector and the map empty, has called [RemoveBreakpoint] on the
    Processor exactly once for every registered breakpoint, front to back,
    and has sent nothing to the client. *)
Theorem OnDetached_removes_all (p : Processor) (g : GDBStub) (c : EmulatorStateCache) :
  registry_ok g ->
  UpdateCache p (cache_ g) = Some c ->
  exists g',
    OnDetached p g = Some g'
    /\ registry g' = mkBreakpointState [] ∅
    /\ proc_calls g'
       = (proc_calls g
            ++ map (fun b => CallRemoveBreakpoint (bp_handle b))
                 (all_breakpoints (registry g)))%list
    /\ sent g' = sent g.
Proof.
  intros Hok Hc. unfold OnDetached. rewrite Hc. cbn [mbind option_bind].
  eexists. split; [reflexivity|].
  destruct (UpdateCache_keeps p (cache_ g) c Hc) as (Hbp & _).
  assert (Hreg : registry (set_cache c g) = registry g) by exact Hbp.
  assert (Hok0 : registry_ok (set_cache c g)).
  { unfold registry_ok. rewrite Hreg. exact Hok. }
  destruct (OnDetached_loop_effect _ (set_cache c g) Hok0 eq_refl) as (H1 & H2 & H3).
  split; [exact H1|]. split; [|exact H3].
  rewrite <- Hreg. exact H2.
Qed.

Lemma OnDetached_removes_all_witness :
  exists g',
    OnDetached test_processor stub_with_breakpoint = Some g'
    /\ registry g' = mkBreakpointState [] ∅
    /\ proc_calls g'
       = (proc_calls stub_with_breakpoint
            ++ map (fun b => CallRemoveBreakpoint (bp_handle b))
                 (all_breakpoints (registry stub_with_breakpoint)))%list
    /\ sent g' = sent stub_with_breakpoint.
Proof.
  eapply (OnDetached_removes_all test_processor stub_with_breakpoint).
  - exact stub_with_breakpoint_ok.
  - vm_compute. reflexivity.
Defined.

(** ** Stop notifications *)

Lemma Listen_notify_idle (g : GDBStub) :
  notify_stopped (cache_ g) = false -> Listen_notify g = g.
Proof. intros H. unfold Listen_notify. rewrite H. reflexivity. Qed.

Lemma Listen_notify_thread (g : GDBStub) :
  notify_stopped (cache_ g) = true ->
  notify_bp_thread_id (cache_ g) <> absent32 ->
  Listen_notify g
  = set_cache
      (set_notify_stopped false
         (set_notify_bp_thread_id absent32
            (set_cur_thread_id (notify_bp_thread_id (cache_ g)) (cache_ g))))
      (Send
         (SendPacket
            (GetThreadStateReply
               (set_cur_thread_id (notify_bp_thread_id (cache_ g)) (cache_ g))
               (notify_bp_thread_id (cache_ g)) kSignalSigtrap)) g).
Proof.
  intros Hs Ht. unfold Listen_notify. rewrite Hs.
  destruct (Z.eqb_spec (notify_bp_thread_id (cache_ g)) absent32) as [He|_];
    [contradiction|].
  reflexivity.
Qed.

Lemma GetThreadStateReply_thread (c : EmulatorStateCache) (tid : Z) (t : ThreadDebugInfo) :
  thread_info c tid = Some t ->
  0 <= tid < absent32 ->
  GetThreadStateReply c tid kSignalSigtrap
  = stop_reply
      (if notify_bp_guest_address c =? absent64 then first_guest_pc (frames t)
       else notify_bp_guest_address c)
      (lr (guest_context t)) tid.
Proof.
  intros Ht Hr. unfold GetThreadStateReply. rewrite Ht.
  assert (Hid : to_uint32 tid = tid).
  { unfold to_uint32. apply Z.mod_small. unfold absent32 in Hr. lia. }
  rewrite Hid.
  destruct (Z.eqb_spec tid absent32) as [He|_]; [lia|].
  cbn [negb]. unfold stop_reply.
  change (hex02 kSignalSigtrap) with "05". change (hex02 64) with "40".
  change (hex02 67) with "43".
  destruct (notify_bp_guest_address c =? absent64); cbn [negb];
    rewrite !str_app_cons, !str_app_nil_l; reflexivity.
Qed.

Lemma notify_after_event (g : GDBStub) (c1 : EmulatorStateCache) (t : ThreadDebugInfo) :
  notify_stopped c1 = true ->
  0 <= notify_bp_thread_id c1 < absent32 ->
  thread_info c1 (notify_bp_thread_id c1) = Some t ->
  sent (Listen_notify (set_cache c1 g))
  = (sent g
       ++ [SendPacket
             (stop_reply
                (if notify_bp_guest_address c1 =? absent64 then first_guest_pc (frames t)
                 else notify_bp_guest_address c1)
                (lr (guest_context t)) (notify_bp_thread_id c1))])%list
  /\ cur_thread_id (cache_ (Listen_notify (set_cache c1 g))) = notify_bp_thread_id c1
  /\ notify_stopped (cache_ (Listen_notify (set_cache c1 g))) = false
  /\ notify_bp_thread_id (cache_ (Listen_notify (set_cache c1 g))) = absent32
  /\ Listen_notify (Listen_notify (set_cache c1 g)) = Listen_notify (set_cache c1 g).
Proof.
  intros Hs Hr Ht.
  assert (Hne : notify_bp_thread_id (cache_ (set_cache c1 g)) <> absent32).
  { change (cache_ (set_cache c1 g)) with c1. lia. }
  assert (Hidle : notify_stopped (cache_ (Listen_notify (set_cache c1 g))) = false).
  { rewrite (Listen_notify_thread (set_cache c1 g) Hs Hne). reflexivity. }
  split; [|split; [|split; [exact Hidle|split]]].
  - rewrite (Listen_notify_thread (set_cache c1 g) Hs Hne).
    change (cache_ (set_cache c1 g)) with c1.
    rewrite (GetThreadStateReply_thread _ _ t); [reflexivity | exact Ht | exact Hr].
  - rewrite (Listen_notify_thread (set_cache c1 g) Hs Hne). reflexivity.
  - rewrite (Listen_notify_thread (set_cache c1 g) Hs Hne). reflexivity.
  - apply Listen_notify_idle, Hidle.
Qed.

Lemma stop_reply_uint64 (a lr_value tid : Z) :
  stop_reply (to_uint64 a) lr_value tid = stop_reply a lr_value tid.
Proof.
  unfold stop_reply, u32_to_padded_hex. rewrite to_uint32_uint64. reflexivity.
Qed.

(** X19. The stop reply after a breakpoint hit.  When [OnBreakpointHit]
    finds the Processor stopped and the thread that hit is in the reloaded
    listing (its id and the breakpoint's address not being the values
    kept for "absent"), the next pass through the notification block of
    [Listen] sends exactly one packet, [T05] with register 64 set to the
    low 32 bits of the breakpoint's address, register 67 to the thread's
    LR, and the thread id; it moves the focus to that thread and clears
    the pending notification, so that a further pass sends nothing. *)
Theorem breakpoint_hit_stop_reply (p : Processor) (bp : Breakpoint)
    (thread t : ThreadDebugInfo) (g : GDBStub) (c1 : EmulatorStateCache) :
  OnBreakpointHit p bp thread (cache_ g) = Some c1 ->
  execution_state p <> kRunning ->
  0 <= thread_id thread < absent32 ->
  to_uint64 (address bp) <> absent64 ->
  thread_info c1 (thread_id thread) = Some t ->
  sent (Listen_notify (set_cache c1 g))
  = (sent g
       ++ [SendPacket
             (stop_reply (address bp) (lr (guest_context t)) (thread_id thread))])%list
  /\ cur_thread_id (cache_ (Listen_notify (set_cache c1 g))) = thread_id thread
  /\ notify_stopped (cache_ (Listen_notify (set_cache c1 g))) = false
  /\ notify_bp_thread_id (cache_ (Listen_notify (set_cache c1 g))) = absent32
  /\ Listen_notify (Listen_notify (set_cache c1 g)) = Listen_notify (set_cache c1 g).
Proof.
  intros Hhit Hrun Hr Haddr Ht. unfold OnBreakpointHit in Hhit. cbv zeta in Hhit.
  destruct (UpdateCache_keeps _ _ _ Hhit) as (_ & Htid & _ & Hnaddr & Hstop).
  cbn [notify_bp_thread_id set_last_bp_thread_id set_notify_bp_thread_id] in Htid.
  cbn [notify_bp_guest_address set_last_bp_thread_id set_notify_bp_thread_id
         set_notify_bp_guest_address] in Hnaddr.
  assert (Hs : notify_stopped c1 = true).
  { rewrite Hstop. destruct (execution_state p); [congruence | reflexivity | reflexivity]. }
  rewrite <- Htid in Hr, Ht.
  destruct (notify_after_event g c1 t Hs Hr Ht) as (H1 & H2 & H3 & H4 & H5).
  rewrite Hnaddr in H1.
  destruct (Z.eqb_spec (to_uint64 (address bp)) absent64) as [He|_]; [contradiction|].
  rewrite stop_reply_uint64 in H1.
  rewrite Htid in H1, H2.
  split; [exact H1|]. split; [exact H2|]. split; [exact H3|]. split; [exact H4 | exact H5].
Qed.

Lemma breakpoint_hit_stop_reply_witness :
  sent (Listen_notify (set_cache (cache_ stub_after_hit) test_stub))
  = (sent test_stub ++ [SendPacket (stop_reply 4096 2181038080 7)])%list.
Proof.
  refine (proj1 (breakpoint_hit_stop_reply test_processor test_breakpoint test_thread
                   test_thread test_stub (cache_ stub_after_hit) _ _ _ _ _)).
  - vm_compute. reflexivity.
  - discriminate.
  - unfold absent32. simpl. lia.
  - vm_compute. discriminate.
  - vm_compute. reflexivity.
Defined.

(** X20. The stop reply after a completed step.  When [OnStepCompleted]
    finds the Processor stopped and the stepped thread is in the reloaded
    listing (its id not being the value kept for "absent"), the next pass
    through the notification block sends exactly one [T05] packet for
    that thread and moves the focus to it.  The PC it reports is the
    guest PC of the thread's first frame with a non-zero one only when no
    breakpoint address is still pending; an address left by an earlier
    breakpoint hit is reported instead. *)
Theorem step_completed_stop_reply (p : Processor) (thread t : ThreadDebugInfo)
    (g : GDBStub) (c1 : EmulatorStateCache) :
  OnStepCompleted p thread (cache_ g) = Some c1 ->
  execution_state p <> kRunning ->
  0 <= thread_id thread < absent32 ->
  thread_info c1 (thread_id thread) = Some t ->
  sent (Listen_notify (set_cache c1 g))
  = (sent g
       ++ [SendPacket
             (stop_reply
                (if notify_bp_guest_address (cache_ g) =? absent64
                 then first_guest_pc (frames t)
                 else notify_bp_guest_address (cache_ g))
                (lr (guest_context t)) (thread_id thread))])%list
  /\ cur_thread_id (cache_ (Listen_notify (set_cache c1 g))) = thread_id thread
  /\ last_bp_thread_id (cache_ (Listen_notify (set_cache c1 g))) = thread_id thread
  /\ Listen_notify (Listen_notify (set_cache c1 g)) = Listen_notify (set_cache c1 g).
Proof.
  intros Hstep Hrun Hr Ht. unfold OnStepCompleted in Hstep. cbv zeta in Hstep.
  destruct (UpdateCache_keeps _ _ _ Hstep) as (_ & Htid & Hlast & Hnaddr & Hstop).
  cbn [notify_bp_thread_id set_last_bp_thread_id set_notify_bp_thread_id] in Htid.
  cbn [last_bp_thread_id set_last_bp_thread_id set_notify_bp_thread_id] in Hlast.
  cbn [notify_bp_guest_address set_last_bp_thread_id set_notify_bp_thread_id] in Hnaddr.
  assert (Hs : notify_stopped c1 = true).
  { rewrite Hstop. destruct (execution_state p); [congruence | reflexivity | reflexivity]. }
  assert (Hne : notify_bp_thread_id (cache_ (set_cache c1 g)) <> absent32).
  { change (cache_ (set_cache c1 g)) with c1. lia. }
  rewrite <- Htid in Hr, Ht.
  destruct (notify_after_event g c1 t Hs Hr Ht) as (H1 & H2 & _ & _ & H5).
  rewrite Hnaddr, Htid in H1. rewrite Htid in H2.
  split; [exact H1|]. split; [exact H2|]. split; [|exact H5].
  rewrite (Listen_notify_thread (set_cache c1 g) Hs Hne). exact Hlast.
Qed.

Lemma step_completed_stop_reply_witness :
  sent (Listen_notify
          (set_cache
             (default initial_cache
                (OnStepCompleted test_processor test_thread (cache_ stub_after_hit)))
             stub_after_hit))
  = (sent stub_after_hit ++ [SendPacket (stop_reply 4096 2181038080 7)])%list.
Proof.
  refine (proj1 (step_completed_stop_reply test_processor test_thread test_thread
                   stub_after_hit _ _ _ _ _)).
  - vm_compute. reflexivity.
  - discriminate.
  - unfold absent32. simpl. lia.
  - vm_compute. reflexivity.
Defined.

Lemma GetThreadStateReply_absent (c : EmulatorStateCache) (signal : Z) :
  GetThreadStateReply c absent32 signal = "S05".
Proof.
  unfold GetThreadStateReply.
  destruct (thread_info c absent32); [|reflexivity].
  change (to_uint32 absent32 =? absent32) with true. reflexivity.
Qed.

Lemma Listen_notify_no_thread (g : GDBStub) :
  notify_stopped (cache_ g) = true ->
  notify_bp_thread_id (cache_ g) = absent32 ->
  Listen_notify g
  = set_cache (set_notify_stopped false (set_notify_bp_thread_id absent32 (cache_ g)))
      (Send "$S05#b8" g).
Proof.
  intros Hs Ht. unfold Listen_notify. cbv zeta. rewrite Hs, Ht.
  change (negb (absent32 =? absent32)) with false. cbv iota.
  rewrite Ht, GetThreadStateReply_absent. reflexivity.
Qed.

(** X21. What a client sees on connecting.  [Listen] starts by pausing the
    Processor and refreshing the cache; with no stop pending for a thread,
    the first pass through the notification block then sends the single
    packet [$S05#b8] when the Processor is seen stopped, and nothing when
    it is still seen running.  The focus stays where the refresh put it. *)
Theorem connect_reports_S05 (p : Processor) (g g1 : GDBStub) :
  Listen_start p g = Some g1 ->
  notify_bp_thread_id (cache_ g) = absent32 ->
  proc_calls g1 = (proc_calls g ++ [CallPause])%list
  /\ sent (Listen_notify g1)
     = (sent g
          ++ if ExecutionState_eqb (execution_state p) kRunning then []
             else ["$S05#b8"])%list
  /\ cur_thread_id (cache_ (Listen_notify g1)) = cur_thread_id (cache_ g1).
Proof.
  intros Hstart Hnone. unfold Listen_start in Hstart. cbv zeta in Hstart.
  destruct (UpdateCache p (cache_ (snd (ExecutionPause g)))) as [c|] eqn:Hc;
    [|discriminate Hstart].
  cbn [mbind option_bind] in Hstart.
  assert (Hg1 : g1 = set_cache c (snd (ExecutionPause g))) by congruence. subst g1.
  destruct (UpdateCache_keeps _ _ _ Hc) as (_ & Htid & _ & _ & Hstop).
  change (notify_bp_thread_id (cache_ (snd (ExecutionPause g))))
    with (notify_bp_thread_id (cache_ g)) in Htid.
  rewrite Hnone in Htid.
  split; [reflexivity|].
  destruct (ExecutionState_eqb (execution_state p) kRunning); cbn [negb] in Hstop.
  - rewrite (Listen_notify_idle (set_cache c (snd (ExecutionPause g))) Hstop).
    split; [simpl; rewrite app_nil_r; reflexivity | reflexivity].
  - rewrite (Listen_notify_no_thread (set_cache c (snd (ExecutionPause g))) Hstop Htid).
    split; reflexivity.
Qed.

Lemma connect_reports_S05_witness :
  proc_calls (default initial_stub (Listen_start test_processor initial_stub))
  = [CallPause].
Proof.
  refine (proj1 (connect_reports_S05 test_processor initial_stub _ _ _)).
  - vm_compute. reflexivity.
  - reflexivity.
Defined.

(** ** More on the handlers *)

Lemma SetThreadId_keeps (data : string) (c c' : EmulatorStateCache) :
  SetThreadId data c = Some c' ->
  thread_debug_infos c' = thread_debug_infos c
  /\ last_bp_thread_id c' = last_bp_thread_id c
  /\ breakpoints c' = breakpoints c.
Proof.
  unfold SetThreadId. cbv zeta.
  destruct (substr_from 1 data) as [arg|]; [|discriminate].
  cbn [mbind option_bind].
  destruct (stol16 arg) as [threadId|]; [|discriminate].
  cbn [mbind option_bind].
  destruct (existsb _ _); intros [= <-]; repeat split.
Qed.

(** X22. The [H] handler leaves a valid focus.  When it returns and the
    thread listing is not empty (its ids being 32-bit values), the current
    thread it leaves is a thread of the listing, whether or not the id
    asked for exists; the listing itself is not changed. *)
Theorem SetThreadId_focus (data : string) (c c' : EmulatorStateCache) :
  SetThreadId data c = Some c' ->
  thread_debug_infos c <> [] ->
  (forall t, In t (thread_debug_infos c) -> 0 <= thread_id t < 2 ^ 32) ->
  exists t,
    cur_thread_info c' = Some t
    /\ In t (thread_debug_infos c)
    /\ thread_id t = cur_thread_id c'
    /\ thread_debug_infos c' = thread_debug_infos c.
Proof.
  intros Hset Hne Hrange. unfold SetThreadId in Hset. cbv zeta in Hset.
  destruct (substr_from 1 data) as [arg|]; [|discriminate Hset].
  cbn [mbind option_bind] in Hset.
  destruct (stol16 arg) as [threadId|]; [|discriminate Hset].
  cbn [mbind option_bind] in Hset.
  destruct (thread_debug_infos c) as [|t0 rest] eqn:Hl; [contradiction|].
  cbn [thread_debug_infos set_cur_thread_id] in Hset. rewrite Hl in Hset.
  destruct (existsb _ _) eqn:Hex; injection Hset as <-.
  - apply existsb_find in Hex as (t & Hfind & Hin & Hid).
    exists t. unfold cur_thread_info, thread_info.
    cbn [cur_thread_id thread_debug_infos set_cur_thread_id]. rewrite Hl, to_uint32_idem.
    split; [exact Hfind|]. split; [exact Hin|]. split; [|reflexivity].
    apply Z.eqb_eq, Hid.
  - exists t0. unfold cur_thread_info, thread_info.
    cbn [cur_thread_id thread_debug_infos set_cur_thread_id]. rewrite Hl.
    assert (Hid : to_uint32 (thread_id t0) = thread_id t0).
    { unfold to_uint32. apply Z.mod_small, Hrange. left. reflexivity. }
    rewrite Hid. cbn [find]. rewrite Z.eqb_refl.
    split; [reflexivity|]. split; [left; reflexivity|]. split; reflexivity.
Qed.

Lemma SetThreadId_focus_witness :
  exists t,
    cur_thread_info
      (default initial_cache
         (SetThreadId "g9" (set_thread_debug_infos [thread_numbered 1; thread_numbered 2]
                              initial_cache))) = Some t
    /\ In t [thread_numbered 1; thread_numbered 2]
    /\ thread_id t = 1.
Proof.
  destruct (SetThreadId_focus "g9"
              (set_thread_debug_infos [thread_numbered 1; thread_numbered 2] initial_cache)
              (default initial_cache
                 (SetThreadId "g9"
                    (set_thread_debug_infos [thread_numbered 1; thread_numbered 2]
                       initial_cache))))
    as (t & Ht & Hin & Hid & _).
  - vm_compute. reflexivity.
  - discriminate.
  - intros t [<-|[<-|[]]]; simpl; lia.
  - exists t. split; [exact Ht|]. split; [exact Hin|]. rewrite Hid. reflexivity.
Defined.

(** X23. Requests whose argument is too short are not answered: an
    exception of the standard library escapes the handler.  This is so for
    [H] with fewer than two bytes of data ([substr(1)] or [stol] throws),
    for [Z] and [z] with fewer than three ([substr(2)] or [stoull]
    throws), and for [qC] when the current thread id names no thread of
    the listing (a null pointer is dereferenced). *)
Theorem handlers_reject_short_arguments (p : Processor) (command : GDBCommand)
    (g : GDBStub) :
  (cmd command = "H" -> (String.length (data command) <= 1)%nat ->
   HandleGDBCommand p command g = None)
  /\ (cmd command = "Z" \/ cmd command = "z" ->
      (String.length (data command) <= 2)%nat ->
      HandleGDBCommand p command g = None)
  /\ (cmd command = "qC" -> cur_thread_info (cache_ g) = None ->
      HandleGDBCommand p command g = None).
Proof.
  split; [|split].
  - intros Hcmd Hlen.
    assert (Hh : HandleGDBCommand p command g
                 = (c' ← SetThreadId (data command) (cache_ g);
                    Some (kGdbReplyOK, set_cache c' g))).
    { unfold HandleGDBCommand. rewrite Hcmd. reflexivity. }
    rewrite Hh. destruct (data command) as [|a [|b s]]; [reflexivity | reflexivity|].
    simpl in Hlen. lia.
  - intros Hcmd Hlen.
    assert (Haddr : breakpoint_address (data command) = None).
    { destruct (data command) as [|a [|b [|d s]]];
        [reflexivity | reflexivity | reflexivity|].
      simpl in Hlen. lia. }
    destruct Hcmd as [Hcmd|Hcmd]; unfold HandleGDBCommand; rewrite Hcmd;
      cbv zeta; simpl String.eqb; cbv iota; rewrite Haddr; reflexivity.
  - intros Hcmd Hnone. unfold HandleGDBCommand. rewrite Hcmd. cbv zeta.
    simpl String.eqb. cbv iota. rewrite Hnone. reflexivity.
Qed.

Lemma handlers_reject_short_arguments_witness :
  HandleGDBCommand test_processor (mkGDBCommand "H" "g" 0) test_stub = None
  /\ HandleGDBCommand test_processor (mkGDBCommand "z" "0," 0) test_stub = None
  /\ HandleGDBCommand test_processor (mkGDBCommand "qC" "" 0) initial_stub = None.
Proof.
  split; [|split].
  - apply (proj1 (handlers_reject_short_arguments test_processor
                    (mkGDBCommand "H" "g" 0) test_stub)); [reflexivity | simpl; lia].
  - apply (proj1 (proj2 (handlers_reject_short_arguments test_processor
                           (mkGDBCommand "z" "0," 0) test_stub)));
      [right; reflexivity | simpl; lia].
  - apply (proj2 (proj2 (handlers_reject_short_arguments test_processor
                           (mkGDBCommand "qC" "" 0) initial_stub)));
      reflexivity.
Defined.

(** X24. [qXfer] reads ignore the window asked for.  Whatever follows the
    object name (the annex, the offset and the length), a [features] read
    replies with the whole target description and a [threads] read with
    the whole thread list; the leading [:] is optional.  The target
    description alone is longer than the [PacketSize=1024] the stub
    announces in its [qSupported] reply. *)
Theorem Xfer_ignores_window (rest : string) (c : EmulatorStateCache) :
  Xfer (":features:" +:+ rest) c = target_xml
  /\ Xfer ("features:" +:+ rest) c = target_xml
  /\ Xfer (":threads:" +:+ rest) c = BuildThreadList c
  /\ Xfer ("threads:" +:+ rest) c = BuildThreadList c
  /\ (1024 < String.length target_xml)%nat.
Proof.
  rewrite !str_app_cons, !str_app_nil_l.
  split; [reflexivity|]. split; [reflexivity|]. split; [reflexivity|].
  split; [reflexivity|].
  apply Nat.ltb_lt. vm_compute. reflexivity.
Qed.

Lemma digits_aux_nonempty (fuel : nat) :
  forall (base n : Z) (acc : string),
    acc <> "" -> digits_aux fuel base n acc <> "".
Proof.
  induction fuel as [|fuel IH]; intros base n acc Hacc; simpl; [exact Hacc|].
  destruct (n / base =? 0); [discriminate|]. apply IH. discriminate.
Qed.

Lemma digits_aux_S_nonempty (fuel : nat) (base n : Z) (acc : string) :
  digits_aux (S fuel) base n acc <> "".
Proof.
  cbn [digits_aux].
  destruct (n / base =? 0); [discriminate|]. apply digits_aux_nonempty. discriminate.
Qed.

Lemma digits_nonempty (base n : Z) : digits base n <> "".
Proof. exact (digits_aux_S_nonempty 63 base n ""). Qed.

Lemma thread_id_list_fold (l : list ThreadDebugInfo) :
  forall acc,
    acc <> "" ->
    fold_left
      (fun result thread =>
         (if negb (String.length result =? 0)%nat then result +:+ "," else result)
           +:+ to_string (thread_id thread)) l acc
    = match l with
      | [] => acc
      | _ :: _ => acc +:+ "," +:+ comma_join (map (fun t => to_string (thread_id t)) l)
      end.
Proof.
  induction l as [|t l IH]; intros acc Hacc; [reflexivity|].
  cbn [fold_left]. destruct acc as [|a acc']; [contradiction|].
  cbn [String.length Nat.eqb negb].
  rewrite IH.
  - destruct l as [|t' l']; cbn [map comma_join]; [apply str_app_assoc|].
    rewrite !str_app_assoc. reflexivity.
  - rewrite !str_app_cons. discriminate.
Qed.

(** X25. The [qfThreadInfo] reply is [m] followed by the decimal thread
    ids of the listing separated by commas, with no comma at either end;
    for an empty listing it is [m] alone. *)
Theorem thread_id_list_is_comma_separated (p : Processor) (command : GDBCommand)
    (g : GDBStub) :
  cmd command = "qfThreadInfo" ->
  HandleGDBCommand p command g
  = Some ("m" +:+ comma_join (map (fun t => to_string (thread_id t))
                                (thread_debug_infos (cache_ g))), g).
Proof.
  intros Hcmd.
  assert (Hh : HandleGDBCommand p command g = Some ("m" +:+ thread_id_list (cache_ g), g)).
  { unfold HandleGDBCommand. rewrite Hcmd. reflexivity. }
  rewrite Hh. do 3 f_equal. unfold thread_id_list.
  destruct (thread_debug_infos (cache_ g)) as [|t l]; [reflexivity|].
  cbn [fold_left String.length Nat.eqb negb]. rewrite str_app_nil_l.
  rewrite thread_id_list_fold by apply digits_nonempty.
  destruct l; reflexivity.
Qed.

Lemma thread_id_list_is_comma_separated_witness :
  HandleGDBCommand two_thread_processor (mkGDBCommand "qfThreadInfo" "" 0)
    (set_cache (set_thread_debug_infos [thread_numbered 10; thread_numbered 255]
                  initial_cache) initial_stub)
  = Some ("m10,255",
          set_cache (set_thread_debug_infos [thread_numbered 10; thread_numbered 255]
                       initial_cache) initial_stub).
Proof.
  apply (thread_id_list_is_comma_separated two_thread_processor
           (mkGDBCommand "qfThreadInfo" "" 0)
           (set_cache (set_thread_debug_infos [thread_numbered 10; thread_numbered 255]
                         initial_cache) initial_stub)).
  reflexivity.
Defined.

(** X26. [s] steps the thread of the last stop, not the thread in focus.
    After a breakpoint hit on a thread (its id not being the value kept
    for "absent"), whatever thread an [H] request that returns then
    selects, an [s] request asks the Processor to step the thread that
    hit the breakpoint, replies [OK], and changes nothing else. *)
Theorem step_targets_last_stopped_thread (p p' : Processor) (bp : Breakpoint)
    (thread : ThreadDebugInfo) (g : GDBStub) (c1 c2 : EmulatorStateCache)
    (data : string) (command : GDBCommand) :
  OnBreakpointHit p bp thread (cache_ g) = Some c1 ->
  SetThreadId data c1 = Some c2 ->
  thread_id thread <> absent32 ->
  cmd command = "s" ->
  HandleGDBCommand p' command (set_cache c2 g)
  = Some (kGdbReplyOK,
          call_processor (CallStepGuestInstruction (thread_id thread)) (set_cache c2 g)).
Proof.
  intros Hhit Hset Hne Hcmd.
  unfold OnBreakpointHit in Hhit. cbv zeta in Hhit.
  destruct (UpdateCache_keeps _ _ _ Hhit) as (_ & _ & Hlast & _).
  cbn [last_bp_thread_id set_last_bp_thread_id] in Hlast.
  destruct (SetThreadId_keeps _ _ _ Hset) as (_ & Hlast2 & _).
  assert (Hh : HandleGDBCommand p' command (set_cache c2 g)
               = Some (ExecutionStep (set_cache c2 g))).
  { unfold HandleGDBCommand. rewrite Hcmd. reflexivity. }
  rewrite Hh. unfold ExecutionStep.
  change (cache_ (set_cache c2 g)) with c2. rewrite Hlast2, Hlast.
  destruct (Z.eqb_spec (thread_id thread) absent32) as [He|_]; [contradiction|].
  reflexivity.
Qed.

Lemma step_targets_last_stopped_thread_witness :
  HandleGDBCommand test_processor (mkGDBCommand "s" "" 0)
    (set_cache (default initial_cache (SetThreadId "g1" (cache_ stub_after_hit))) test_stub)
  = Some (kGdbReplyOK,
          call_processor (CallStepGuestInstruction (thread_id test_thread))
            (set_cache (default initial_cache (SetThreadId "g1" (cache_ stub_after_hit)))
               test_stub)).
Proof.
  apply (step_targets_last_stopped_thread test_processor test_processor test_breakpoint
           test_thread test_stub (cache_ stub_after_hit) _ "g1").
  - vm_compute. reflexivity.
  - vm_compute. reflexivity.
  - vm_compute. discriminate.
  - reflexivity.
Defined.

Lemma hex_to_u32_padded (v : Z) : hex_to_u32 (u32_to_padded_hex v) = Some (to_uint32 v).
Proof.
  unfold hex_to_u32, u32_to_padded_hex.
  pose proof (Z.mod_pos_bound v (2 ^ 32) ltac:(lia)) as Hb. fold (to_uint32 v) in Hb.
  apply hex_to_padded; [lia | exact Hb|].
  apply Z.lt_trans with (2 ^ 32); [apply Hb | reflexivity].
Qed.

Lemma hex_to_u64_padded (v : Z) : hex_to_u64 (u64_to_padded_hex v) = Some (to_uint64 v).
Proof.
  unfold hex_to_u64, u64_to_padded_hex.
  pose proof (Z.mod_pos_bound v (2 ^ 64) ltac:(lia)) as Hb. fold (to_uint64 v) in Hb.
  apply hex_to_padded; [lia | exact Hb|].
  apply Z.lt_trans with (2 ^ 64); [apply Hb | reflexivity].
Qed.

Lemma ReadRegister_cmd_reply (data : string) (c : EmulatorStateCache) (rid : Z)
    (s : string) (n : nat) :
  hex_to_u32 data = Some rid ->
  ReadRegister (cur_thread_info c) rid c = Some (s, c) ->
  String.length s = S n ->
  ReadRegister_cmd data c = Some (s, c).
Proof.
  intros Hrid Hr Hlen. unfold ReadRegister_cmd. rewrite Hrid. cbn [mbind option_bind].
  rewrite Hr. cbn [mbind option_bind]. rewrite Hlen. reflexivity.
Qed.

(** X27. What a [p] request reports, decoded.  On a valid current thread
    the reply for a general register (0 to 31) is the hex of the low 32
    bits of that register, for a floating-point register (32 to 63) the
    hex of its 64 bits, and for registers 66, 67 and 68 the hex of the low
    32 bits of cr, lr and ctr: [hex_to] reads each reply back to that
    value.  None of these reads changes the stub. *)
Theorem ReadRegister_decodes (p : Processor) (command : GDBCommand) (g : GDBStub)
    (t : ThreadDebugInfo) (rid : Z) :
  cmd command = "p" ->
  hex_to_u32 (data command) = Some rid ->
  cur_thread_info (cache_ g) = Some t ->
  exists reply,
    (0 <= rid <= 63 \/ 66 <= rid <= 68 -> HandleGDBCommand p command g = Some (reply, g))
    /\ (0 <= rid <= 31 ->
        hex_to_u32 reply = Some (to_uint32 (r (guest_context t) rid)))
    /\ (32 <= rid <= 63 ->
        hex_to_u64 reply = Some (to_uint64 (f (guest_context t) (rid - 32))))
    /\ (rid = 66 -> hex_to_u32 reply = Some (to_uint32 (cr (guest_context t))))
    /\ (rid = 67 -> hex_to_u32 reply = Some (to_uint32 (lr (guest_context t))))
    /\ (rid = 68 -> hex_to_u32 reply = Some (to_uint32 (ctr (guest_context t)))).
Proof.
  intros Hcmd Hrid Ht.
  assert (Hp : HandleGDBCommand p command g
               = with_cache g (ReadRegister_cmd (data command) (cache_ g))).
  { unfold HandleGDBCommand. rewrite Hcmd. reflexivity. }
  assert (Hdone : forall s n,
            ReadRegister (Some t) rid (cache_ g) = Some (s, cache_ g) ->
            String.length s = S n ->
            HandleGDBCommand p command g = Some (s, g)).
  { intros s n Hr Hlen. rewrite Hp.
    rewrite (ReadRegister_cmd_reply _ _ rid s n Hrid); [| rewrite Ht; exact Hr | exact Hlen].
    unfold with_cache. cbn [mbind option_bind]. rewrite set_cache_same. reflexivity. }
  assert (Hcases : 0 <= rid <= 31 \/ 32 <= rid <= 63 \/ rid = 66 \/ rid = 67 \/ rid = 68
                   \/ ~ (0 <= rid <= 63 \/ 66 <= rid <= 68)) by lia.
  destruct Hcases as [Hc|[Hc|[Hc|[Hc|[Hc|Hc]]]]].
  - exists (u32_to_padded_hex (r (guest_context t) rid)).
    split; [|repeat split; intros; first [apply hex_to_u32_padded | lia]].
    intros _. apply (Hdone _ 7%nat); [|apply u32_to_padded_hex_length].
    unfold ReadRegister.
    repeat match goal with
    | |- context [rid =? ?k] => destruct (Z.eqb_spec rid k); [lia|]
    end.
    destruct (Z.ltb_spec 70 rid); [lia|]. destruct (Z.ltb_spec 31 rid); [lia|].
    reflexivity.
  - exists (u64_to_padded_hex (f (guest_context t) (rid - 32))).
    split; [|repeat split; intros; first [apply hex_to_u64_padded | lia]].
    intros _. apply (Hdone _ 15%nat); [|apply u64_to_padded_hex_length].
    unfold ReadRegister.
    repeat match goal with
    | |- context [rid =? ?k] => destruct (Z.eqb_spec rid k); [lia|]
    end.
    destruct (Z.ltb_spec 70 rid); [lia|]. destruct (Z.ltb_spec 31 rid); [|lia].
    reflexivity.
  - exists (u32_to_padded_hex (cr (guest_context t))).
    split; [|repeat split; intros; first [apply hex_to_u32_padded | lia]].
    intros _. apply (Hdone _ 7%nat); [|apply u32_to_padded_hex_length].
    rewrite Hc. reflexivity.
  - exists (u32_to_padded_hex (lr (guest_context t))).
    split; [|repeat split; intros; first [apply hex_to_u32_padded | lia]].
    intros _. apply (Hdone _ 7%nat); [|apply u32_to_padded_hex_length].
    rewrite Hc. reflexivity.
  - exists (u32_to_padded_hex (ctr (guest_context t))).
    split; [|repeat split; intros; first [apply hex_to_u32_padded | lia]].
    intros _. apply (Hdone _ 7%nat); [|apply u32_to_padded_hex_length].
    rewrite Hc. reflexivity.
  - exists "". split; [intros H; contradiction|]. repeat split; intros; lia.
Qed.

Lemma ReadRegister_decodes_witness :
  exists reply,
    HandleGDBCommand test_processor (mkGDBCommand "p" "43" 0) test_stub
    = Some (reply, test_stub)
    /\ hex_to_u32 reply = Some 2181038080.
Proof.
  destruct (ReadRegister_decodes test_processor (mkGDBCommand "p" "43" 0) test_stub
              test_thread 67) as (reply & Hr & _ & _ & _ & Hlr & _);
    [reflexivity | reflexivity | reflexivity|].
  exists reply. split; [apply Hr; right; lia | apply Hlr; reflexivity].
Defined.

(** ** Error detection *)

Lemma byte_of_range (c : ascii) : 0 <= byte_of c < 256.
Proof.
  pose proof (for_all_chars (fun c => (0 <=? byte_of c) && (byte_of c <? 256))
                ltac:(vm_compute; reflexivity) c) as H.
  cbv beta in H. apply andb_prop in H as [H1 H2].
  apply Z.leb_le in H1. apply Z.ltb_lt in H2. lia.
Qed.

Lemma byte_of_inj (c d : ascii) : byte_of c = byte_of d -> c = d.
Proof.
  unfold byte_of. intros H. apply N2Z.inj in H.
  rewrite <- (ascii_N_embedding c), <- (ascii_N_embedding d), H. reflexivity.
Qed.

Lemma plain_sum_app (a b : string) : plain_sum (a +:+ b) = plain_sum a + plain_sum b.
Proof.
  induction a as [|c a IH]; [rewrite str_app_nil_l; simpl; lia|].
  rewrite str_app_cons. simpl. rewrite IH. lia.
Qed.

(** X28. The checksum is verified, and detects a changed byte.  For a body
    without a byte 0, [#] or [}], [ParsePacket] accepts a framed packet
    exactly when the two digits behind [#] decode to the sum of the body
    modulo 256.  So a packet written by [SendPacket] in which one byte of
    the body has been replaced by a different one (the body staying free
    of those bytes) is rejected. *)
Theorem ParsePacket_detects_corruption (pre post : string) (c c' : ascii)
    (out_cmd : GDBCommand) :
  plain_body (pre +:+ String c post) = true ->
  plain_body (pre +:+ String c' post) = true ->
  c <> c' ->
  (forall tail,
     fst (ParsePacket
            (String GdbStubControl.PacketStart
               ((pre +:+ String c' post) +:+ String GdbStubControl.PacketEnd tail)) out_cmd)
     = (fst (ReadHexByteFromBuffer tail) =? sum_bytes (pre +:+ String c' post)))
  /\ fst (ParsePacket
            (String GdbStubControl.PacketStart
               ((pre +:+ String c' post)
                  +:+ String GdbStubControl.PacketEnd
                        (hex02 (Z.land (sum_bytes (pre +:+ String c post)) 255))))
            out_cmd) = false.
Proof.
  intros Hplain Hplain' Hne.
  destruct (plain_body_wire _ Hplain') as (Hw & _ & Hr).
  assert (Haccept : forall tail,
            fst (ParsePacket
                   (String GdbStubControl.PacketStart
                      ((pre +:+ String c' post) +:+ String GdbStubControl.PacketEnd tail))
                   out_cmd)
            = (fst (ReadHexByteFromBuffer tail) =? sum_bytes (pre +:+ String c' post))).
  { intros tail. rewrite (ParsePacket_framed _ tail out_cmd Hw). cbn [fst].
    rewrite Hr. reflexivity. }
  split; [exact Haccept|].
  rewrite Haccept.
  assert (Hsum : 0 <= sum_bytes (pre +:+ String c post) < 256).
  { rewrite sum_bytes_plain. apply Z.mod_pos_bound. lia. }
  assert (Hland : Z.land (sum_bytes (pre +:+ String c post)) 255
                  = sum_bytes (pre +:+ String c post)).
  { change 255 with (Z.ones 8). rewrite Z.land_ones by lia.
    apply Z.mod_small. exact Hsum. }
  rewrite Hland, (ReadHexByteFromBuffer_hex02 _ Hsum). cbn [fst].
  apply Z.eqb_neq. rewrite !sum_bytes_plain, !plain_sum_app. cbn [plain_sum].
  pose proof (byte_of_range c) as Hc. pose proof (byte_of_range c') as Hc'.
  assert (Hb : byte_of c <> byte_of c').
  { intros Heq. apply Hne, byte_of_inj, Heq. }
  intros Heq.
  assert (Hdiv : ((plain_sum pre + (byte_of c + plain_sum post))
                  - (plain_sum pre + (byte_of c' + plain_sum post))) mod 256 = 0).
  { rewrite Zminus_mod, Heq, Z.sub_diag. reflexivity. }
  replace ((plain_sum pre + (byte_of c + plain_sum post))
           - (plain_sum pre + (byte_of c' + plain_sum post)))
    with (byte_of c - byte_of c') in Hdiv by lia.
  apply Z.mod_divide in Hdiv; [|lia]. destruct Hdiv as [k Hk]. lia.
Qed.

Lemma ParsePacket_detects_corruption_witness :
  fst (ParsePacket ("$" +:+ "m82000100,4" +:+ "#" +:+ hex02 (Z.land (sum_bytes "m82000000,4") 255))
         empty_command) = false.
Proof.
  apply (proj2 (ParsePacket_detects_corruption "m82000" "00,4" "0" "1" empty_command
                  ltac:(reflexivity) ltac:(reflexivity) ltac:(discriminate))).
Defined.
